(** * Health monitor plugin: a shallow embedding of its three services

    The development follows the JavaScript sources:
    - [SelfMonitoring]  : src/services/SelfMonitoringService.js
    - [RabbitMQ]        : src/services/RabbitMQService.js
    - [HealthMonitor]   : src/services/HealthMonitorPlugin.js

    JavaScript numbers that the code only counts, compares or multiplies
    (attempt counters, status codes, millisecond instants, byte counts) are
    integers of [Z]; measured quantities that the code compares with a
    threshold (megabytes, percentages, delays) are rationals of [Q]; the
    average response time, a quotient that the code stores, is the binary64
    number that JavaScript computes, a primitive [float].  A JavaScript [Map] keeps
    insertion order, so the metrics map is an association list; the map of
    latest results, which the code only reads by key, is a [gmap]. *)

From Stdlib Require Import ZArith QArith PrimFloat SpecFloat FloatOps Lia Ascii String.
From stdpp Require Import base tactics option list strings gmap pretty.

Local Open Scope Z_scope.

(** ** JavaScript primitives used by the services *)

Module Js.

(** [arr.slice(start)]: a negative [start] counts from the end, and the
    index is clamped to the array. *)
Definition slice {A} (start : Z) (arr : list A) : list A :=
  let len := Z.of_nat (length arr) in
  let k := if start <? 0 then Z.max (len + start) 0 else Z.min start len in
  drop (Z.to_nat k) arr.

(** Truthiness of a number: [0] is falsy (so is [NaN], which integers
    do not have). *)
Definition truthy (n : Z) : bool := negb (n =? 0).

(** Truthiness of an optional number: [undefined] is falsy. *)
Definition truthy_opt (n : option Z) : bool :=
  match n with Some v => truthy v | None => false end.

(** [a > b] on finite numbers. *)
Definition gt (a b : Q) : bool := negb (Qle_bool a b).

(** [x > b] where [x] may be [undefined]: the comparison converts
    [undefined] to [NaN] and answers [false]. *)
Definition gt_opt (x : option Q) (b : Q) : bool :=
  match x with Some a => gt a b | None => false end.

(** [x || d] on an optional number. *)
Definition or_default (x : option Q) (d : Q) : Q :=
  match x with
  | Some a => if Qeq_bool a 0 then d else a
  | None => d
  end.

(** An integer as the JavaScript number that holds it: the nearest
    binary64 value, ties to even (the integer itself below 2^53). *)
Definition number (z : Z) : float :=
  SF2Prim (binary_normalize prec emax z 0 false).

(** [arr.reduce((a, b) => a + b, 0)]: the additions are those of
    binary64, from the left. *)
Definition sum (arr : list Z) : float :=
  foldl (fun a b => (a + number b)%float) 0%float arr.

(** What awaiting a promise gives: its value, or the message of the
    [Error] it was rejected with. *)
Inductive Settled (A : Type) : Type :=
| Fulfilled (value : A)
| Rejected (message : string).
Arguments Fulfilled {A} value.
Arguments Rejected {A} message.

End Js.

Export Js (Settled, Fulfilled, Rejected).

(** ** SelfMonitoringService.js *)

Module SelfMonitoring.

Inductive Health : Type := healthy | unhealthy.

(** [config.selfMonitoring.thresholds] *)
Record Thresholds : Type := {
  memoryUsageMB : Q;
  cpuUsagePercent : Q;
  eventLoopDelay : Q
}.

(** [config.selfMonitoring.metrics] *)
Record MetricFlags : Type := {
  memory : bool;
  cpu : bool;
  eventLoop : bool
}.

Record Config : Type := {
  metricFlags : MetricFlags;
  thresholds : Thresholds
}.

(** The values of src/config.js. *)
Definition defaultConfig : Config := {|
  metricFlags := {| memory := true; cpu := true; eventLoop := true |};
  thresholds := {|
    memoryUsageMB := 500;
    cpuUsagePercent := 80;
    eventLoopDelay := 100
  |}
|}.

(** What the runtime answers during one call of [collectMetrics]:
    the clock (the readings of one cycle are taken as one instant), the
    resident set size in bytes read by [getProcessMetrics] and the one read
    again by [getHealthStatus], and the CPU percentage computed from
    [process.cpuUsage]. *)
Record Reading : Type := {
  now : Z;
  rss : Z;
  cpuPercent : Q;
  rssAtHealthCheck : Z
}.

Inductive AlertType : Type := memory_usage | cpu_usage | event_loop_delay.

Inductive Severity : Type := info | warning | critical.

(** An alert of [checkThresholds]; its message text is a rendering of
    [value] and [threshold] and is left out. *)
Record Alert : Type := {
  type : AlertType;
  severity : Severity;
  value : Q;
  threshold : Q;
  alertTimestamp : Z
}.

Inductive Issue : Type :=
| HighMemoryUsage (mb : Q)
| HighEventLoopDelay (ms : Q).

Record Uptime : Type := {
  ms : Z;
  seconds : Z;
  minutes : Z;
  hours : Z;
  days : Z
}.

Record HealthStatus : Type := {
  status : Health;
  issues : list Issue;
  warnings : list string;
  lastCheck : Z;
  healthUptime : Uptime
}.

(** [metrics.process]: [memory] and [cpu] are present only when the
    matching flag of the configuration is set. *)
Record ProcessMetrics : Type := {
  rssMB : option Q;
  percent : option Q
}.

(** One snapshot; [delay] is [metrics.eventLoop.delay], undefined when the
    event-loop metric is disabled. The host-level block ([system]) is not
    read by any operation below and is left out. *)
Record Metrics : Type := {
  timestamp : Z;
  uptime : Uptime;
  process : ProcessMetrics;
  delay : option Q;
  health : HealthStatus
}.

(** The fields of the service object. [metrics] is the [Map] from
    timestamp to snapshot in insertion order; [eventLoopDelayField] is
    [this.eventLoopDelay], undefined until the first measurement. *)
Record Service : Type := {
  isMonitoring : bool;
  metrics : list (Z * Metrics);
  alerts : list Alert;
  lastMetricsCollection : option Z;
  eventLoopDelayField : option Q;
  startTime : Z
}.

Definition constructor (startedAt : Z) : Service := {|
  isMonitoring := false;
  metrics := [];
  alerts := [];
  lastMetricsCollection := None;
  eventLoopDelayField := None;
  startTime := startedAt
|}.

Definition getUptime (s : Service) (r : Reading) : Uptime :=
  let uptimeMs := now r - startTime s in
  let uptimeSeconds := uptimeMs / 1000 in
  {| ms := uptimeMs;
     seconds := uptimeSeconds;
     minutes := uptimeSeconds / 60;
     hours := uptimeSeconds / 3600;
     days := uptimeSeconds / 86400 |}.

Definition bytesToMB (bytes : Z) : Q := inject_Z bytes / 1024 / 1024.

Definition getProcessMetrics (cfg : Config) (r : Reading) : ProcessMetrics := {|
  rssMB := if memory (metricFlags cfg) then Some (bytesToMB (rss r)) else None;
  percent := if cpu (metricFlags cfg) then Some (cpuPercent r) else None
|}.

Definition getEventLoopMetrics (cfg : Config) (s : Service) : option Q :=
  if eventLoop (metricFlags cfg)
  then Some (Js.or_default (eventLoopDelayField s) 0)
  else None.

Definition getHealthStatus (cfg : Config) (s : Service) (r : Reading) : HealthStatus :=
  let memUsageMB := bytesToMB (rssAtHealthCheck r) in
  let issues1 :=
    if Js.gt memUsageMB (memoryUsageMB (thresholds cfg))
    then [HighMemoryUsage memUsageMB] else [] in
  let issues2 :=
    if Js.gt_opt (eventLoopDelayField s) (eventLoopDelay (thresholds cfg))
    then issues1 ++ [HighEventLoopDelay (default 0%Q (eventLoopDelayField s))]
    else issues1 in
  let up := getUptime s r in
  let warnings := if hours up <? 1 then ["Service recently started"%string] else [] in
  {| status := if (0 <? Z.of_nat (length issues2)) then unhealthy else healthy;
     issues := issues2;
     warnings := warnings;
     lastCheck := now r;
     healthUptime := up |}.

(** The three comparisons of [checkThresholds]. *)
Definition memoryBreached (cfg : Config) (m : Metrics) : bool :=
  Js.gt_opt (rssMB (process m)) (memoryUsageMB (thresholds cfg)).

Definition cpuBreached (cfg : Config) (m : Metrics) : bool :=
  Js.gt_opt (percent (process m)) (cpuUsagePercent (thresholds cfg)).

Definition eventLoopBreached (cfg : Config) (m : Metrics) : bool :=
  Js.gt_opt (delay m) (eventLoopDelay (thresholds cfg)).

Definition thresholdAlerts (cfg : Config) (m : Metrics) : list Alert :=
  let t := thresholds cfg in
  (if memoryBreached cfg m
   then [ {| type := memory_usage; severity := warning;
             value := default 0%Q (rssMB (process m));
             threshold := memoryUsageMB t; alertTimestamp := timestamp m |} ]
   else [])
  ++
  (if cpuBreached cfg m
   then [ {| type := cpu_usage; severity := warning;
             value := default 0%Q (percent (process m));
             threshold := cpuUsagePercent t; alertTimestamp := timestamp m |} ]
   else [])
  ++
  (if eventLoopBreached cfg m
   then [ {| type := event_loop_delay; severity := warning;
             value := default 0%Q (delay m);
             threshold := eventLoopDelay t; alertTimestamp := timestamp m |} ]
   else []).

Definition with_alerts (s : Service) (a : list Alert) : Service := {|
  isMonitoring := isMonitoring s;
  metrics := metrics s;
  alerts := a;
  lastMetricsCollection := lastMetricsCollection s;
  eventLoopDelayField := eventLoopDelayField s;
  startTime := startTime s
|}.

Definition with_metrics (s : Service) (m : list (Z * Metrics)) (last : option Z) : Service := {|
  isMonitoring := isMonitoring s;
  metrics := m;
  alerts := alerts s;
  lastMetricsCollection := last;
  eventLoopDelayField := eventLoopDelayField s;
  startTime := startTime s
|}.

(** [checkThresholds]: the alerts of the snapshot are pushed onto
    [this.alerts] and returned. *)
Definition checkThresholds (cfg : Config) (m : Metrics) (s : Service)
  : Service * list Alert :=
  let new := thresholdAlerts cfg m in
  (with_alerts s (alerts s ++ new), new).

(** [this.metrics.set(k, v)]: an existing key keeps its place. *)
Fixpoint map_set {V} (k : Z) (v : V) (m : list (Z * V)) : list (Z * V) :=
  match m with
  | [] => [(k, v)]
  | (k', v') :: rest =>
      if k' =? k then (k, v) :: rest else (k', v') :: map_set k v rest
  end.

(** [cleanOldMetrics]: snapshots older than an hour are deleted, and the
    alert list is cut to its last 100 when it is longer. *)
Definition cleanOldMetrics (rightNow : Z) (s : Service) : Service :=
  let oneHourAgo := rightNow - 60 * 60 * 1000 in
  let kept := filter (fun e => negb (fst e <? oneHourAgo)) (metrics s) in
  let s1 := with_metrics s kept (lastMetricsCollection s) in
  if 100 <? Z.of_nat (length (alerts s1))
  then with_alerts s1 (Js.slice (-100) (alerts s1))
  else s1.

(** [collectMetrics]: snapshot, store, clean, then check the thresholds.
    The result is [null] when the final log line reads
    [metrics.process.memory] or [metrics.process.cpu] of a disabled
    metric; the state changes are made before that. *)
Definition collectMetrics (cfg : Config) (r : Reading) (s : Service)
  : Service * option Metrics :=
  let m := {| timestamp := now r;
              uptime := getUptime s r;
              process := getProcessMetrics cfg r;
              delay := getEventLoopMetrics cfg s;
              health := getHealthStatus cfg s r |} in
  let s1 := with_metrics s (map_set (now r) m (metrics s)) (Some (now r)) in
  let s2 := cleanOldMetrics (now r) s1 in
  let s3 := fst (checkThresholds cfg m s2) in
  (s3, if memory (metricFlags cfg) && cpu (metricFlags cfg) then Some m else None).

(** The event-loop probe ([measureEventLoop], every 100 ms) stores the
    measured drift. *)
Definition measureEventLoop (delta : Q) (s : Service) : Service := {|
  isMonitoring := isMonitoring s;
  metrics := metrics s;
  alerts := alerts s;
  lastMetricsCollection := lastMetricsCollection s;
  eventLoopDelayField := Some delta;
  startTime := startTime s
|}.

(** [getMetricsHistory(limit)] *)
Definition getMetricsHistory (limit : Z) (s : Service) : list Metrics :=
  let history := map snd (metrics s) in
  if Js.truthy limit then Js.slice (- limit) history else history.

(** [getRecentAlerts(limit)] *)
Definition getRecentAlerts (limit : Z) (s : Service) : list Alert :=
  Js.slice (- limit) (alerts s).

(** What can happen to a running service between two observations. *)
Inductive Event : Type :=
| Collect (r : Reading)
| Measure (delta : Q).

Definition step (cfg : Config) (s : Service) (e : Event) : Service :=
  match e with
  | Collect r => fst (collectMetrics cfg r s)
  | Measure d => measureEventLoop d s
  end.

Definition run (cfg : Config) (es : list Event) (s : Service) : Service :=
  foldl (step cfg) s es.

End SelfMonitoring.

(** ** RabbitMQService.js *)

Module RabbitMQ.

(** A message handed to [channel.publish]: exchange, routing key, the
    envelope's [id] and [type], the payload ([data] or [query]) as the
    caller gave it, and the publish options the code sets. *)
Record Publication : Type := {
  exchange : string;
  routingKey : string;
  messageId : string;
  messageType : string;
  payload : string;
  persistent : bool;
  priority : option Z;
  replyTo : option string;
  correlationId : option string
}.

(** The fields of the service object, followed by what the service has
    asked of its channel and of the timer queue: the messages published,
    the reply queues asserted, the delays of the reconnection timers still
    pending, and the log lines [Scheduling RabbitMQ reconnection attempt n
    in d ms] as pairs [(n, d)]. The channel accepts what is handed to it. *)
Record Service : Type := {
  isConnected : bool;
  reconnectAttempts : Z;
  maxReconnectAttempts : Z;
  reconnectDelay : Z;
  published : list Publication;
  replyQueues : list string;
  reconnectTimers : list Z;
  scheduleLog : list (Z * Z)
}.

Definition constructor : Service := {|
  isConnected := false;
  reconnectAttempts := 0;
  maxReconnectAttempts := 10;
  reconnectDelay := 5000;
  published := [];
  replyQueues := [];
  reconnectTimers := [];
  scheduleLog := []
|}.

Definition set_connection (c : bool) (n : Z) (g : Service) : Service := {|
  isConnected := c;
  reconnectAttempts := n;
  maxReconnectAttempts := maxReconnectAttempts g;
  reconnectDelay := reconnectDelay g;
  published := published g;
  replyQueues := replyQueues g;
  reconnectTimers := reconnectTimers g;
  scheduleLog := scheduleLog g
|}.

Definition channel_publish (p : Publication) (g : Service) : Service := {|
  isConnected := isConnected g;
  reconnectAttempts := reconnectAttempts g;
  maxReconnectAttempts := maxReconnectAttempts g;
  reconnectDelay := reconnectDelay g;
  published := published g ++ [p];
  replyQueues := replyQueues g;
  reconnectTimers := reconnectTimers g;
  scheduleLog := scheduleLog g
|}.

Definition channel_assertQueue (q : string) (g : Service) : Service := {|
  isConnected := isConnected g;
  reconnectAttempts := reconnectAttempts g;
  maxReconnectAttempts := maxReconnectAttempts g;
  reconnectDelay := reconnectDelay g;
  published := published g;
  replyQueues := replyQueues g ++ [q];
  reconnectTimers := reconnectTimers g;
  scheduleLog := scheduleLog g
|}.

Definition set_timers (ts : list Z) (g : Service) : Service := {|
  isConnected := isConnected g;
  reconnectAttempts := reconnectAttempts g;
  maxReconnectAttempts := maxReconnectAttempts g;
  reconnectDelay := reconnectDelay g;
  published := published g;
  replyQueues := replyQueues g;
  reconnectTimers := ts;
  scheduleLog := scheduleLog g
|}.

(** *** connect and the reconnection timers *)

(** What [amqp.connect] and [createChannel] answer. *)
Inductive ConnectOutcome : Type :=
| ConnectOk
| ConnectFails (message : string).

Definition connect (o : ConnectOutcome) (g : Service) : Service * Settled unit :=
  match o with
  | ConnectOk => (set_connection true 0 g, Fulfilled tt)
  | ConnectFails m => (g, Rejected m)
  end.

Definition scheduleReconnect (g : Service) : Service :=
  if maxReconnectAttempts g <=? reconnectAttempts g then g
  else
    let attempts := reconnectAttempts g + 1 in
    let delay := reconnectDelay g * attempts in
    {| isConnected := isConnected g;
       reconnectAttempts := attempts;
       maxReconnectAttempts := maxReconnectAttempts g;
       reconnectDelay := reconnectDelay g;
       published := published g;
       replyQueues := replyQueues g;
       reconnectTimers := reconnectTimers g ++ [delay];
       scheduleLog := scheduleLog g ++ [(attempts, delay)] |}.

Definition handleConnectionError (g : Service) : Service :=
  scheduleReconnect (set_connection false (reconnectAttempts g) g).

Definition handleConnectionClose (g : Service) : Service :=
  scheduleReconnect (set_connection false (reconnectAttempts g) g).

(** One run of the timer callback: [connect], then the two set-up calls,
    which succeed or throw together here; any failure schedules again. *)
Record Attempt : Type := {
  connectOutcome : ConnectOutcome;
  setupSucceeds : bool
}.

Definition reconnectCallback (a : Attempt) (g : Service) : Service :=
  match connect (connectOutcome a) g with
  | (g1, Fulfilled _) => if setupSucceeds a then g1 else scheduleReconnect g1
  | (g1, Rejected _) => scheduleReconnect g1
  end.

(** The pending timer at position [i] fires. *)
Definition timerFires (i : nat) (a : Attempt) (g : Service) : Service :=
  match reconnectTimers g !! i with
  | Some _ => reconnectCallback a (set_timers (delete i (reconnectTimers g)) g)
  | None => g
  end.

(** What happens inside the [try] of [close()]. The connection emits
    [close] once its closing handshake is done, which runs the handler that
    [connect] registered on it. *)
Inductive CloseOutcome : Type :=
| CloseRejects (message : string)
    (* [channel.close()] or [connection.close()] rejects, as on a channel
       or connection that is closed already *)
| ClosedUnheard
    (* nothing is held ([channel] and [connection] are [null]), or the
       connection closed has no [close] listener *)
| ClosedHeard.
    (* both calls resolve and the connection's [close] event runs
       [handleConnectionClose] *)

(** [close()]: a rejection is caught and logged before the flag is
    cleared, so the flag keeps its value; [close()] itself never rejects
    and cancels no timer. *)
Definition close (o : CloseOutcome) (g : Service) : Service :=
  match o with
  | CloseRejects _ => g
  | ClosedUnheard => set_connection false (reconnectAttempts g) g
  | ClosedHeard =>
      let g1 := handleConnectionClose g in
      set_connection false (reconnectAttempts g1) g1
  end.

(** *** publishing *)

Definition notConnected : string := "RabbitMQ not connected".

Definition healthExchange : string := "health.exchange".
Definition systemExchange : string := "system.exchange".

(** [id] is the value that [uuidv4()] returns in the call. *)
Definition publishHealthMetrics (id : string) (metrics : string) (g : Service)
  : Service * Settled unit :=
  if negb (isConnected g) then (g, Rejected notConnected)
  else
    (channel_publish
       {| exchange := healthExchange; routingKey := "metrics.health";
          messageId := id; messageType := "health-metrics";
          payload := metrics; persistent := true; priority := None;
          replyTo := None; correlationId := None |} g,
     Fulfilled tt).

(** [config.alerting.channels.rabbitmq.priority[severity] || 128] *)
Definition alertPriority (severity : string) : Z :=
  if String.eqb severity "critical" then 255
  else if String.eqb severity "warning" then 128
  else if String.eqb severity "info" then 64
  else 128.

Definition publishHealthAlert (id : string) (severity : string) (alert : string)
    (g : Service) : Service * Settled unit :=
  if negb (isConnected g) then (g, Rejected notConnected)
  else
    (channel_publish
       {| exchange := healthExchange; routingKey := "alerts." +:+ severity;
          messageId := id; messageType := "health-alert";
          payload := alert; persistent := true;
          priority := Some (alertPriority severity);
          replyTo := None; correlationId := None |} g,
     Fulfilled tt).

Definition publishSystemStatus (id : string) (status : string) (g : Service)
  : Service * Settled unit :=
  if negb (isConnected g) then (g, Rejected notConnected)
  else
    (channel_publish
       {| exchange := systemExchange; routingKey := "status.health-monitor";
          messageId := id; messageType := "system-status";
          payload := status; persistent := true; priority := None;
          replyTo := None; correlationId := None |} g,
     Fulfilled tt).

(** *** request and reply *)

(** A delivery on the reply queue: [properties.correlationId] and the
    content read through [JSON.parse] ([None] when it is not JSON). *)
Record Message : Type := {
  msgCorrelationId : option string;
  content : option string
}.

Inductive Promise : Type :=
| Pending
| Resolved (response : string)
| Failed (message : string).

(** The promise that [requestDatabaseHealthCheck] returns, with what its
    two callbacks share: the request id, whether the timeout is still
    armed, and the messages acknowledged so far. *)
Record Waiter : Type := {
  requestId : string;
  replyQueue : string;
  timeoutMs : Z;
  timeoutArmed : bool;
  promise : Promise;
  acked : list Message
}.

Definition newWaiter (id : string) (timeout : Z) : Waiter := {|
  requestId := id;
  replyQueue := "db_health_reply_" +:+ id;
  timeoutMs := timeout;
  timeoutArmed := true;
  promise := Pending;
  acked := []
|}.

Definition clearTimeout (w : Waiter) : Waiter := {|
  requestId := requestId w; replyQueue := replyQueue w;
  timeoutMs := timeoutMs w; timeoutArmed := false;
  promise := promise w; acked := acked w
|}.

Definition ack (m : Message) (w : Waiter) : Waiter := {|
  requestId := requestId w; replyQueue := replyQueue w;
  timeoutMs := timeoutMs w; timeoutArmed := timeoutArmed w;
  promise := promise w; acked := acked w ++ [m]
|}.

(** Settling a promise that is already settled does nothing. *)
Definition settle (p : Promise) (w : Waiter) : Waiter :=
  match promise w with
  | Pending =>
      {| requestId := requestId w; replyQueue := replyQueue w;
         timeoutMs := timeoutMs w; timeoutArmed := timeoutArmed w;
         promise := p; acked := acked w |}
  | _ => w
  end.

(** The consumer callback of the reply queue. A [null] delivery and a
    delivery with another correlation id fall through the [if]. When the
    content is not JSON, [JSON.parse] throws after the timeout has been
    cleared. *)
Definition onReply (msg : option Message) (w : Waiter) : Waiter :=
  match msg with
  | Some m =>
      if decide (msgCorrelationId m = Some (requestId w)) then
        let w1 := clearTimeout w in
        match content m with
        | Some response => settle (Resolved response) (ack m w1)
        | None => w1
        end
      else w
  | None => w
  end.

(** The timeout callback. *)
Definition onTimeout (w : Waiter) : Waiter :=
  if timeoutArmed w
  then settle (Failed "Database health check timeout") (clearTimeout w)
  else w.

Inductive ReplyEvent : Type :=
| Delivery (msg : option Message)
| TimeoutFires.

Definition waiterStep (w : Waiter) (e : ReplyEvent) : Waiter :=
  match e with
  | Delivery msg => onReply msg w
  | TimeoutFires => onTimeout w
  end.

Definition waiterRun (es : list ReplyEvent) (w : Waiter) : Waiter :=
  foldl waiterStep w es.

(** [requestDatabaseHealthCheck(query)]: [id] is the fresh [uuidv4()] of
    the call and [timeout] is [config.database.healthCheck.timeout]. *)
Definition requestDatabaseHealthCheck (id : string) (timeout : Z) (query : string)
    (g : Service) : Service * Settled Waiter :=
  if negb (isConnected g) then (g, Rejected notConnected)
  else
    let w := newWaiter id timeout in
    let g1 := channel_assertQueue (replyQueue w) g in
    let g2 :=
      channel_publish
        {| exchange := systemExchange; routingKey := "database.health.request";
           messageId := id; messageType := "database-health-check";
           payload := query; persistent := false; priority := None;
           replyTo := Some (replyQueue w); correlationId := Some id |} g1 in
    (g2, Fulfilled w).

(** *** the life of a gateway *)

Inductive Event : Type :=
| Connect (o : ConnectOutcome)
| ConnectionError
| ConnectionClose
| TimerFires (i : nat) (a : Attempt)
| PublishMetrics (id metrics : string)
| PublishAlert (id severity alert : string)
| PublishStatus (id status : string)
| Request (id : string) (timeout : Z) (query : string)
| Close (o : CloseOutcome).

Definition step (g : Service) (e : Event) : Service :=
  match e with
  | Connect o => fst (connect o g)
  | ConnectionError => handleConnectionError g
  | ConnectionClose => handleConnectionClose g
  | TimerFires i a => timerFires i a g
  | PublishMetrics id m => fst (publishHealthMetrics id m g)
  | PublishAlert id s a => fst (publishHealthAlert id s a g)
  | PublishStatus id s => fst (publishSystemStatus id s g)
  | Request id t q => fst (requestDatabaseHealthCheck id t q g)
  | Close o => close o g
  end.

Definition run (es : list Event) (g : Service) : Service := foldl step g es.

End RabbitMQ.

(** ** HealthMonitorPlugin.js *)

Module HealthMonitor.

Inductive Status : Type := healthy | unhealthy | error.

Global Instance Status_eq_dec : EqDecision Status.
Proof. solve_decision. Defined.

(** A health target of [config.healthTargets]. *)
Record Target : Type := {
  name : string;
  type : string;
  url : string;
  host : string;
  port : Z;
  expectedStatus : option Z;
  timeout : option Z;
  critical : bool;
  interval : option Z
}.

(** A check result. [errorMessage] is the field [error]; [responseTime]
    and [timestamp] are set by [checkSingleTarget]. *)
Record CheckResult : Type := {
  target : Target;
  status : Status;
  errorMessage : option string;
  httpStatus : option Z;
  responseTime : option Z;
  timestamp : option Z
}.

(** *** the probes *)

(** What the network answers to an HTTP request: a response with its
    status code, or no response at all (refused, timed out). *)
Inductive HttpOutcome : Type :=
| HttpResponse (code : Z)
| HttpNoResponse (message : string).

(** What happens to the socket of a TCP probe. [socket.connect] throws
    inside the promise's executor on a port it refuses. *)
Inductive TcpOutcome : Type :=
| TcpConnected
| TcpError (message : string)
| TcpTimeout
| TcpConnectThrows (message : string).

(** One probe of a target as the outside world answers it: both
    transports, the time it takes and the instant it ends. *)
Record Probe : Type := {
  httpOutcome : HttpOutcome;
  tcpOutcome : TcpOutcome;
  elapsed : Z;
  finishedAt : Z
}.

(** The option [validateStatus] that [checkHttpTarget] hands to axios. *)
Definition validateStatus (t : Target) (code : Z) : bool :=
  if Js.truthy_opt (expectedStatus t)
  then bool_decide (Some code = expectedStatus t)
  else code <? 400.

(** The error axios rejects with. *)
Record AxiosError : Type := {
  axiosMessage : string;
  responseStatus : option Z
}.

(** [httpClient.request]: axios resolves with the response when
    [validateStatus] accepts its status and rejects otherwise. *)
Definition httpClient_request (t : Target) (o : HttpOutcome) : Z + AxiosError :=
  match o with
  | HttpResponse code =>
      if validateStatus t code then inl code
      else inr {| axiosMessage := "Request failed with status code " +:+ pretty code;
                  responseStatus := Some code |}
  | HttpNoResponse m => inr {| axiosMessage := m; responseStatus := None |}
  end.

Definition checkHttpTarget (t : Target) (o : HttpOutcome) : CheckResult :=
  match httpClient_request t o with
  | inl code =>
      {| target := t; status := healthy; errorMessage := None;
         httpStatus := Some code; responseTime := None; timestamp := None |}
  | inr e =>
      {| target := t; status := unhealthy; errorMessage := Some (axiosMessage e);
         httpStatus := responseStatus e; responseTime := None; timestamp := None |}
  end.

Definition checkTcpTarget (t : Target) (o : TcpOutcome) : Settled CheckResult :=
  match o with
  | TcpConnected =>
      Fulfilled {| target := t; status := healthy; errorMessage := None;
                   httpStatus := None; responseTime := None; timestamp := None |}
  | TcpError m =>
      Fulfilled {| target := t; status := unhealthy; errorMessage := Some m;
                   httpStatus := None; responseTime := None; timestamp := None |}
  | TcpTimeout =>
      Fulfilled {| target := t; status := unhealthy;
                   errorMessage := Some "Connection timeout"%string;
                   httpStatus := None; responseTime := None; timestamp := None |}
  | TcpConnectThrows m => Rejected m
  end.

(** *** the plugin object *)

Record Stats : Type := {
  totalChecks : Z;
  successfulChecks : Z;
  failedChecks : Z;
  averageResponseTime : float;
  lastCheckDuration : Z
}.

(** The argument of [generateAlert]. *)
Record AlertData : Type := {
  alertType : string;
  severity : string;
  alertTarget : string;
  message : string;
  alertError : option string;
  alertTimestamp : option Z
}.

(** [{ id, ...alertData, source }] *)
Record Alert : Type := {
  id : string;
  data : AlertData;
  source : string
}.

Record Plugin : Type := {
  isRunning : bool;
  isPaused : bool;
  healthResults : gmap string CheckResult;
  alerts : list Alert;
  lastFullHealthCheck : option Z;
  stats : Stats;
  rabbitMQ : RabbitMQ.Service
}.

Definition constructor : Plugin := {|
  isRunning := false;
  isPaused := false;
  healthResults := ∅;
  alerts := [];
  lastFullHealthCheck := None;
  stats := {| totalChecks := 0; successfulChecks := 0; failedChecks := 0;
              averageResponseTime := 0%float; lastCheckDuration := 0 |};
  rabbitMQ := RabbitMQ.constructor
|}.

(** The outside world of one sweep: how each target answers its probe,
    the identifiers that [Date.now()] with [Math.random()] and [uuidv4()]
    produce at their n-th use, the clock at the end of the sweep and the
    time the sweep took. *)
Record World : Type := {
  probe : Target -> Probe;
  alertId : nat -> string;
  uuid : nat -> string;
  clock : Z;
  duration : Z
}.

Definition set_healthResults (m : gmap string CheckResult) (p : Plugin) : Plugin := {|
  isRunning := isRunning p; isPaused := isPaused p;
  healthResults := m; alerts := alerts p;
  lastFullHealthCheck := lastFullHealthCheck p;
  stats := stats p; rabbitMQ := rabbitMQ p
|}.

Definition set_alerts (a : list Alert) (p : Plugin) : Plugin := {|
  isRunning := isRunning p; isPaused := isPaused p;
  healthResults := healthResults p; alerts := a;
  lastFullHealthCheck := lastFullHealthCheck p;
  stats := stats p; rabbitMQ := rabbitMQ p
|}.

Definition set_rabbitMQ (g : RabbitMQ.Service) (p : Plugin) : Plugin := {|
  isRunning := isRunning p; isPaused := isPaused p;
  healthResults := healthResults p; alerts := alerts p;
  lastFullHealthCheck := lastFullHealthCheck p;
  stats := stats p; rabbitMQ := g
|}.

Definition set_stats (s : Stats) (last : option Z) (p : Plugin) : Plugin := {|
  isRunning := isRunning p; isPaused := isPaused p;
  healthResults := healthResults p; alerts := alerts p;
  lastFullHealthCheck := last;
  stats := s; rabbitMQ := rabbitMQ p
|}.

(** The [switch] of [checkSingleTarget]. *)
Definition dispatch (t : Target) (pr : Probe) : Settled CheckResult :=
  if String.eqb (type t) "http" || String.eqb (type t) "https"
  then Fulfilled (checkHttpTarget t (httpOutcome pr))
  else if String.eqb (type t) "tcp"
  then checkTcpTarget t (tcpOutcome pr)
  else Fulfilled (checkHttpTarget t (httpOutcome pr)).

(** The result that [checkSingleTarget] builds: the probe's result with
    its response time and timestamp, or, in the [catch], an [error] result
    with the message of what was thrown. *)
Definition singleResult (t : Target) (pr : Probe) : CheckResult :=
  match dispatch t pr with
  | Fulfilled r =>
      {| target := target r; status := status r;
         errorMessage := errorMessage r; httpStatus := httpStatus r;
         responseTime := Some (elapsed pr);
         timestamp := Some (finishedAt pr) |}
  | Rejected m =>
      {| target := t; status := error; errorMessage := Some m;
         httpStatus := None; responseTime := Some (elapsed pr);
         timestamp := Some (finishedAt pr) |}
  end.

(** [checkSingleTarget]: both branches store the result under the
    target's name and return it; the promise is never rejected. *)
Definition checkSingleTarget (w : World) (t : Target) (p : Plugin)
  : Plugin * Settled CheckResult :=
  let result := singleResult t (probe w t) in
  (set_healthResults (<[name t := result]> (healthResults p)) p, Fulfilled result).

(** *** alerts *)

(** [generateAlert]: the alert is pushed, then published; when the
    publication throws, the [catch] logs and the call returns
    [undefined]. The published payload is the alert's message. *)
Definition generateAlert (w : World) (d : AlertData) (p : Plugin)
  : Plugin * option Alert :=
  let alert := {| id := alertId w (length (alerts p)); data := d;
                  source := "health-monitor-plugin" |} in
  let p1 := set_alerts (alerts p ++ [alert]) p in
  match RabbitMQ.publishHealthAlert
          (uuid w (length (RabbitMQ.published (rabbitMQ p1))))
          (severity d) (message d) (rabbitMQ p1) with
  | (g, Fulfilled _) => (set_rabbitMQ g p1, Some alert)
  | (g, Rejected _) => (set_rabbitMQ g p1, None)
  end.

Definition isCriticalIssue (r : CheckResult) : bool :=
  bool_decide (status r <> healthy) && critical (target r).

Definition isNonCriticalIssue (r : CheckResult) : bool :=
  bool_decide (status r <> healthy) && negb (critical (target r)).

Definition serviceDown (issue : CheckResult) : AlertData := {|
  alertType := "service-down";
  severity := "critical";
  alertTarget := name (target issue);
  message := "Critical service " +:+ name (target issue) +:+ " is unhealthy";
  alertError := errorMessage issue;
  alertTimestamp := timestamp issue
|}.

Definition serviceDegraded (issue : CheckResult) : AlertData := {|
  alertType := "service-degraded";
  severity := "warning";
  alertTarget := name (target issue);
  message := "Service " +:+ name (target issue) +:+ " is experiencing issues";
  alertError := errorMessage issue;
  alertTimestamp := timestamp issue
|}.

(** [processHealthResults]: the two [for] loops. The report to the core
    system that follows them changes nothing of the plugin. *)
Definition processHealthResults (w : World) (results : list CheckResult)
    (p : Plugin) : Plugin :=
  let criticalIssues := filter (fun r => isCriticalIssue r = true) results in
  let nonCriticalIssues := filter (fun r => isNonCriticalIssue r = true) results in
  let p1 := foldl (fun q issue => fst (generateAlert w (serviceDown issue) q))
              p criticalIssues in
  foldl (fun q issue => fst (generateAlert w (serviceDegraded issue) q))
    p1 nonCriticalIssues.

(** [reportHealthMetrics]: one publication, its failure is caught. *)
Definition reportHealthMetrics (w : World) (results : list CheckResult)
    (p : Plugin) : Plugin :=
  set_rabbitMQ
    (fst (RabbitMQ.publishHealthMetrics
            (uuid w (length (RabbitMQ.published (rabbitMQ p))))
            "health-check-results" (rabbitMQ p)))
    p.

(** *** the full sweep *)

(** The [results.map] after [Promise.allSettled]: a fulfilled entry gives
    its value, a rejected one an [error] result for the target at the
    same index. *)
Definition settledToResult (w : World) (entry : Target * Settled CheckResult)
  : CheckResult :=
  match snd entry with
  | Fulfilled v => v
  | Rejected m =>
      {| target := fst entry; status := error; errorMessage := Some m;
         httpStatus := None; responseTime := None;
         timestamp := Some (clock w) |}
  end.

(** The response times that pass [filter(r => r.responseTime)]: a
    response time of 0 is dropped like a missing one. *)
Definition responseTimes (results : list CheckResult) : list Z :=
  omap (fun r => if Js.truthy_opt (responseTime r) then responseTime r else None)
    results.

Definition updateStats (w : World) (results : list CheckResult) (s : Stats) : Stats :=
  let successful :=
    Z.of_nat (length (filter (fun r => status r = healthy) results)) in
  let failed := Z.of_nat (length results) - successful in
  let times := responseTimes results in
  {| totalChecks := totalChecks s + 1;
     successfulChecks := successfulChecks s + successful;
     failedChecks := failedChecks s + failed;
     averageResponseTime :=
       if 0 <? Z.of_nat (length times)
       then (Js.sum times / Js.number (Z.of_nat (length times)))%float
       else averageResponseTime s;
     lastCheckDuration := duration w |}.

(** [runFullHealthCheck]. The probes of all targets are started
    together; each call of [checkSingleTarget] stores its result when its
    own probe ends, so the stores happen in the order [completion] in
    which the probes end, while the returned array follows
    [healthTargets]. *)
Definition runFullHealthCheck (w : World) (healthTargets completion : list Target)
    (p : Plugin) : Plugin * list CheckResult :=
  let p1 := foldl (fun q t => fst (checkSingleTarget w t q)) p completion in
  let settled := map (fun t => (t, snd (checkSingleTarget w t p))) healthTargets in
  let results := map (settledToResult w) settled in
  let p2 := set_stats (updateStats w results (stats p1)) (Some (clock w)) p1 in
  let p3 := processHealthResults w results p2 in
  let p4 := reportHealthMetrics w results p3 in
  (p4, results).

(** *** schedules *)

(** [intervalToCron] *)
Definition intervalToCron (intervalMs : Z) : string :=
  let seconds := intervalMs / 1000 in
  if seconds <=? 0 then "* * * * * *"
  else if seconds <? 60 then "*/" +:+ pretty seconds +:+ " * * * * *"
  else
    let minutes := seconds / 60 in
    if minutes <? 60 then "0 */" +:+ pretty minutes +:+ " * * * *"
    else
      let hours := minutes / 60 in
      "0 0 */" +:+ pretty hours +:+ " * * *".

End HealthMonitor.

(** ** The scheduler's reading of an expression

    [cron.schedule] of node-cron takes the six fields second, minute,
    hour, day of month, month and day of week. A field [*] matches every
    value and a field [*/n] matches the values of its range (from 0) that
    [n] divides. Only the shapes that [intervalToCron] writes are read. *)

Module Cron.

Inductive Field : Type :=
| Any
| Step (n : Z)
| Exactly (v : Z).

Definition digit (c : ascii) : option Z :=
  let n := Z.of_nat (nat_of_ascii c) in
  if (48 <=? n) && (n <=? 57) then Some (n - 48) else None.

Fixpoint parseDigits (acc : Z) (s : string) : option Z :=
  match s with
  | EmptyString => Some acc
  | String c rest =>
      match digit c with
      | Some d => parseDigits (10 * acc + d) rest
      | None => None
      end
  end.

Definition parseNumber (s : string) : option Z :=
  match s with
  | EmptyString => None
  | _ => parseDigits 0 s
  end.

Definition parseField (s : string) : option Field :=
  match s with
  | String "*" EmptyString => Some Any
  | String "*" (String "/" rest) => Step <$> parseNumber rest
  | _ => Exactly <$> parseNumber s
  end.

Definition parse (expression : string) : option (list Field) :=
  mapM parseField (String.words expression).

Definition matches (f : Field) (v : Z) : bool :=
  match f with
  | Any => true
  | Step n => (0 <? n) && (v mod n =? 0)
  | Exactly k => v =? k
  end.

(** Whether the job fires at second [t] of a day. *)
Definition fires (expression : string) (t : Z) : bool :=
  match parse expression with
  | Some [sec; min; hour; Any; Any; Any] =>
      matches sec (t mod 60) && matches min ((t / 60) mod 60)
      && matches hour ((t / 3600) mod 24)
  | _ => false
  end.

(** The seconds of [from, from + len) at which the job fires. *)
Definition firings (expression : string) (from : Z) (len : nat) : list Z :=
  filter (fun t => fires expression t = true) (seqZ from (Z.of_nat len)).

(** The gaps between consecutive elements. *)
Fixpoint gaps (l : list Z) : list Z :=
  match l with
  | a :: (b :: _) as rest => (b - a) :: gaps rest
  | _ => []
  end.

End Cron.

(** * Properties *)

(** ** JavaScript primitives *)

Lemma gt_spec (a b : Q) : Js.gt a b = true <-> (b < a)%Q.
Proof.
  unfold Js.gt. rewrite negb_true_iff.
  destruct (Qle_bool a b) eqn:E.
  - apply Qle_bool_iff in E. split; [discriminate|].
    intros H. exfalso. exact (Qlt_not_le _ _ H E).
  - split; [|reflexivity]. intros _.
    apply Qnot_le_lt. intros H. apply Qle_bool_iff in H. congruence.
Qed.

Lemma gt_opt_spec (x : option Q) (b : Q) :
  Js.gt_opt x b = true <-> exists a, x = Some a /\ (b < a)%Q.
Proof.
  destruct x as [a|]; simpl.
  - rewrite gt_spec. split; [eauto|]. by intros (a' & [= ->] & H).
  - split; [discriminate|]. by intros (a' & [=] & _).
Qed.

Lemma slice_zero {A} (arr : list A) : Js.slice 0 arr = arr.
Proof. unfold Js.slice. simpl. by rewrite Z.min_l by lia. Qed.

(** [arr.slice(-n)] for a positive [n] keeps the last [n] elements, all
    of them when there are fewer. *)
Lemma slice_last {A} (n : Z) (arr : list A) :
  0 < n -> Js.slice (- n) arr = drop (length arr - Z.to_nat n) arr.
Proof.
  intros Hn. unfold Js.slice.
  destruct (Z.ltb_spec (- n) 0) as [_|?]; [|lia].
  f_equal. lia.
Qed.

Lemma slice_last_length {A} (n : Z) (arr : list A) :
  0 < n -> length (Js.slice (- n) arr) = Nat.min (Z.to_nat n) (length arr).
Proof. intros Hn. rewrite slice_last by done. rewrite length_drop. lia. Qed.

(** ** The self-monitoring engine *)

Section SelfMonitoringFacts.
Import SelfMonitoring.

(** The most recent [n] elements of a history, as the specification
    words it: the last [n], or all of them when there are fewer. *)
Definition mostRecent {A} (n : nat) (history : list A) : list A :=
  drop (length history - n) history.

(** C10: [getMetricsHistory(limit)] returns the most recent [limit]
    snapshots for a positive [limit], and the entire retained history, not
    an empty list, for [limit = 0]. *)
Theorem getMetricsHistory_limit (limit : Z) (s : Service) :
  (0 < limit ->
   getMetricsHistory limit s = mostRecent (Z.to_nat limit) (map snd (metrics s)))
  /\ getMetricsHistory 0 s = map snd (metrics s).
Proof.
  split.
  - intros Hpos. unfold getMetricsHistory, Js.truthy.
    destruct (Z.eqb_spec limit 0) as [->|_]; [lia|]. simpl.
    by apply slice_last.
  - reflexivity.
Qed.

Definition snapshotAt (t : Z) : Metrics := {|
  timestamp := t;
  uptime := {| ms := t; seconds := t / 1000; minutes := 0; hours := 0; days := 0 |};
  process := {| rssMB := None; percent := None |};
  delay := None;
  health := {| status := healthy; issues := []; warnings := [];
               lastCheck := t;
               healthUptime := {| ms := t; seconds := t / 1000; minutes := 0;
                                  hours := 0; days := 0 |} |}
|}.

Definition threeSnapshots : Service :=
  with_metrics (constructor 0)
    [(1000, snapshotAt 1000); (2000, snapshotAt 2000); (3000, snapshotAt 3000)]
    (Some 3000).

Lemma getMetricsHistory_limit_witness :
  map timestamp (getMetricsHistory 2 threeSnapshots) = [2000; 3000]
  /\ map timestamp (getMetricsHistory 0 threeSnapshots) = [1000; 2000; 3000].
Proof.
  destruct (getMetricsHistory_limit 2 threeSnapshots) as [Hpos _].
  rewrite Hpos by lia. split; reflexivity.
Defined.

Lemma getHealthStatus_status (cfg : Config) (s : Service) (r : Reading) :
  status (getHealthStatus cfg s r)
  = if Js.gt (bytesToMB (rssAtHealthCheck r)) (memoryUsageMB (thresholds cfg))
       || Js.gt_opt (eventLoopDelayField s) (eventLoopDelay (thresholds cfg))
    then unhealthy else healthy.
Proof.
  unfold getHealthStatus. simpl.
  destruct (Js.gt _ _), (Js.gt_opt _ _); reflexivity.
Qed.

(** C8 (amended): the status that [getHealthStatus] reports is
    [unhealthy] exactly when the resident memory in MB exceeds its
    threshold or the last measured event-loop delay exceeds its threshold,
    and [healthy] otherwise; the CPU threshold plays no part in it. *)
Theorem getHealthStatus_unhealthy_iff (cfg : Config) (s : Service) (r : Reading) :
  let memoryHigh :=
    (memoryUsageMB (thresholds cfg) < bytesToMB (rssAtHealthCheck r))%Q in
  let delayHigh :=
    exists d, eventLoopDelayField s = Some d
              /\ (eventLoopDelay (thresholds cfg) < d)%Q in
  (status (getHealthStatus cfg s r) = unhealthy <-> memoryHigh \/ delayHigh)
  /\ (status (getHealthStatus cfg s r) = healthy <-> ~ (memoryHigh \/ delayHigh)).
Proof.
  intros memoryHigh delayHigh. subst memoryHigh delayHigh.
  rewrite getHealthStatus_status, <- gt_spec, <- gt_opt_spec.
  destruct (Js.gt _ _), (Js.gt_opt _ _); simpl; intuition congruence.
Qed.

(** A process at 100 MB and 95 % CPU, two hours after its start. *)
Definition busyReading : Reading := {|
  now := 7200000;
  rss := 100 * 1024 * 1024;
  cpuPercent := 95;
  rssAtHealthCheck := 100 * 1024 * 1024
|}.

(** C8 (as stated) fails: with the thresholds of the configuration, a
    cycle at 95 % CPU breaches the CPU threshold of 80 % and raises the
    [cpu_usage] alert, while the health status of the same snapshot is
    [healthy]. *)
Lemma getHealthStatus_ignores_cpu :
  let s := constructor 0 in
  let m := {| timestamp := now busyReading;
              uptime := getUptime s busyReading;
              process := getProcessMetrics defaultConfig busyReading;
              delay := getEventLoopMetrics defaultConfig s;
              health := getHealthStatus defaultConfig s busyReading |} in
  snd (collectMetrics defaultConfig busyReading s) = Some m
  /\ cpuBreached defaultConfig m = true
  /\ map type (snd (checkThresholds defaultConfig m s)) = [cpu_usage]
  /\ status (health m) = healthy.
Proof. vm_compute. repeat split. Qed.

(** *** the bound on the alert list *)

Lemma thresholdAlerts_length (cfg : Config) (m : Metrics) :
  (length (thresholdAlerts cfg m) <= 3)%nat.
Proof.
  unfold thresholdAlerts.
  destruct (memoryBreached cfg m), (cpuBreached cfg m), (eventLoopBreached cfg m);
    simpl; lia.
Qed.

Lemma cleanOldMetrics_alerts_length (rightNow : Z) (s : Service) :
  (length (alerts (cleanOldMetrics rightNow s)) <= 100)%nat.
Proof.
  unfold cleanOldMetrics. simpl.
  destruct (Z.ltb_spec 100 (Z.of_nat (length (alerts s)))) as [Hlong|Hshort]; simpl.
  - change (-100) with (Z.opp 100). rewrite slice_last_length by lia. lia.
  - lia.
Qed.

(** The cut keeps the most recent alerts: what is dropped is the oldest
    part of the list. *)
Lemma cleanOldMetrics_alerts (rightNow : Z) (s : Service) :
  alerts (cleanOldMetrics rightNow s)
  = drop (length (alerts s) - 100) (alerts s).
Proof.
  unfold cleanOldMetrics. simpl.
  destruct (Z.ltb_spec 100 (Z.of_nat (length (alerts s)))) as [Hlong|Hshort]; simpl.
  - change (-100) with (Z.opp 100). by rewrite slice_last by lia.
  - replace (length (alerts s) - 100)%nat with 0%nat by lia. done.
Qed.

(** A cycle cuts first and appends afterwards. *)
Lemma collectMetrics_alerts (cfg : Config) (r : Reading) (s : Service) :
  exists m,
    timestamp m = now r
    /\ alerts (fst (collectMetrics cfg r s))
       = drop (length (alerts s) - 100) (alerts s) ++ thresholdAlerts cfg m.
Proof.
  unfold collectMetrics, checkThresholds. cbn [fst alerts with_alerts].
  eexists. split; [|by rewrite cleanOldMetrics_alerts]. done.
Qed.

Lemma collectMetrics_alerts_length (cfg : Config) (r : Reading) (s : Service) :
  (length (alerts (fst (collectMetrics cfg r s))) <= 103)%nat.
Proof.
  unfold collectMetrics, checkThresholds. simpl. rewrite length_app.
  match goal with
  | |- (length (alerts (cleanOldMetrics ?n ?s1)) + length (thresholdAlerts ?c ?m)
        <= _)%nat =>
      pose proof (cleanOldMetrics_alerts_length n s1);
      pose proof (thresholdAlerts_length c m)
  end.
  lia.
Qed.

Lemma run_alerts_length (cfg : Config) (es : list Event) (s : Service) :
  (length (alerts s) <= 103)%nat ->
  (length (alerts (run cfg es s)) <= 103)%nat.
Proof.
  revert s. induction es as [|e es IH]; intros s Hs; [done|].
  apply IH. destruct e as [r|d]; simpl.
  - apply collectMetrics_alerts_length.
  - done.
Qed.

End SelfMonitoringFacts.

(** ** The messaging gateway *)

Section RabbitMQFacts.
Import RabbitMQ.

(** *** failing fast while disconnected *)

(** C5: every publish and every request made while [isConnected] is
    false fails at once with the error [RabbitMQ not connected], and the
    gateway is left as it was: nothing is published, no queue is asserted,
    no timer is set. *)
Theorem disconnected_calls_fail_fast (g : Service) (id text severity : string)
    (timeout : Z) :
  isConnected g = false ->
  publishHealthMetrics id text g = (g, Rejected "RabbitMQ not connected")
  /\ publishHealthAlert id severity text g = (g, Rejected "RabbitMQ not connected")
  /\ publishSystemStatus id text g = (g, Rejected "RabbitMQ not connected")
  /\ requestDatabaseHealthCheck id timeout text g
     = (g, Rejected "RabbitMQ not connected").
Proof.
  intros Hoff.
  unfold publishHealthMetrics, publishHealthAlert, publishSystemStatus,
    requestDatabaseHealthCheck.
  rewrite Hoff. simpl. done.
Qed.

Lemma disconnected_calls_fail_fast_witness :
  isConnected constructor = false
  /\ publishHealthMetrics "m1" "{}" constructor
     = (constructor, Rejected "RabbitMQ not connected")
  /\ requestDatabaseHealthCheck "r1" 5000 "SELECT 1" constructor
     = (constructor, Rejected "RabbitMQ not connected").
Proof.
  split; [reflexivity|].
  pose proof (disconnected_calls_fail_fast constructor "m1" "{}" "warning" 5000
                eq_refl) as (Hm & _ & _ & _).
  pose proof (disconnected_calls_fail_fast constructor "r1" "SELECT 1" "warning"
                5000 eq_refl) as (_ & _ & _ & Hr).
  split; [exact Hm | exact Hr].
Defined.

(** *** reconnection *)

(** What every gateway that grew out of [constructor] satisfies. *)
Record reconnectInvariant (g : Service) : Prop := {
  inv_max : maxReconnectAttempts g = 10;
  inv_delay : reconnectDelay g = 5000;
  inv_attempts : 0 <= reconnectAttempts g <= 10;
  inv_log :
    Forall (fun entry => 1 <= fst entry <= 10 /\ snd entry = 5000 * fst entry)
      (scheduleLog g)
}.

Lemma constructor_invariant : reconnectInvariant constructor.
Proof. split; simpl; try done. Qed.

Lemma set_connection_invariant (c : bool) (n : Z) (g : Service) :
  0 <= n <= 10 -> reconnectInvariant g ->
  reconnectInvariant (set_connection c n g).
Proof. intros Hn [H1 H2 H3 H4]. split; simpl; done. Qed.

Lemma scheduleReconnect_invariant (g : Service) :
  reconnectInvariant g -> reconnectInvariant (scheduleReconnect g).
Proof.
  intros [H1 H2 H3 H4]. unfold scheduleReconnect.
  destruct (Z.leb_spec (maxReconnectAttempts g) (reconnectAttempts g)) as [Hfull|Hroom].
  - split; done.
  - split; simpl; try done; try lia.
    apply Forall_app. split; [done|].
    apply Forall_singleton. simpl. split; [lia|]. by rewrite H2.
Qed.

Lemma connect_invariant (o : ConnectOutcome) (g : Service) :
  reconnectInvariant g -> reconnectInvariant (fst (connect o g)).
Proof.
  intros Hg. destruct o; simpl; [|done].
  apply set_connection_invariant; [lia|done].
Qed.

Lemma set_timers_invariant (ts : list Z) (g : Service) :
  reconnectInvariant g -> reconnectInvariant (set_timers ts g).
Proof. intros [H1 H2 H3 H4]. split; done. Qed.

Lemma channel_publish_invariant (p : Publication) (g : Service) :
  reconnectInvariant g -> reconnectInvariant (channel_publish p g).
Proof. intros [H1 H2 H3 H4]. split; done. Qed.

Lemma channel_assertQueue_invariant (q : string) (g : Service) :
  reconnectInvariant g -> reconnectInvariant (channel_assertQueue q g).
Proof. intros [H1 H2 H3 H4]. split; done. Qed.

Lemma reconnectCallback_invariant (a : Attempt) (g : Service) :
  reconnectInvariant g -> reconnectInvariant (reconnectCallback a g).
Proof.
  intros Hg. unfold reconnectCallback.
  pose proof (connect_invariant (connectOutcome a) g Hg) as Hc.
  destruct (connect (connectOutcome a) g) as [g1 [[]|m]]; simpl in Hc.
  - destruct (setupSucceeds a); [done|]. by apply scheduleReconnect_invariant.
  - by apply scheduleReconnect_invariant.
Qed.

Lemma step_invariant (g : Service) (e : Event) :
  reconnectInvariant g -> reconnectInvariant (step g e).
Proof.
  intros Hg. pose proof Hg as [H1 H2 H3 H4]. destruct e; simpl.
  - by apply connect_invariant.
  - apply scheduleReconnect_invariant. by apply set_connection_invariant.
  - apply scheduleReconnect_invariant. by apply set_connection_invariant.
  - unfold timerFires. destruct (reconnectTimers g !! i); [|done].
    apply reconnectCallback_invariant. by apply set_timers_invariant.
  - unfold publishHealthMetrics. destruct (isConnected g); simpl; [|done].
    by apply channel_publish_invariant.
  - unfold publishHealthAlert. destruct (isConnected g); simpl; [|done].
    by apply channel_publish_invariant.
  - unfold publishSystemStatus. destruct (isConnected g); simpl; [|done].
    by apply channel_publish_invariant.
  - unfold requestDatabaseHealthCheck. destruct (isConnected g); simpl; [|done].
    by apply channel_publish_invariant, channel_assertQueue_invariant.
  - destruct o as [m| |]; cbn [close]; [done| |].
    + by apply set_connection_invariant.
    + assert (reconnectInvariant (handleConnectionClose g)) as Hclose.
      { apply scheduleReconnect_invariant. by apply set_connection_invariant. }
      apply set_connection_invariant; [|done]. by destruct Hclose.
Qed.

Lemma run_invariant (es : list Event) (g : Service) :
  reconnectInvariant g -> reconnectInvariant (run es g).
Proof.
  revert g. induction es as [|e es IH]; intros g Hg; [done|].
  simpl. apply IH. by apply step_invariant.
Qed.

(** C4: in every state the gateway reaches from its constructor, under
    any sequence of connects, connection errors and closes, timer firings,
    publications, requests and closes: the attempt counter stays between 0
    and the maximum of 10; every attempt that was scheduled has the delay
    5000 ms times its attempt number; once the counter is at the maximum,
    [scheduleReconnect], and with it the error and close handlers and a
    failing timer callback, sets no timer and counts no attempt; and a
    successful [connect] puts the counter back to zero. *)
Theorem reconnect_attempts_bounded (es : list Event) :
  let g := run es constructor in
  maxReconnectAttempts g = 10
  /\ 0 <= reconnectAttempts g <= maxReconnectAttempts g
  /\ Forall (fun entry =>
               1 <= fst entry <= maxReconnectAttempts g
               /\ snd entry = reconnectDelay g * fst entry)
       (scheduleLog g)
  /\ (reconnectAttempts g = maxReconnectAttempts g ->
      scheduleReconnect g = g
      /\ reconnectTimers (handleConnectionError g) = reconnectTimers g
      /\ reconnectTimers (handleConnectionClose g) = reconnectTimers g
      /\ scheduleLog (handleConnectionError g) = scheduleLog g
      /\ scheduleLog (handleConnectionClose g) = scheduleLog g
      /\ forall m, reconnectTimers
                     (reconnectCallback
                        {| connectOutcome := ConnectFails m; setupSucceeds := false |} g)
                   = reconnectTimers g)
  /\ (reconnectAttempts g < maxReconnectAttempts g ->
      reconnectAttempts (scheduleReconnect g) = reconnectAttempts g + 1
      /\ reconnectTimers (scheduleReconnect g)
         = reconnectTimers g ++ [reconnectDelay g * (reconnectAttempts g + 1)])
  /\ reconnectAttempts (fst (connect ConnectOk g)) = 0
  /\ isConnected (fst (connect ConnectOk g)) = true.
Proof.
  intros g.
  destruct (run_invariant es constructor constructor_invariant) as [H1 H2 H3 H4].
  fold g in H1, H2, H3, H4.
  split; [done|]. split; [lia|]. split.
  { rewrite H1, H2. done. }
  split.
  { intros Hfull.
    assert (scheduleReconnect g = g) as Hsame.
    { unfold scheduleReconnect.
      destruct (Z.leb_spec (maxReconnectAttempts g) (reconnectAttempts g)); [done|lia]. }
    assert (forall c, scheduleReconnect (set_connection c (reconnectAttempts g) g)
                      = set_connection c (reconnectAttempts g) g) as Hsame'.
    { intros c. unfold scheduleReconnect. simpl.
      destruct (Z.leb_spec (maxReconnectAttempts g) (reconnectAttempts g)); [done|lia]. }
    unfold handleConnectionError, handleConnectionClose, reconnectCallback.
    simpl. rewrite Hsame, !Hsame'. done. }
  split.
  { intros Hroom. unfold scheduleReconnect.
    destruct (Z.leb_spec (maxReconnectAttempts g) (reconnectAttempts g)); [lia|].
    done. }
  done.
Qed.

(** C4 on a run: ten failed attempts after a connection error exhaust
    the budget, and the eleventh failure schedules nothing. *)
Lemma reconnect_attempts_bounded_witness :
  let fail := {| connectOutcome := ConnectFails "ECONNREFUSED";
                 setupSucceeds := false |} in
  let g := run (Connect ConnectOk :: ConnectionError
                :: replicate 9 (TimerFires 0 fail)) constructor in
  reconnectAttempts g = 10
  /\ scheduleLog g = [(1, 5000); (2, 10000); (3, 15000); (4, 20000); (5, 25000);
                      (6, 30000); (7, 35000); (8, 40000); (9, 45000); (10, 50000)]
  /\ scheduleReconnect g = g
  /\ reconnectAttempts (fst (connect ConnectOk g)) = 0.
Proof.
  intros fail g.
  pose proof (reconnect_attempts_bounded
                (Connect ConnectOk :: ConnectionError
                 :: replicate 9 (TimerFires 0 fail)))
    as (_ & _ & _ & Hfull & _ & Hzero & _).
  split; [reflexivity|]. split; [reflexivity|].
  split; [exact (proj1 (Hfull eq_refl)) | exact Hzero].
Defined.

End RabbitMQFacts.

(** *** request and reply *)

Section ReplyFacts.
Import RabbitMQ.

Lemma settle_requestId (p : Promise) (w : Waiter) :
  requestId (settle p w) = requestId w.
Proof. unfold settle. by destruct (promise w). Qed.

Lemma settle_acked (p : Promise) (w : Waiter) : acked (settle p w) = acked w.
Proof. unfold settle. by destruct (promise w). Qed.

Lemma settle_promise (p : Promise) (w : Waiter) :
  promise (settle p w) = match promise w with Pending => p | q => q end.
Proof. unfold settle. by destruct (promise w) eqn:E. Qed.

(** A reply with another correlation id leaves the waiter as it is. *)
Lemma onReply_foreign (m : Message) (w : Waiter) :
  msgCorrelationId m <> Some (requestId w) -> onReply (Some m) w = w.
Proof. intros Hne. unfold onReply. by rewrite decide_False. Qed.

(** What holds of a waiter after the events [seen], for the call with
    request id [rid]. *)
Record waiterInvariant (rid : string) (seen : list ReplyEvent) (w : Waiter)
  : Prop := {
  winv_id : requestId w = rid;
  winv_resolved :
    forall response, promise w = Resolved response ->
      exists m, Delivery (Some m) ∈ seen
                /\ msgCorrelationId m = Some rid
                /\ content m = Some response;
  winv_acked : Forall (fun m => msgCorrelationId m = Some rid) (acked w)
}.

Lemma waiterStep_invariant (rid : string) (seen : list ReplyEvent) (w : Waiter)
    (e : ReplyEvent) :
  waiterInvariant rid seen w ->
  waiterInvariant rid (seen ++ [e]) (waiterStep w e).
Proof.
  intros [Hid Hres Hack].
  assert (forall response, promise w = Resolved response ->
            exists m, Delivery (Some m) ∈ seen ++ [e]
                      /\ msgCorrelationId m = Some rid
                      /\ content m = Some response) as Hres'.
  { intros response Hp. destruct (Hres response Hp) as (m & Hin & Hm).
    exists m. split; [|done]. apply elem_of_app. by left. }
  destruct e as [[m|]|]; simpl.
  - unfold onReply. case_decide as Hmatch; [|by split].
    rewrite Hid in Hmatch.
    destruct (content m) as [body|] eqn:Hbody; [|by split].
    split.
    + by rewrite settle_requestId.
    + intros response. rewrite settle_promise. simpl.
      destruct (promise w) eqn:Hp; [|by apply Hres'|done].
      intros [= <-]. exists m. split; [|done].
      apply elem_of_app. right. by apply list_elem_of_singleton.
    + rewrite settle_acked. simpl. apply Forall_app. split; [done|].
      by apply Forall_singleton.
  - by split.
  - unfold onTimeout. destruct (timeoutArmed w); [|by split].
    split.
    + by rewrite settle_requestId.
    + intros response. rewrite settle_promise. simpl.
      destruct (promise w) eqn:Hp; [done|by apply Hres'|done].
    + by rewrite settle_acked.
Qed.

Lemma waiterRun_invariant (rid : string) (timeout : Z) (es : list ReplyEvent) :
  waiterInvariant rid es (waiterRun es (newWaiter rid timeout)).
Proof.
  induction es as [|e es IH] using rev_ind.
  - split; simpl; [done| |done]. intros response [=].
  - unfold waiterRun. rewrite foldl_app. simpl.
    by apply waiterStep_invariant.
Qed.

(** C1 (amended): whatever is delivered on the reply queue and whenever
    the timeout fires, the promise of a call resolves only with the content
    of a delivered reply whose correlation id is the call's own request id;
    a reply with any other correlation id changes nothing of the call: it
    does not resolve it, does not clear its timeout, and is not
    acknowledged; only replies with the call's own id are acknowledged. *)
Theorem reply_resolves_only_on_own_id (rid : string) (timeout : Z)
    (es : list ReplyEvent) :
  let w := waiterRun es (newWaiter rid timeout) in
  (forall response, promise w = Resolved response ->
     exists m, Delivery (Some m) ∈ es
               /\ msgCorrelationId m = Some rid
               /\ content m = Some response)
  /\ (forall m, msgCorrelationId m <> Some rid -> onReply (Some m) w = w)
  /\ Forall (fun m => msgCorrelationId m = Some rid) (acked w).
Proof.
  intros w. destruct (waiterRun_invariant rid timeout es) as [Hid Hres Hack].
  fold w in Hid, Hres, Hack.
  split; [done|]. split; [|done].
  intros m Hne. apply onReply_foreign. by rewrite Hid.
Qed.

Definition ownReply : Message :=
  {| msgCorrelationId := Some "req-1"%string; content := Some "ok"%string |}.

Definition foreignReply : Message :=
  {| msgCorrelationId := Some "req-2"%string; content := Some "other"%string |}.

(** C1 on a run: a foreign reply, then the call's own reply. *)
Lemma reply_resolves_only_on_own_id_witness :
  let w := waiterRun [Delivery (Some foreignReply); Delivery (Some ownReply)]
             (newWaiter "req-1" 5000) in
  promise w = Resolved "ok"
  /\ acked w = [ownReply]
  /\ onReply (Some foreignReply) w = w.
Proof.
  intros w.
  pose proof (reply_resolves_only_on_own_id "req-1" 5000
                [Delivery (Some foreignReply); Delivery (Some ownReply)])
    as (_ & Hforeign & _).
  split; [reflexivity|]. split; [reflexivity|].
  apply Hforeign. discriminate.
Defined.

(** C1 (as stated) fails: a reply that carries another correlation id is
    not acknowledged. After the foreign reply the call is still pending,
    its timeout is still armed, and no message has been acknowledged. *)
Lemma foreign_reply_not_acknowledged :
  let w := onReply (Some foreignReply) (newWaiter "req-1" 5000) in
  msgCorrelationId foreignReply <> Some (requestId (newWaiter "req-1" 5000))
  /\ promise w = Pending
  /\ timeoutArmed w = true
  /\ acked w = [].
Proof. simpl. repeat split. discriminate. Qed.

End ReplyFacts.

(** ** The orchestrator *)

Section HealthMonitorFacts.
Import HealthMonitor.

(** *** the HTTP probe *)

Lemma checkHttpTarget_status (t : Target) (code : Z) :
  status (checkHttpTarget t (HttpResponse code))
  = if validateStatus t code then healthy else unhealthy.
Proof.
  unfold checkHttpTarget, httpClient_request.
  by destruct (validateStatus t code).
Qed.

Lemma healthy_iff_true (b : bool) :
  (if b then healthy else unhealthy) = healthy <-> b = true.
Proof. by destruct b. Qed.

(** C6 (amended): an HTTP response is classified [healthy] exactly when
    its status code is below 400 if the target has no [expectedStatus] or
    an [expectedStatus] of 0, and exactly when its status code equals
    [expectedStatus] if the target has a non-zero one; every other
    response, and every request without a response, is [unhealthy]. *)
Theorem http_probe_classification (t : Target) (code : Z) (failure : string) :
  let r := checkHttpTarget t (HttpResponse code) in
  (status r = healthy <->
   match expectedStatus t with
   | Some expected => if expected =? 0 then code < 400 else code = expected
   | None => code < 400
   end)
  /\ (status r <> healthy -> status r = unhealthy)
  /\ status (checkHttpTarget t (HttpNoResponse failure)) = unhealthy.
Proof.
  intros r. subst r. rewrite checkHttpTarget_status.
  split; [|split; [|reflexivity]].
  - rewrite healthy_iff_true.
    unfold validateStatus, Js.truthy_opt, Js.truthy.
    destruct (expectedStatus t) as [expected|]; simpl.
    + destruct (Z.eqb_spec expected 0) as [->|Hnz]; simpl.
      * apply Z.ltb_lt.
      * rewrite bool_decide_eq_true. split; [by intros [= ->]|by intros ->].
    + apply Z.ltb_lt.
  - by destruct (validateStatus t code).
Qed.

Definition coreApi : Target := {|
  name := "CoreBridge Core API"; type := "http";
  url := "http://localhost:4001/health"; host := ""; port := 0;
  expectedStatus := Some 200; timeout := Some 5000;
  critical := true; interval := Some 30000
|}.

Lemma http_probe_classification_witness :
  status (checkHttpTarget coreApi (HttpResponse 500)) = unhealthy
  /\ status (checkHttpTarget coreApi (HttpResponse 200)) = healthy.
Proof.
  split.
  - apply (proj1 (proj2 (http_probe_classification coreApi 500 ""))).
    vm_compute. discriminate.
  - apply (proj1 (http_probe_classification coreApi 200 "")). reflexivity.
Defined.

(** A target whose configured [expectedStatus] is 0. *)
Definition zeroExpected : Target := {|
  name := "svc-zero"; type := "http"; url := "http://x/health";
  host := ""; port := 0; expectedStatus := Some 0; timeout := None;
  critical := false; interval := None
|}.

(** C6 (as stated) fails: with [expectedStatus] configured as 0, a
    response 200 does not equal the expected status and is classified
    [healthy] all the same, because 0 is falsy in the test of
    [validateStatus]. *)
Lemma expectedStatus_zero_is_ignored :
  expectedStatus zeroExpected = Some 0
  /\ 200 <> 0
  /\ status (checkHttpTarget zeroExpected (HttpResponse 200)) = healthy.
Proof. repeat split. discriminate. Qed.

(** *** what a sweep stores *)

Lemma singleResult_target (t : Target) (pr : Probe) :
  target (singleResult t pr) = t.
Proof.
  unfold singleResult, dispatch, checkTcpTarget, checkHttpTarget.
  destruct (String.eqb (type t) "http" || String.eqb (type t) "https"); simpl.
  - by destruct (httpClient_request _ _).
  - destruct (String.eqb (type t) "tcp"); simpl.
    + by destruct (tcpOutcome pr).
    + by destruct (httpClient_request _ _).
Qed.

(** A probe that throws gives an [error] result with the message. *)
Lemma singleResult_error (t : Target) (pr : Probe) (m : string) :
  dispatch t pr = Rejected m ->
  singleResult t pr
  = {| target := t; status := error; errorMessage := Some m;
       httpStatus := None; responseTime := Some (elapsed pr);
       timestamp := Some (finishedAt pr) |}.
Proof. intros H. unfold singleResult. by rewrite H. Qed.

Definition storeAll (w : World) (p : Plugin) (ts : list Target) : Plugin :=
  foldl (fun q t => fst (checkSingleTarget w t q)) p ts.

Lemma storeAll_alerts w p ts : alerts (storeAll w p ts) = alerts p.
Proof. revert p. induction ts as [|t ts IH]; intros p; [done|]. simpl. by rewrite IH. Qed.

Lemma storeAll_other (w : World) (p : Plugin) (ts : list Target) (k : string) :
  k ∉ map name ts ->
  healthResults (storeAll w p ts) !! k = healthResults p !! k.
Proof.
  revert p. induction ts as [|t ts IH]; intros p Hk; [done|].
  simpl in *. apply not_elem_of_cons in Hk as [Hne Hk].
  rewrite IH by done. simpl. by rewrite lookup_insert_ne.
Qed.

Lemma storeAll_lookup (w : World) (p : Plugin) (ts : list Target) (t : Target) :
  NoDup (map name ts) -> t ∈ ts ->
  healthResults (storeAll w p ts) !! name t = Some (singleResult t (probe w t)).
Proof.
  revert p. induction ts as [|t0 ts IH]; intros p Hnd Hin.
  - by apply elem_of_nil in Hin.
  - simpl in Hnd. apply NoDup_cons in Hnd as [Hfresh Hnd].
    apply elem_of_cons in Hin as [->|Hin]; simpl.
    + rewrite storeAll_other by done. simpl. by rewrite lookup_insert_eq.
    + by apply IH.
Qed.

(** With or without distinct names, the entry under a target's name is
    the result of a target of that name. *)
Lemma storeAll_some (w : World) (p : Plugin) (ts : list Target) (t : Target) :
  t ∈ ts ->
  exists t', t' ∈ ts /\ name t' = name t
             /\ healthResults (storeAll w p ts) !! name t
                = Some (singleResult t' (probe w t')).
Proof.
  revert t p. induction ts as [|t0 ts IH]; intros t p Hin.
  - by apply elem_of_nil in Hin.
  - destruct (decide (name t ∈ map name ts)) as [Hlater|Hlast].
    + apply list_elem_of_fmap in Hlater as (t1 & Hname & Hin1).
      destruct (IH t1 (fst (checkSingleTarget w t0 p)) Hin1)
        as (t' & Hin' & Hn' & Hl).
      exists t'. split; [by apply elem_of_cons; right|].
      split; [congruence|]. simpl. by rewrite Hname.
    + apply elem_of_cons in Hin as [->|Hin].
      * exists t0. split; [by apply elem_of_cons; left|]. split; [done|].
        simpl. rewrite storeAll_other by done. simpl. by rewrite lookup_insert_eq.
      * exfalso. apply Hlast. apply list_elem_of_fmap. by exists t.
Qed.

Lemma generateAlert_alerts (w : World) (d : AlertData) (p : Plugin) :
  exists a, alerts (fst (generateAlert w d p)) = alerts p ++ [a] /\ data a = d.
Proof.
  unfold generateAlert.
  destruct (RabbitMQ.publishHealthAlert _ _ _ _) as [g [[]|m]]; simpl; eauto.
Qed.

Lemma generateAlert_healthResults (w : World) (d : AlertData) (p : Plugin) :
  healthResults (fst (generateAlert w d p)) = healthResults p.
Proof.
  unfold generateAlert.
  by destruct (RabbitMQ.publishHealthAlert _ _ _ _) as [g [[]|m]].
Qed.

(** A loop of [generateAlert] appends one alert per issue, in order. *)
Lemma generateAlert_loop (w : World) (f : CheckResult -> AlertData)
    (issues : list CheckResult) (p : Plugin) :
  let p' := foldl (fun q issue => fst (generateAlert w (f issue) q)) p issues in
  healthResults p' = healthResults p
  /\ exists new, alerts p' = alerts p ++ new /\ map data new = map f issues.
Proof.
  revert p. induction issues as [|r rs IH]; intros p; simpl.
  - split; [done|]. exists []. by rewrite app_nil_r.
  - destruct (IH (fst (generateAlert w (f r) p))) as (Hres & new & Hnew & Hdata).
    destruct (generateAlert_alerts w (f r) p) as (a & Ha & Hd).
    split.
    + by rewrite Hres, generateAlert_healthResults.
    + exists (a :: new). split.
      * by rewrite Hnew, Ha, <- app_assoc.
      * simpl. by rewrite Hd, Hdata.
Qed.

Lemma processHealthResults_effect (w : World) (results : list CheckResult)
    (p : Plugin) :
  healthResults (processHealthResults w results p) = healthResults p
  /\ exists new,
       alerts (processHealthResults w results p) = alerts p ++ new
       /\ map data new
          = map serviceDown (filter (fun r => isCriticalIssue r = true) results)
            ++ map serviceDegraded
                 (filter (fun r => isNonCriticalIssue r = true) results).
Proof.
  unfold processHealthResults.
  set (crit := filter _ results). set (rest := filter _ results).
  destruct (generateAlert_loop w serviceDown crit p) as (H1 & new1 & Ha1 & Hd1).
  set (p1 := foldl _ p crit) in *.
  destruct (generateAlert_loop w serviceDegraded rest p1) as (H2 & new2 & Ha2 & Hd2).
  split.
  - by rewrite H2, H1.
  - exists (new1 ++ new2). split.
    + by rewrite Ha2, Ha1, <- app_assoc.
    + by rewrite map_app, Hd1, Hd2.
Qed.

Lemma processHealthResults_healthResults (w : World)
    (results : list CheckResult) (p : Plugin) :
  healthResults (processHealthResults w results p) = healthResults p.
Proof. apply processHealthResults_effect. Qed.

Lemma sweep_healthResults (w : World) (targets completion : list Target)
    (p : Plugin) :
  healthResults (fst (runFullHealthCheck w targets completion p))
  = healthResults (storeAll w p completion).
Proof.
  unfold runFullHealthCheck, reportHealthMetrics.
  cbn [fst healthResults set_rabbitMQ].
  by rewrite processHealthResults_healthResults.
Qed.

Lemma sweep_results (w : World) (targets completion : list Target) (p : Plugin) :
  snd (runFullHealthCheck w targets completion p)
  = map (fun t => singleResult t (probe w t)) targets.
Proof.
  unfold runFullHealthCheck. simpl. rewrite map_map. done.
Qed.

(** C2: in a sweep, whatever the order in which the probes end, the
    returned list holds one result per target, in the order of the targets;
    under every target's name a result of a target of that name is stored,
    and with distinct names it is that target's own result of this sweep;
    a target whose probe throws gets an [error] result carrying the message
    thrown, and the other targets' results are produced and stored all the
    same. *)
Theorem sweep_records_every_target (w : World) (targets completion : list Target)
    (p : Plugin) :
  completion ≡ₚ targets ->
  let p' := fst (runFullHealthCheck w targets completion p) in
  let results := snd (runFullHealthCheck w targets completion p) in
  results = map (fun t => singleResult t (probe w t)) targets
  /\ map target results = targets
  /\ (forall t, t ∈ targets ->
        exists r, healthResults p' !! name t = Some r
                  /\ name (target r) = name t)
  /\ (NoDup (map name targets) ->
      forall t, t ∈ targets ->
        healthResults p' !! name t = Some (singleResult t (probe w t)))
  /\ (forall t m, t ∈ targets -> dispatch t (probe w t) = Rejected m ->
        exists r, r ∈ results /\ target r = t /\ status r = error
                  /\ errorMessage r = Some m).
Proof.
  intros Hperm p' results.
  assert (results = map (fun t => singleResult t (probe w t)) targets) as Hres.
  { apply sweep_results. }
  split; [done|]. split.
  { rewrite Hres, map_map. rewrite <- (map_id targets) at 2.
    apply map_ext. intros t. apply singleResult_target. }
  split.
  { intros t Hin. subst p'. rewrite sweep_healthResults.
    rewrite <- Hperm in Hin.
    destruct (storeAll_some w p completion t Hin) as (t' & _ & Hname & Hl).
    exists (singleResult t' (probe w t')). split; [done|].
    by rewrite singleResult_target. }
  split.
  { intros Hnd t Hin. subst p'. rewrite sweep_healthResults.
    apply storeAll_lookup.
    - by rewrite Hperm.
    - by rewrite Hperm. }
  intros t m Hin Hthrow. exists (singleResult t (probe w t)).
  split. { rewrite Hres. apply list_elem_of_fmap. by exists t. }
  rewrite (singleResult_error t (probe w t) m Hthrow). done.
Qed.

End HealthMonitorFacts.

(** *** a sweep on a small fleet *)

Section SweepFacts.
Import HealthMonitor.

Definition redisCache : Target := {|
  name := "Redis Cache"; type := "tcp"; url := ""; host := "localhost";
  port := 6379; expectedStatus := None; timeout := Some 3000;
  critical := false; interval := Some 45000
|}.

(** A world in which HTTP answers 200 and the TCP socket refuses to
    connect at all. *)
Definition brokenSocketWorld : World := {|
  probe := fun _ => {| httpOutcome := HttpResponse 200;
                       tcpOutcome := TcpConnectThrows "Port should be >= 0 and < 65536";
                       elapsed := 12; finishedAt := 1000 |};
  alertId := fun _ => "alert-1"%string;
  uuid := fun _ => "uuid-1"%string;
  clock := 1000;
  duration := 12
|}.

Lemma sweep_records_every_target_witness :
  let p' := fst (runFullHealthCheck brokenSocketWorld [coreApi; redisCache]
                   [redisCache; coreApi] constructor) in
  [redisCache; coreApi] ≡ₚ [coreApi; redisCache]
  /\ status <$> healthResults p' !! "Redis Cache" = Some error
  /\ status <$> healthResults p' !! "CoreBridge Core API" = Some healthy.
Proof.
  intros p'.
  assert ([redisCache; coreApi] ≡ₚ [coreApi; redisCache]) as Hperm
    by apply perm_swap.
  assert (NoDup (map name [coreApi; redisCache])) as Hnd.
  { simpl. apply NoDup_cons. split; [|apply NoDup_singleton].
    rewrite list_elem_of_singleton. discriminate. }
  destruct (sweep_records_every_target brokenSocketWorld [coreApi; redisCache]
              [redisCache; coreApi] constructor Hperm)
    as (_ & _ & _ & Hstored & _).
  specialize (Hstored Hnd). fold p' in Hstored.
  split; [exact Hperm|]. split.
  - change "Redis Cache"%string with (name redisCache).
    rewrite Hstored by (apply elem_of_cons; right; apply elem_of_cons; by left).
    reflexivity.
  - change "CoreBridge Core API"%string with (name coreApi).
    rewrite Hstored by (apply elem_of_cons; by left).
    reflexivity.
Defined.

(** *** alerts of a sweep *)

(** The alerts that the specification asks for one result, each as its
    type, its severity and the target it refers to: none for a healthy
    result, one [critical] [service-down] for a result of a critical
    target, one [warning] [service-degraded] for any other. *)
Definition expectedAlerts (r : CheckResult) : list (string * string * string) :=
  if decide (status r = healthy) then []
  else if critical (target r)
  then [("service-down", "critical", name (target r))]
  else [("service-degraded", "warning", name (target r))]%string.

Definition alertSummary (a : Alert) : string * string * string :=
  (alertType (data a), severity (data a), alertTarget (data a)).

Definition dataSummary (d : AlertData) : string * string * string :=
  (alertType d, severity d, alertTarget d).

Lemma classify_result (r : CheckResult) :
  (isCriticalIssue r = false /\ isNonCriticalIssue r = false
   /\ expectedAlerts r = [])
  \/ (isCriticalIssue r = true /\ isNonCriticalIssue r = false
      /\ expectedAlerts r = [dataSummary (serviceDown r)])
  \/ (isCriticalIssue r = false /\ isNonCriticalIssue r = true
      /\ expectedAlerts r = [dataSummary (serviceDegraded r)]).
Proof.
  unfold isCriticalIssue, isNonCriticalIssue, expectedAlerts.
  case_bool_decide as Hs; case_decide as Hd; try done;
    destruct (critical (target r)); simpl; tauto.
Qed.

Lemma classification_permutation (results : list CheckResult) :
  map dataSummary
    (map serviceDown (filter (fun r => isCriticalIssue r = true) results)
     ++ map serviceDegraded
          (filter (fun r => isNonCriticalIssue r = true) results))
  ≡ₚ flat_map expectedAlerts results.
Proof.
  induction results as [|r rs IH]; [done|].
  rewrite !filter_cons. simpl flat_map.
  destruct (classify_result r) as [(Hc & Hn & He)|[(Hc & Hn & He)|(Hc & Hn & He)]];
    rewrite He.
  - rewrite !decide_False by congruence. exact IH.
  - rewrite decide_True by done. rewrite decide_False by congruence.
    simpl. by constructor.
  - rewrite decide_False by congruence. rewrite decide_True by done.
    rewrite map_app. simpl. rewrite <- Permutation_middle.
    constructor. by rewrite <- map_app.
Qed.

Lemma processHealthResults_classification (w : World)
    (results : list CheckResult) (p : Plugin) :
  exists new,
    alerts (processHealthResults w results p) = alerts p ++ new
    /\ map alertSummary new ≡ₚ flat_map expectedAlerts results.
Proof.
  destruct (processHealthResults_effect w results p) as (_ & new & Hnew & Hdata).
  exists new. split; [done|].
  rewrite <- classification_permutation, <- Hdata, map_map. done.
Qed.

Lemma sweep_alerts (w : World) (targets completion : list Target) (p : Plugin) :
  alerts (fst (runFullHealthCheck w targets completion p))
  = alerts (processHealthResults w
              (snd (runFullHealthCheck w targets completion p))
              (set_stats
                 (updateStats w (snd (runFullHealthCheck w targets completion p))
                    (stats (storeAll w p completion)))
                 (Some (clock w)) (storeAll w p completion))).
Proof. reflexivity. Qed.

(** C7: the alerts that a sweep appends are, up to their order, exactly
    those that its results call for: one [critical] alert of type
    [service-down] naming the target for each non-healthy result of a
    critical target, one [warning] alert of type [service-degraded] naming
    the target for each non-healthy result of a non-critical target, and
    none for a healthy result. *)
Theorem sweep_alert_classification (w : World) (targets completion : list Target)
    (p : Plugin) :
  let p' := fst (runFullHealthCheck w targets completion p) in
  let results := snd (runFullHealthCheck w targets completion p) in
  exists new,
    alerts p' = alerts p ++ new
    /\ map alertSummary new ≡ₚ flat_map expectedAlerts results
    /\ length new
       = length (filter (fun r => status r <> healthy) results).
Proof.
  intros p' results. subst p'. rewrite sweep_alerts. fold results.
  destruct (processHealthResults_classification w results
              (set_stats (updateStats w results (stats (storeAll w p completion)))
                 (Some (clock w)) (storeAll w p completion)))
    as (new & Hnew & Hperm).
  exists new. split.
  { rewrite Hnew. simpl. by rewrite storeAll_alerts. }
  split; [done|].
  rewrite <- (length_map alertSummary new), Hperm.
  clear. induction results as [|r rs IH]; [done|].
  rewrite filter_cons. simpl. rewrite length_app, IH.
  unfold expectedAlerts.
  destruct (decide (status r = healthy)) as [Hh|Hh].
  - by rewrite decide_False by (intros H; by apply H).
  - rewrite decide_True by done. by destruct (critical (target r)).
Qed.

(** The scenario of the specification: a critical HTTP target that
    expects 200 and answers 500. *)
Definition svcA : Target := {|
  name := "svc-a"; type := "http"; url := "http://x/health"; host := "";
  port := 0; expectedStatus := Some 200; timeout := None;
  critical := true; interval := None
|}.

Definition answers500 : World := {|
  probe := fun _ => {| httpOutcome := HttpResponse 500;
                       tcpOutcome := TcpTimeout;
                       elapsed := 8; finishedAt := 2000 |};
  alertId := fun _ => "alert-2000-abc"%string;
  uuid := fun _ => "uuid-2"%string;
  clock := 2000;
  duration := 8
|}.

Example scenario_svc_a :
  let sweep := runFullHealthCheck answers500 [svcA] [svcA] constructor in
  map status (snd sweep) = [unhealthy]
  /\ map alertSummary (alerts (fst sweep))
     = [("service-down", "critical", "svc-a")]%string.
Proof. vm_compute. done. Qed.

End SweepFacts.

(** ** The two alert lists *)

Section AlertListFacts.

(** C3 (amended): the self-monitoring engine cuts its alert list to the
    most recent 100 in [cleanOldMetrics]: what is left is the last 100
    alerts of the list, in their order, or the whole list when it has no
    more than 100; the alerts dropped are the oldest. Every collection
    cycle runs the cut before it appends the alerts of the cycle, at most
    three, which are those of the snapshot taken in the cycle: the list
    after a cycle is the most recent 100 of the list before it followed by
    the new alerts. So the list holds at most 100 alerts after the cut and
    at most 103 after any sequence of cycles. The bound of 100 is fixed:
    no setting enters the cut. The orchestrator's list is not cut: every
    [generateAlert] makes it one alert longer, the new alert at the end. *)
Theorem alert_list_bounds (cfg : SelfMonitoring.Config)
    (es : list SelfMonitoring.Event) (startedAt rightNow : Z)
    (s : SelfMonitoring.Service) (r : SelfMonitoring.Reading)
    (w : HealthMonitor.World) (d : HealthMonitor.AlertData)
    (p : HealthMonitor.Plugin) :
  (length (SelfMonitoring.alerts (SelfMonitoring.cleanOldMetrics rightNow s))
   <= 100)%nat
  /\ (length (SelfMonitoring.alerts
                (SelfMonitoring.run cfg es (SelfMonitoring.constructor startedAt)))
      <= 103)%nat
  /\ length (HealthMonitor.alerts (fst (HealthMonitor.generateAlert w d p)))
     = S (length (HealthMonitor.alerts p))
  /\ SelfMonitoring.alerts (SelfMonitoring.cleanOldMetrics rightNow s)
     = mostRecent 100 (SelfMonitoring.alerts s)
  /\ (exists dropped,
        SelfMonitoring.alerts s
        = dropped ++ SelfMonitoring.alerts (SelfMonitoring.cleanOldMetrics rightNow s)
        /\ length dropped = (length (SelfMonitoring.alerts s) - 100)%nat)
  /\ ((length (SelfMonitoring.alerts s) <= 100)%nat ->
      SelfMonitoring.alerts (SelfMonitoring.cleanOldMetrics rightNow s)
      = SelfMonitoring.alerts s)
  /\ (exists snapshot,
        SelfMonitoring.timestamp snapshot = SelfMonitoring.now r
        /\ (length (SelfMonitoring.thresholdAlerts cfg snapshot) <= 3)%nat
        /\ SelfMonitoring.alerts (fst (SelfMonitoring.collectMetrics cfg r s))
           = mostRecent 100 (SelfMonitoring.alerts s)
             ++ SelfMonitoring.thresholdAlerts cfg snapshot)
  /\ (exists a,
        HealthMonitor.alerts (fst (HealthMonitor.generateAlert w d p))
        = HealthMonitor.alerts p ++ [a]
        /\ HealthMonitor.data a = d).
Proof.
  split; [apply cleanOldMetrics_alerts_length|]. split.
  { apply run_alerts_length. simpl. lia. }
  split.
  { destruct (generateAlert_alerts w d p) as (a & Ha & _).
    rewrite Ha, length_app. simpl. lia. }
  split; [apply cleanOldMetrics_alerts|]. split.
  { exists (take (length (SelfMonitoring.alerts s) - 100) (SelfMonitoring.alerts s)).
    rewrite cleanOldMetrics_alerts, take_drop, length_take. split; [done|lia]. }
  split.
  { intros Hshort. rewrite cleanOldMetrics_alerts.
    replace (length (SelfMonitoring.alerts s) - 100)%nat with 0%nat by lia. done. }
  split.
  { destruct (collectMetrics_alerts cfg r s) as (m & Hm & Ha).
    exists m. split; [done|]. split; [apply thresholdAlerts_length|done]. }
  destruct (generateAlert_alerts w d p) as (a & Ha & Hd). by exists a.
Qed.

(** A process at 600 MB and 95 % CPU. *)
Definition hotReading : SelfMonitoring.Reading := {|
  SelfMonitoring.now := 7200000;
  SelfMonitoring.rss := 600 * 1024 * 1024;
  SelfMonitoring.cpuPercent := 95;
  SelfMonitoring.rssAtHealthCheck := 600 * 1024 * 1024
|}.

(** C3 (as stated) fails for both lists: with all three thresholds
    breached, the engine holds 103 alerts after its 35th cycle; and after
    101 sweeps over one failing critical target the orchestrator holds 101
    alerts. *)
Lemma alert_lists_exceed_100 :
  length (SelfMonitoring.alerts
            (SelfMonitoring.run SelfMonitoring.defaultConfig
               (SelfMonitoring.Measure 250
                  :: replicate 35 (SelfMonitoring.Collect hotReading))
               (SelfMonitoring.constructor 0)))
  = 103%nat
  /\ length (HealthMonitor.alerts
               (Nat.iter 101
                  (fun p => fst (HealthMonitor.runFullHealthCheck answers500
                                   [svcA] [svcA] p))
                  HealthMonitor.constructor))
     = 101%nat.
Proof. split; vm_compute; reflexivity. Qed.

End AlertListFacts.

(** ** Schedules *)

Section ScheduleFacts.
Import HealthMonitor.

(** The expression is written at the coarsest of the three units that
    the interval reaches, with the interval floored to that unit as its
    step. *)
Lemma intervalToCron_cases (intervalMs : Z) :
  let seconds := intervalMs / 1000 in
  (seconds <= 0 -> intervalToCron intervalMs = "* * * * * *"%string)
  /\ (0 < seconds < 60 ->
      intervalToCron intervalMs = "*/" +:+ pretty seconds +:+ " * * * * *")
  /\ (60 <= seconds < 3600 ->
      intervalToCron intervalMs = "0 */" +:+ pretty (seconds / 60) +:+ " * * * *")
  /\ (3600 <= seconds ->
      intervalToCron intervalMs
      = "0 0 */" +:+ pretty (seconds / 60 / 60) +:+ " * * *").
Proof.
  intros seconds. unfold intervalToCron. fold seconds.
  repeat split; intros Hs.
  - by destruct (Z.leb_spec seconds 0); [|lia].
  - destruct (Z.leb_spec seconds 0); [lia|].
    by destruct (Z.ltb_spec seconds 60); [|lia].
  - destruct (Z.leb_spec seconds 0); [lia|].
    destruct (Z.ltb_spec seconds 60); [lia|].
    assert (seconds / 60 < 60) by (apply Z.div_lt_upper_bound; lia).
    by destruct (Z.ltb_spec (seconds / 60) 60); [|lia].
  - destruct (Z.leb_spec seconds 0); [lia|].
    destruct (Z.ltb_spec seconds 60); [lia|].
    assert (60 <= seconds / 60) by (apply Z.div_le_lower_bound; lia).
    by destruct (Z.ltb_spec (seconds / 60) 60); [lia|].
Qed.

(** C9 at 45 seconds: [intervalToCron 45000] is the expression
    [*/45 * * * * *], which the scheduler fires at the seconds 0 and 45 of
    every minute, so the gaps between firings alternate between 45 and 15
    seconds instead of being 45 seconds each. *)
Theorem intervalToCron_45s_fires_unevenly :
  intervalToCron 45000 = "*/45 * * * * *"%string
  /\ Cron.firings (intervalToCron 45000) 0 181 = [0; 45; 60; 105; 120; 165; 180]
  /\ Cron.gaps (Cron.firings (intervalToCron 45000) 0 181)
     = [45; 15; 45; 15; 45; 15].
Proof. vm_compute. done. Qed.

(** At 120 seconds the expression is [0 */2 * * * *] and the firings
    are 120 seconds apart. *)
Example intervalToCron_120s :
  intervalToCron 120000 = "0 */2 * * * *"%string
  /\ Cron.gaps (Cron.firings (intervalToCron 120000) 0 601)
     = [120; 120; 120; 120; 120].
Proof. vm_compute. done. Qed.

End ScheduleFacts.

(** * The rest of the services *)

(** ** SelfMonitoringService.js: uptime, accessors and the sampling timers *)

Module SelfMonitoringTimers.
Import SelfMonitoring.

(** [parts.join(' ')] *)
Fixpoint join (sep : string) (parts : list string) : string :=
  match parts with
  | [] => ""
  | [p] => p
  | p :: rest => p +:+ sep +:+ join sep rest
  end.

(** The four numbers of [formatUptime]; [%] is the remainder of
    JavaScript, which has the sign of the dividend. *)
Definition uptimeParts (seconds : Z) : Z * Z * Z * Z :=
  let days := seconds / 86400 in
  let hours := Z.rem seconds 86400 / 3600 in
  let minutes := Z.rem seconds 3600 / 60 in
  let secs := Z.rem seconds 60 in
  (days, hours, minutes, secs).

Definition formatUptime (seconds : Z) : string :=
  let '(days, hours, minutes, secs) := uptimeParts seconds in
  let parts1 := if 0 <? days then [pretty days +:+ "d"] else [] in
  let parts2 := if 0 <? hours then parts1 ++ [pretty hours +:+ "h"] else parts1 in
  let parts3 := if 0 <? minutes then parts2 ++ [pretty minutes +:+ "m"] else parts2 in
  let parts4 :=
    if (0 <? secs) || (Z.of_nat (length parts3) =? 0)
    then parts3 ++ [pretty secs +:+ "s"] else parts3 in
  join " " parts4.

(** [getCurrentMetrics]: the last value of the map, or [null]. *)
Definition getCurrentMetrics (s : Service) : option Metrics :=
  last (map snd (metrics s)).

(** The service object with the two interval handles it keeps, and the
    runtime's table of live intervals with the callback each one runs. *)
Inductive Callback : Type := CollectMetrics | MeasureEventLoop.

Record Monitor : Type := {
  service : Service;
  monitoringInterval : option nat;
  eventLoopMonitor : option nat;
  liveIntervals : list (nat * Callback);
  nextHandle : nat
}.

Definition newMonitor (startedAt : Z) : Monitor := {|
  service := constructor startedAt;
  monitoringInterval := None;
  eventLoopMonitor := None;
  liveIntervals := [];
  nextHandle := 0
|}.

Definition set_isMonitoring (b : bool) (s : Service) : Service := {|
  isMonitoring := b;
  metrics := metrics s;
  alerts := alerts s;
  lastMetricsCollection := lastMetricsCollection s;
  eventLoopDelayField := eventLoopDelayField s;
  startTime := startTime s
|}.

(** [clearInterval(h)] *)
Definition clearInterval (h : nat) (live : list (nat * Callback))
  : list (nat * Callback) :=
  filter (fun e => fst e <> h) live.

(** [startMonitoring]: a second start returns at once; the first sets the
    collection interval, the event-loop interval when that metric is
    enabled, and collects once. *)
Definition startMonitoring (cfg : Config) (r : Reading) (m : Monitor) : Monitor :=
  if isMonitoring (service m) then m
  else
    let h1 := nextHandle m in
    let live1 := liveIntervals m ++ [(h1, CollectMetrics)] in
    let withLoop := eventLoop (metricFlags cfg) in
    let h2 := S h1 in
    let live2 := if withLoop then live1 ++ [(h2, MeasureEventLoop)] else live1 in
    {| service := fst (collectMetrics cfg r (set_isMonitoring true (service m)));
       monitoringInterval := Some h1;
       eventLoopMonitor := if withLoop then Some h2 else eventLoopMonitor m;
       liveIntervals := live2;
       nextHandle := if withLoop then S h2 else h2 |}.

(** [stopMonitoring] *)
Definition stopMonitoring (m : Monitor) : Monitor :=
  if negb (isMonitoring (service m)) then m
  else
    let live1 :=
      match monitoringInterval m with
      | Some h => clearInterval h (liveIntervals m)
      | None => liveIntervals m
      end in
    let live2 :=
      match eventLoopMonitor m with
      | Some h => clearInterval h live1
      | None => live1
      end in
    {| service := set_isMonitoring false (service m);
       monitoringInterval := None;
       eventLoopMonitor := None;
       liveIntervals := live2;
       nextHandle := nextHandle m |}.

(** [cleanup]: stop, then empty the map and the alert list. *)
Definition cleanup (m : Monitor) : Monitor :=
  let m1 := stopMonitoring m in
  {| service := with_alerts (with_metrics (service m1) [] (lastMetricsCollection (service m1))) [];
     monitoringInterval := monitoringInterval m1;
     eventLoopMonitor := eventLoopMonitor m1;
     liveIntervals := liveIntervals m1;
     nextHandle := nextHandle m1 |}.

Definition set_service (s : Service) (m : Monitor) : Monitor := {|
  service := s;
  monitoringInterval := monitoringInterval m;
  eventLoopMonitor := eventLoopMonitor m;
  liveIntervals := liveIntervals m;
  nextHandle := nextHandle m
|}.

(** The interval with handle [h] fires, if it is live. *)
Definition intervalFires (cfg : Config) (h : nat) (r : Reading) (delta : Q)
    (m : Monitor) : Monitor :=
  match list_find (fun e => fst e = h) (liveIntervals m) with
  | Some (_, (_, CollectMetrics)) =>
      set_service (fst (collectMetrics cfg r (service m))) m
  | Some (_, (_, MeasureEventLoop)) =>
      set_service (measureEventLoop delta (service m)) m
  | None => m
  end.

Inductive Action : Type :=
| Start (r : Reading)
| Stop
| Cleanup
| Fires (h : nat) (r : Reading) (delta : Q).

Definition act (cfg : Config) (m : Monitor) (a : Action) : Monitor :=
  match a with
  | Start r => startMonitoring cfg r m
  | Stop => stopMonitoring m
  | Cleanup => cleanup m
  | Fires h r d => intervalFires cfg h r d m
  end.

Definition perform (cfg : Config) (actions : list Action) (m : Monitor) : Monitor :=
  foldl (act cfg) m actions.

End SelfMonitoringTimers.

Section SelfMonitoringTimerFacts.
Import SelfMonitoring SelfMonitoringTimers.

Lemma append_nonempty_l (a b : string) : a <> ""%string -> a +:+ b <> ""%string.
Proof. by destruct a. Qed.

Lemma append_nonempty_r (a : string) (c : ascii) (b : string) :
  a +:+ String c b <> ""%string.
Proof. by destruct a. Qed.

Lemma join_nonempty (sep p : string) (rest : list string) :
  p <> ""%string -> join sep (p :: rest) <> ""%string.
Proof. intros Hp. destruct rest; simpl; [done|]. by apply append_nonempty_l. Qed.

(** X1: for a non-negative number of seconds, the days, hours, minutes
    and seconds that [formatUptime] prints add up to the input, each within
    its range; the text is never empty, and below one minute it is the
    number of seconds followed by [s] (so 0 gives [0s]). *)
Theorem formatUptime_decomposition (seconds : Z) :
  0 <= seconds ->
  let parts := uptimeParts seconds in
  let days := fst (fst (fst parts)) in
  let hours := snd (fst (fst parts)) in
  let minutes := snd (fst parts) in
  let secs := snd parts in
  days * 86400 + hours * 3600 + minutes * 60 + secs = seconds
  /\ 0 <= days /\ 0 <= hours < 24 /\ 0 <= minutes < 60 /\ 0 <= secs < 60
  /\ formatUptime seconds <> ""%string
  /\ (seconds < 60 -> formatUptime seconds = pretty seconds +:+ "s").
Proof.
  intros Hpos. unfold uptimeParts. simpl.
  rewrite !Z.rem_mod_nonneg by lia.
  split; [Z.to_euclidean_division_equations; lia|].
  split; [Z.to_euclidean_division_equations; lia|].
  split; [Z.to_euclidean_division_equations; lia|].
  split; [Z.to_euclidean_division_equations; lia|].
  split; [Z.to_euclidean_division_equations; lia|].
  split.
  - unfold formatUptime, uptimeParts.
    destruct (0 <? seconds / 86400), (0 <? Z.rem seconds 86400 / 3600),
      (0 <? Z.rem seconds 3600 / 60), (0 <? Z.rem seconds 60);
      cbn [orb app length Z.of_nat Z.eqb];
      apply join_nonempty, append_nonempty_r.
  - intros Hsmall. unfold formatUptime, uptimeParts.
    rewrite !Z.rem_mod_nonneg by lia.
    rewrite (Z.div_small seconds 86400) by lia.
    rewrite (Z.mod_small seconds 86400) by lia.
    rewrite (Z.div_small seconds 3600) by lia.
    rewrite (Z.mod_small seconds 3600) by lia.
    rewrite (Z.div_small seconds 60) by lia.
    rewrite (Z.mod_small seconds 60) by lia.
    simpl. rewrite orb_true_r. reflexivity.
Qed.

Lemma formatUptime_decomposition_witness :
  formatUptime 93784 = "1d 2h 3m 4s"%string
  /\ formatUptime 0 = "0s"%string
  /\ formatUptime 3600 = "1h"%string.
Proof.
  pose proof (formatUptime_decomposition 0 ltac:(lia)) as (_ & _ & _ & _ & _ & _ & H0).
  split; [vm_compute; reflexivity|]. split; [|vm_compute; reflexivity].
  rewrite H0 by lia. reflexivity.
Defined.

(** *** retention of snapshots *)

Lemma map_set_elem_of {V} (k : Z) (v : V) (m : list (Z * V)) (e : Z * V) :
  e ∈ map_set k v m -> e = (k, v) \/ e ∈ m.
Proof.
  induction m as [|[k' v'] rest IH]; simpl.
  - intros ->%list_elem_of_singleton. by left.
  - destruct (Z.eqb_spec k' k) as [->|Hne].
    + intros [->|Hin]%elem_of_cons; [by left|].
      right. by apply elem_of_cons; right.
    + intros [->|Hin]%elem_of_cons.
      * right. by apply elem_of_cons; left.
      * destruct (IH Hin) as [->|Hin']; [by left|].
        right. by apply elem_of_cons; right.
Qed.

Lemma map_set_keeps {V} (k : Z) (v : V) (m : list (Z * V)) (e : Z * V) :
  e ∈ m -> fst e <> k -> e ∈ map_set k v m.
Proof.
  intros Hin Hne. induction m as [|[k' v'] rest IH]; simpl.
  - by apply elem_of_nil in Hin.
  - apply elem_of_cons in Hin as [->|Hin].
    + simpl in Hne. destruct (Z.eqb_spec k' k); [done|]. by apply elem_of_cons; left.
    + destruct (Z.eqb_spec k' k).
      * by apply elem_of_cons; right.
      * apply elem_of_cons; right. by apply IH.
Qed.

Lemma map_set_new {V} (k : Z) (v : V) (m : list (Z * V)) :
  (k, v) ∈ map_set k v m.
Proof.
  induction m as [|[k' v'] rest IH]; simpl.
  - by apply list_elem_of_singleton.
  - destruct (Z.eqb_spec k' k); apply elem_of_cons; [by left|by right].
Qed.

Lemma map_set_fresh {V} (k : Z) (v : V) (m : list (Z * V)) :
  Forall (fun e => fst e < k) m -> map_set k v m = m ++ [(k, v)].
Proof.
  induction m as [|[k' v'] rest IH]; intros Hall; simpl; [done|].
  apply Forall_cons in Hall as [Hk Hrest]. simpl in Hk.
  destruct (Z.eqb_spec k' k); [lia|]. by rewrite IH.
Qed.

Lemma cleanOldMetrics_metrics (rightNow : Z) (s : Service) :
  metrics (cleanOldMetrics rightNow s)
  = filter (fun e => negb (fst e <? rightNow - 60 * 60 * 1000)) (metrics s).
Proof.
  unfold cleanOldMetrics. simpl.
  by destruct (100 <? Z.of_nat (length (alerts s))).
Qed.

Lemma retained_iff (rightNow : Z) (e : Z * Metrics) :
  negb (fst e <? rightNow - 60 * 60 * 1000) <-> rightNow - 3600000 <= fst e.
Proof.
  destruct (Z.ltb_spec (fst e) (rightNow - 60 * 60 * 1000)); simpl; split;
    intros; try done; lia.
Qed.

Lemma collectMetrics_metrics (cfg : Config) (r : Reading) (s : Service) :
  metrics (fst (collectMetrics cfg r s))
  = filter (fun e => negb (fst e <? now r - 60 * 60 * 1000))
      (map_set (now r)
         {| timestamp := now r; uptime := getUptime s r;
            process := getProcessMetrics cfg r;
            delay := getEventLoopMetrics cfg s;
            health := getHealthStatus cfg s r |}
         (metrics s)).
Proof.
  unfold collectMetrics, checkThresholds. simpl.
  by rewrite cleanOldMetrics_metrics.
Qed.

(** X2: after a collection cycle every retained snapshot is at most one
    hour older than the cycle; the snapshot of the cycle is retained; the
    others come from the previous history, of which every snapshot not older
    than one hour is kept; and cleaning twice at the same instant changes
    nothing more. *)
Theorem collectMetrics_retention (cfg : Config) (r : Reading) (s : Service) :
  let s' := fst (collectMetrics cfg r s) in
  Forall (fun e => now r - 3600000 <= fst e) (metrics s')
  /\ (exists m, timestamp m = now r
               /\ health m = getHealthStatus cfg s r
               /\ (now r, m) ∈ metrics s')
  /\ (forall e, e ∈ metrics s' -> fst e = now r \/ e ∈ metrics s)
  /\ (forall e, e ∈ metrics s -> now r - 3600000 <= fst e -> fst e <> now r ->
        e ∈ metrics s')
  /\ cleanOldMetrics (now r) (cleanOldMetrics (now r) s')
     = cleanOldMetrics (now r) s'.
Proof.
  intros s'. subst s'. rewrite collectMetrics_metrics.
  set (m := {| timestamp := now r; uptime := getUptime s r;
               process := getProcessMetrics cfg r;
               delay := getEventLoopMetrics cfg s;
               health := getHealthStatus cfg s r |}).
  split.
  { apply Forall_forall. intros e [He _]%list_elem_of_filter.
    by apply retained_iff. }
  split.
  { exists m. split; [done|]. split; [done|]. apply list_elem_of_filter. split.
    - apply retained_iff. simpl. lia.
    - apply map_set_new. }
  split.
  { intros e [_ Hin]%list_elem_of_filter.
    destruct (map_set_elem_of _ _ _ _ Hin) as [->|Hold]; [by left|by right]. }
  split.
  { intros e Hin Hfresh Hne. apply list_elem_of_filter. split.
    - by apply retained_iff.
    - by apply map_set_keeps. }
  set (s1 := fst (collectMetrics cfg r s)).
  assert (forall t, cleanOldMetrics (now r) (cleanOldMetrics (now r) t)
                    = cleanOldMetrics (now r) t) as Hidem.
  { intros t. set (c := cleanOldMetrics (now r) t).
    assert (length (alerts c) <= 100)%nat as Hlen
      by apply cleanOldMetrics_alerts_length.
    assert (metrics c = filter (fun e => negb (fst e <? now r - 60 * 60 * 1000))
                          (metrics t)) as Hm
      by apply cleanOldMetrics_metrics.
    unfold cleanOldMetrics at 1. simpl.
    destruct (Z.ltb_spec 100 (Z.of_nat (length (alerts c)))); [lia|].
    rewrite Hm, list_filter_filter.
    rewrite (list_filter_iff _ (fun e => negb (fst e <? now r - 60 * 60 * 1000)))
      by (intros e; tauto).
    rewrite <- Hm. by destruct c. }
  apply Hidem.
Qed.

(** X3: when the clock has advanced past every stored snapshot, a
    collection cycle appends its snapshot at the end of the history, and
    [getCurrentMetrics] then returns exactly that snapshot. *)
Theorem getCurrentMetrics_after_collect (cfg : Config) (r : Reading) (s : Service) :
  Forall (fun e => fst e < now r) (metrics s) ->
  let s' := fst (collectMetrics cfg r s) in
  exists m,
    timestamp m = now r
    /\ health m = getHealthStatus cfg s r
    /\ process m = getProcessMetrics cfg r
    /\ getCurrentMetrics s' = Some m
    /\ metrics s'
       = filter (fun e => negb (fst e <? now r - 60 * 60 * 1000)) (metrics s)
         ++ [(now r, m)]
    /\ lastMetricsCollection s' = Some (now r).
Proof.
  intros Hfresh s'. subst s'.
  eexists. split; [|split; [|split; [|split; [|split]]]]; cycle 4.
  - rewrite collectMetrics_metrics, map_set_fresh by done.
    rewrite filter_app. f_equal.
    rewrite filter_cons, decide_True; [rewrite filter_nil; reflexivity|].
    apply retained_iff. simpl. lia.
  - unfold collectMetrics, checkThresholds, cleanOldMetrics. simpl.
    by destruct (100 <? _).
  - done.
  - done.
  - done.
  - unfold getCurrentMetrics.
    rewrite collectMetrics_metrics, map_set_fresh by done.
    rewrite filter_app, map_app, filter_cons, decide_True;
      [rewrite filter_nil; simpl; by rewrite last_snoc|].
    apply retained_iff. simpl. lia.
Qed.

Lemma getCurrentMetrics_after_collect_witness :
  getCurrentMetrics (constructor 0) = None
  /\ timestamp <$> getCurrentMetrics
                     (fst (collectMetrics defaultConfig busyReading threeSnapshots))
     = Some 7200000.
Proof.
  split; [reflexivity|].
  assert (Forall (fun e => fst e < now busyReading) (metrics threeSnapshots)) as H.
  { repeat constructor. }
  destruct (getCurrentMetrics_after_collect defaultConfig busyReading
              threeSnapshots H) as (m & Ht & _ & _ & Hcur & _).
  rewrite Hcur. simpl. by rewrite Ht.
Defined.

Ltac solve_elem :=
  rewrite ?elem_of_cons, ?elem_of_nil; intuition congruence.

(** X4: one evaluation of the thresholds raises at most one alert per
    metric: the alerts pushed are those returned, their types are distinct,
    the alert of a metric is present exactly when that metric exceeds its
    threshold, and each is a warning stamped with the snapshot's
    timestamp. *)
Theorem checkThresholds_one_alert_per_metric (cfg : Config) (m : Metrics)
    (s : Service) :
  let new := snd (checkThresholds cfg m s) in
  alerts (fst (checkThresholds cfg m s)) = alerts s ++ new
  /\ NoDup (map type new)
  /\ (memory_usage ∈ map type new <-> memoryBreached cfg m = true)
  /\ (cpu_usage ∈ map type new <-> cpuBreached cfg m = true)
  /\ (event_loop_delay ∈ map type new <-> eventLoopBreached cfg m = true)
  /\ Forall (fun a => severity a = warning /\ alertTimestamp a = timestamp m) new.
Proof.
  unfold checkThresholds, thresholdAlerts. simpl.
  split; [done|].
  destruct (memoryBreached cfg m), (cpuBreached cfg m), (eventLoopBreached cfg m);
    simpl;
    (split; [repeat (apply NoDup_cons; split; [solve_elem|]); by apply NoDup_nil|]);
    (split; [solve_elem|]); (split; [solve_elem|]); (split; [solve_elem|]);
    repeat (apply Forall_cons; split; [done|]); by apply Forall_nil.
Qed.

(** X5: [getRecentAlerts(limit)] returns the most recent [limit] alerts
    for a positive limit, every alert for a limit of 0, and for a negative
    limit [-n] the alerts after the first [n]. *)
Theorem getRecentAlerts_limit (limit : Z) (s : Service) :
  (0 < limit ->
   getRecentAlerts limit s = mostRecent (Z.to_nat limit) (alerts s))
  /\ getRecentAlerts 0 s = alerts s
  /\ (limit < 0 -> getRecentAlerts limit s = drop (Z.to_nat (- limit)) (alerts s)).
Proof.
  unfold getRecentAlerts. split; [|split].
  - intros Hpos. by apply slice_last.
  - apply slice_zero.
  - intros Hneg. unfold Js.slice.
    destruct (Z.ltb_spec (- limit) 0) as [?|_]; [lia|].
    destruct (Z.min_spec (- limit) (Z.of_nat (length (alerts s))))
      as [[_ ->]|[Hle ->]]; [done|].
    rewrite Nat2Z.id. rewrite !drop_ge; [done|lia|lia].
Qed.

(** X6: the health status carries the warning [Service recently
    started] exactly during the first hour after the start of the
    service. *)
Theorem recently_started_warning (cfg : Config) (s : Service) (r : Reading) :
  "Service recently started"%string ∈ warnings (getHealthStatus cfg s r)
  <-> now r - startTime s < 3600000.
Proof.
  unfold getHealthStatus, getUptime. simpl.
  destruct (Z.ltb_spec ((now r - startTime s) / 1000 / 3600) 1) as [Hlt|Hge].
  - split; [|intros _; by apply list_elem_of_singleton].
    intros _. Z.to_euclidean_division_equations. lia.
  - split; [by intros ?%elem_of_nil|].
    intros Hms. exfalso. Z.to_euclidean_division_equations. lia.
Qed.

(** *** the sampling timers *)

Record monitorInvariant (m : Monitor) : Prop := {
  minv_stopped :
    isMonitoring (service m) = false ->
    monitoringInterval m = None /\ eventLoopMonitor m = None
    /\ liveIntervals m = [];
  minv_running :
    isMonitoring (service m) = true ->
    exists h1, monitoringInterval m = Some h1
      /\ (liveIntervals m
          = (h1, CollectMetrics)
            :: match eventLoopMonitor m with
               | Some h2 => [(h2, MeasureEventLoop)]
               | None => []
               end)
      /\ match eventLoopMonitor m with Some h2 => h1 <> h2 | None => True end
}.

Lemma collectMetrics_isMonitoring (cfg : Config) (r : Reading) (s : Service) :
  isMonitoring (fst (collectMetrics cfg r s)) = isMonitoring s.
Proof.
  unfold collectMetrics, checkThresholds, cleanOldMetrics. simpl.
  by destruct (100 <? _).
Qed.

Lemma act_invariant (cfg : Config) (m : Monitor) (a : Action) :
  monitorInvariant m -> monitorInvariant (act cfg m a).
Proof.
  intros Hinv. pose proof Hinv as [Hstop Hrun].
  assert (monitorInvariant (stopMonitoring m)) as Hstopped.
  { unfold stopMonitoring.
    destruct (isMonitoring (service m)) eqn:Hm; simpl; [|exact Hinv].
    split; simpl; [|discriminate]. intros _.
    destruct (Hrun eq_refl) as (h1 & -> & -> & Hne).
    split; [done|]. split; [done|].
    unfold clearInterval. destruct (eventLoopMonitor m) as [h2|]; simpl.
    - rewrite !filter_cons. simpl. rewrite decide_False by tauto.
      rewrite decide_True by (simpl; congruence). rewrite filter_nil.
      rewrite filter_cons. simpl. by rewrite decide_False by tauto.
    - rewrite filter_cons. simpl. by rewrite decide_False by tauto. }
  destruct a as [r| | |h r d]; simpl.
  - unfold startMonitoring.
    destruct (isMonitoring (service m)) eqn:Hm; [exact Hinv|].
    destruct (Hstop eq_refl) as (_ & Hev & Hlive).
    split; cbn [service monitoringInterval eventLoopMonitor liveIntervals];
      rewrite collectMetrics_isMonitoring; simpl; [discriminate|].
    intros _. exists (nextHandle m). rewrite Hlive, Hev.
    destruct (eventLoop (metricFlags cfg)); simpl; split; try done;
      split; try done; lia.
  - exact Hstopped.
  - destruct Hstopped as [Hs Hr]. unfold cleanup. split; simpl.
    + intros H. by apply Hs.
    + intros H. by apply Hr.
  - unfold intervalFires.
    destruct (list_find _ _) as [[i [h' []]]|]; [| |exact Hinv].
    + split; cbn [set_service service monitoringInterval eventLoopMonitor
                    liveIntervals];
        rewrite collectMetrics_isMonitoring; done.
    + split; simpl; done.
Qed.

Lemma perform_invariant (cfg : Config) (actions : list Action) (m : Monitor) :
  monitorInvariant m -> monitorInvariant (perform cfg actions m).
Proof.
  revert m. induction actions as [|a rest IH]; intros m Hm; [done|].
  simpl. apply IH. by apply act_invariant.
Qed.

(** X7: under any sequence of starts, stops, cleanups and interval
    firings, the service is monitoring exactly when it holds a collection
    interval; at most two intervals are live, one per callback, so a second
    start adds none; and when the service is not monitoring no interval is
    live, so no firing samples anything. *)
Theorem monitoring_timers_never_leak (cfg : Config) (startedAt : Z)
    (actions : list Action) :
  let m := perform cfg actions (newMonitor startedAt) in
  (isMonitoring (service m) = true <-> is_Some (monitoringInterval m))
  /\ (length (liveIntervals m) <= 2)%nat
  /\ NoDup (map fst (liveIntervals m))
  /\ (forall r, isMonitoring (service m) = true -> startMonitoring cfg r m = m)
  /\ (isMonitoring (service m) = false ->
      liveIntervals m = []
      /\ forall h r d, intervalFires cfg h r d m = m).
Proof.
  intros m.
  assert (monitorInvariant m) as [Hstop Hrun].
  { apply perform_invariant. split; simpl; [done|discriminate]. }
  split.
  { destruct (isMonitoring (service m)) eqn:Hm.
    - destruct (Hrun eq_refl) as (h1 & -> & _). split; eauto.
    - destruct (Hstop eq_refl) as (-> & _). split; [done|]. by intros [? [=]]. }
  assert ((length (liveIntervals m) <= 2)%nat /\ NoDup (map fst (liveIntervals m)))
    as [Hlen Hnd].
  { destruct (isMonitoring (service m)) eqn:Hm.
    - destruct (Hrun eq_refl) as (h1 & _ & -> & Hne).
      destruct (eventLoopMonitor m); simpl; split; try lia.
      + apply NoDup_cons. split; [|apply NoDup_singleton].
        by intros ->%list_elem_of_singleton.
      + apply NoDup_singleton.
    - destruct (Hstop eq_refl) as (_ & _ & ->). simpl. split; [lia|constructor]. }
  split; [done|]. split; [done|]. split.
  { intros r Hm. unfold startMonitoring. by rewrite Hm. }
  intros Hm. destruct (Hstop Hm) as (_ & _ & Hlive).
  split; [done|]. intros h r d. unfold intervalFires. by rewrite Hlive.
Qed.

End SelfMonitoringTimerFacts.

(** ** RabbitMQService.js: start-up and the consumer of the health queue *)

Module RabbitMQHandlers.
Import RabbitMQ.

(** [initialize]: [connect], then the two set-up calls; the first failure
    is logged and thrown again. [setupError] is the message of the error
    that the set-up throws when it fails. *)
Definition initialize (a : Attempt) (setupError : string) (g : Service)
  : Service * Settled bool :=
  match connect (connectOutcome a) g with
  | (g1, Rejected m) => (g1, Rejected m)
  | (g1, Fulfilled _) =>
      if setupSucceeds a then (g1, Fulfilled true) else (g1, Rejected setupError)
  end.

(** The body of a database health response, as far as the handler reads
    it: the fields [status] and [error]. *)
Record DbResponse : Type := {
  responseState : option string;
  responseError : option string
}.

(** A delivery on the health queue; [parsed] is [None] when
    [JSON.parse] throws on the content or gives a value without fields
    ([null]), on which reading [status] throws. *)
Record HealthDelivery : Type := {
  deliveryCorrelationId : option string;
  parsed : option DbResponse
}.

(** What the handler tells the channel about the delivery. *)
Inductive Disposition : Type :=
| Untouched
| Acked
| Nacked.

(** [response.error || 'Database health check failed'] *)
Definition alertMessage (r : DbResponse) : string :=
  match responseError r with
  | Some e => if String.eqb e "" then "Database health check failed" else e
  | None => "Database health check failed"
  end.

(** [handleDatabaseHealthResponse(msg)]; [id] is the [uuidv4()] of the
    alert publication, if one is made. *)
Definition handleDatabaseHealthResponse (id : string) (msg : option HealthDelivery)
    (g : Service) : Service * Disposition :=
  match msg with
  | None => (g, Untouched)
  | Some m =>
      match parsed m with
      | None => (g, Nacked)
      | Some response =>
          if bool_decide (responseState response = Some "error"%string) then
            match publishHealthAlert id "critical" (alertMessage response) g with
            | (g1, Fulfilled _) => (g1, Acked)
            | (g1, Rejected _) => (g1, Nacked)
            end
          else (g, Acked)
      end
  end.

End RabbitMQHandlers.

Section GatewayFacts.
Import RabbitMQ RabbitMQHandlers.

(** *** the promise of a request *)

Definition settled (w : Waiter) : Prop := promise w <> Pending.

Lemma waiterStep_settled (w : Waiter) (e : ReplyEvent) :
  promise w <> Pending -> promise (waiterStep w e) = promise w.
Proof.
  intros Hs. destruct e as [[m|]|]; simpl; [| done |].
  - unfold onReply. case_decide; [|done].
    destruct (content m); [|done].
    rewrite settle_promise. simpl. by destruct (promise w).
  - unfold onTimeout. destruct (timeoutArmed w); [|done].
    rewrite settle_promise. simpl. by destruct (promise w).
Qed.

(** X8: the promise of a request settles at most once: once it is
    resolved or rejected, no later delivery and no timeout changes its
    outcome; in particular a reply that arrives after the timeout leaves the
    call rejected with the timeout error. *)
Theorem promise_settles_once (w : Waiter) (es : list ReplyEvent) :
  promise w <> Pending -> promise (waiterRun es w) = promise w.
Proof.
  revert w. induction es as [|e es IH]; intros w Hs; [done|].
  simpl. rewrite IH; [by apply waiterStep_settled|].
  by rewrite waiterStep_settled.
Qed.

Lemma promise_settles_once_witness :
  promise (waiterRun [TimeoutFires; Delivery (Some ownReply)]
             (newWaiter "req-1" 5000))
  = Failed "Database health check timeout".
Proof.
  change (waiterRun [TimeoutFires; Delivery (Some ownReply)] (newWaiter "req-1" 5000))
    with (waiterRun [Delivery (Some ownReply)]
            (waiterStep (newWaiter "req-1" 5000) TimeoutFires)).
  rewrite promise_settles_once; [reflexivity|discriminate].
Defined.

(** A delivery that the callback lets fall through: [null], or a message
    with another correlation id. *)
Definition fallsThrough (rid : string) (e : ReplyEvent) : Prop :=
  match e with
  | Delivery (Some m) => msgCorrelationId m <> Some rid
  | Delivery None => True
  | TimeoutFires => False
  end.

Lemma waiterRun_fallsThrough (rid : string) (es : list ReplyEvent) (w : Waiter) :
  requestId w = rid -> Forall (fallsThrough rid) es -> waiterRun es w = w.
Proof.
  intros Hid Hall. revert w Hid.
  induction Hall as [|e es He _ IH]; intros w Hid; [done|].
  change (waiterRun (e :: es) w) with (waiterRun es (waiterStep w e)).
  destruct e as [[m|]|]; cbn [waiterStep fallsThrough] in *; [| |done].
  - rewrite onReply_foreign by congruence. by apply IH.
  - by apply IH.
Qed.

(** X9: when nothing but foreign replies and [null] deliveries arrive
    before the timeout fires, the call is rejected with the error
    [Database health check timeout] and no message has been acknowledged. *)
Theorem request_times_out (rid : string) (timeout : Z) (es : list ReplyEvent) :
  Forall (fallsThrough rid) es ->
  let w := waiterRun (es ++ [TimeoutFires]) (newWaiter rid timeout) in
  promise w = Failed "Database health check timeout"
  /\ acked w = []
  /\ timeoutArmed w = false.
Proof.
  intros Hall w. subst w. unfold waiterRun. rewrite foldl_app.
  fold (waiterRun es (newWaiter rid timeout)).
  rewrite (waiterRun_fallsThrough rid) by done. by simpl.
Qed.

Lemma request_times_out_witness :
  promise (waiterRun [Delivery (Some foreignReply); Delivery None; TimeoutFires]
             (newWaiter "req-1" 5000))
  = Failed "Database health check timeout".
Proof.
  apply (request_times_out "req-1" 5000
           [Delivery (Some foreignReply); Delivery None]).
  repeat constructor. discriminate.
Defined.

(** X10: a reply with the call's own correlation id whose content is
    not JSON clears the timeout without settling the call; after it, no
    timeout and no foreign reply ever settles the call: it stays pending
    until a well-formed reply with its id arrives. *)
Theorem malformed_reply_hangs_call (rid : string) (timeout : Z)
    (es : list ReplyEvent) :
  Forall (fun e => e = TimeoutFires \/ fallsThrough rid e) es ->
  let malformed := {| msgCorrelationId := Some rid; content := None |} in
  let w := waiterRun (Delivery (Some malformed) :: es) (newWaiter rid timeout) in
  promise w = Pending /\ timeoutArmed w = false /\ acked w = [].
Proof.
  intros Hall malformed w. subst w. simpl.
  unfold onReply. simpl. rewrite decide_True by done. simpl.
  set (w0 := clearTimeout (newWaiter rid timeout)).
  assert (waiterRun es w0 = w0) as ->; [|done].
  assert (requestId w0 = rid /\ timeoutArmed w0 = false) as Hw0 by done.
  clearbody w0. revert w0 Hw0.
  induction Hall as [|e es He _ IH]; intros w0 [Hid Harm]; [done|].
  change (waiterRun (e :: es) w0) with (waiterRun es (waiterStep w0 e)).
  destruct He as [->|He].
  - cbn [waiterStep]. unfold onTimeout. rewrite Harm. by apply IH.
  - destruct e as [[m|]|]; cbn [waiterStep fallsThrough] in *; [| |done].
    + rewrite onReply_foreign by congruence. by apply IH.
    + by apply IH.
Qed.

Lemma malformed_reply_hangs_call_witness :
  promise (waiterRun [Delivery (Some {| msgCorrelationId := Some "req-1"%string;
                                       content := None |});
                      TimeoutFires; Delivery (Some foreignReply); TimeoutFires]
             (newWaiter "req-1" 5000))
  = Pending.
Proof.
  apply (malformed_reply_hangs_call "req-1" 5000
           [TimeoutFires; Delivery (Some foreignReply); TimeoutFires]).
  apply Forall_cons; split; [by left|].
  apply Forall_cons; split; [right; simpl; discriminate|].
  apply Forall_cons; split; [by left|].
  by apply Forall_nil.
Defined.

(** X11: a request made while connected asserts the reply queue
    [db_health_reply_<id>] and publishes one non-persistent message to
    [database.health.request] whose message id and correlation id are the
    request id and whose reply-to is that queue; a well-formed reply with
    that correlation id then resolves the call with its content, is
    acknowledged, and disarms the timeout. *)
Theorem request_reply_round_trip (id query response : string) (timeout : Z)
    (g : Service) :
  isConnected g = true ->
  exists w,
    requestDatabaseHealthCheck id timeout query g
    = (channel_publish
         {| exchange := systemExchange; routingKey := "database.health.request";
            messageId := id; messageType := "database-health-check";
            payload := query; persistent := false; priority := None;
            replyTo := Some ("db_health_reply_" +:+ id);
            correlationId := Some id |}
         (channel_assertQueue ("db_health_reply_" +:+ id) g),
       Fulfilled w)
    /\ promise w = Pending
    /\ forall reply,
         msgCorrelationId reply = Some id -> content reply = Some response ->
         let w' := waiterRun [Delivery (Some reply); TimeoutFires] w in
         promise w' = Resolved response /\ acked w' = [reply].
Proof.
  intros Hon. exists (newWaiter id timeout).
  unfold requestDatabaseHealthCheck. rewrite Hon. simpl.
  split; [done|]. split; [done|].
  intros reply Hid Hcontent. unfold onReply. simpl.
  rewrite decide_True by done. rewrite Hcontent. simpl. done.
Qed.

Definition connectedGateway : Service := fst (connect ConnectOk constructor).

Lemma request_reply_round_trip_witness :
  exists w,
    snd (requestDatabaseHealthCheck "req-1" 5000 "SELECT 1" connectedGateway)
    = Fulfilled w
    /\ promise (waiterRun [Delivery (Some ownReply); TimeoutFires] w)
       = Resolved "ok".
Proof.
  destruct (request_reply_round_trip "req-1" "SELECT 1" "ok" 5000
              connectedGateway eq_refl) as (w & Hreq & _ & Hreply).
  exists w. rewrite Hreq. split; [reflexivity|].
  by apply (Hreply ownReply).
Defined.

End GatewayFacts.

Section ReconnectFacts.
Import RabbitMQ RabbitMQHandlers.

Lemma set_connection_same (g : Service) :
  isConnected g = false -> set_connection false (reconnectAttempts g) g = g.
Proof. destruct g. simpl. by intros ->. Qed.

Lemma scheduleReconnect_exhausted (g : Service) :
  maxReconnectAttempts g <= reconnectAttempts g -> scheduleReconnect g = g.
Proof.
  intros Hfull. unfold scheduleReconnect.
  by destruct (Z.leb_spec (maxReconnectAttempts g) (reconnectAttempts g)); [|lia].
Qed.

Lemma step_exhausted (g : Service) (e : Event) :
  isConnected g = false ->
  maxReconnectAttempts g <= reconnectAttempts g ->
  reconnectTimers g = [] ->
  e <> Connect ConnectOk ->
  step g e = g.
Proof.
  intros Hoff Hfull Htimers Hne.
  assert (handleConnectionClose g = g) as Hclose.
  { unfold handleConnectionClose. rewrite set_connection_same by done.
    by apply scheduleReconnect_exhausted. }
  destruct e as [[|m]| | |i a|id mt|id sv al|id st|id t q|o]; simpl.
  - done.
  - done.
  - exact Hclose.
  - exact Hclose.
  - unfold timerFires. by rewrite Htimers.
  - unfold publishHealthMetrics. by rewrite Hoff.
  - unfold publishHealthAlert. by rewrite Hoff.
  - unfold publishSystemStatus. by rewrite Hoff.
  - unfold requestDatabaseHealthCheck. by rewrite Hoff.
  - destruct o as [m| |]; cbn [close]; [done| |].
    + by apply set_connection_same.
    + rewrite Hclose. by apply set_connection_same.
Qed.

(** X12: once the attempts are used up, the gateway is disconnected and
    no reconnection timer is pending, it stays exactly as it is under every
    sequence of connection errors, closes, timer firings, publications,
    requests, failed connects and closes: only a successful explicit
    [connect] brings it back. *)
Theorem exhausted_gateway_stays_down (g : Service) (es : list Event) :
  isConnected g = false ->
  maxReconnectAttempts g <= reconnectAttempts g ->
  reconnectTimers g = [] ->
  Forall (fun e => e <> Connect ConnectOk) es ->
  run es g = g.
Proof.
  intros Hoff Hfull Htimers Hall.
  induction Hall as [|e es He _ IH]; [done|].
  simpl. rewrite step_exhausted by done. exact IH.
Qed.

Definition refused : Attempt :=
  {| connectOutcome := ConnectFails "ECONNREFUSED"; setupSucceeds := false |}.

Definition exhaustedGateway : Service :=
  run (Connect ConnectOk :: ConnectionError :: replicate 10 (TimerFires 0 refused))
    constructor.

Lemma exhausted_gateway_stays_down_witness :
  isConnected exhaustedGateway = false
  /\ reconnectAttempts exhaustedGateway = 10
  /\ reconnectTimers exhaustedGateway = []
  /\ run [ConnectionClose; TimerFires 0 refused; PublishMetrics "m" "{}";
          Connect (ConnectFails "ECONNREFUSED"); ConnectionError]
       exhaustedGateway
     = exhaustedGateway.
Proof.
  split; [reflexivity|]. split; [reflexivity|]. split; [reflexivity|].
  apply exhausted_gateway_stays_down; try reflexivity.
  repeat (apply Forall_cons; split; [discriminate|]). by apply Forall_nil.
Defined.

Lemma step_published (g : Service) (e : Event) :
  published g `prefix_of` published (step g e)
  /\ (isConnected g = false -> published (step g e) = published g).
Proof.
  assert (forall g', published (scheduleReconnect g') = published g') as Hsched.
  { intros g'. unfold scheduleReconnect. by destruct (_ <=? _). }
  destruct e as [[|m]| | |i a|id mt|id sv al|id st|id t q|o]; simpl;
    try (split; [done|done]).
  - unfold handleConnectionError. rewrite Hsched. by split.
  - unfold handleConnectionClose. rewrite Hsched. by split.
  - unfold timerFires. destruct (reconnectTimers g !! i); [|by split].
    unfold reconnectCallback.
    destruct (connectOutcome a); simpl.
    + destruct (setupSucceeds a); [|rewrite Hsched]; by split.
    + rewrite Hsched. by split.
  - unfold publishHealthMetrics. destruct (isConnected g); simpl; split;
      try done. by apply prefix_app_r.
  - unfold publishHealthAlert. destruct (isConnected g); simpl; split;
      try done. by apply prefix_app_r.
  - unfold publishSystemStatus. destruct (isConnected g); simpl; split;
      try done. by apply prefix_app_r.
  - unfold requestDatabaseHealthCheck. destruct (isConnected g); simpl; split;
      try done. by apply prefix_app_r.
  - destruct o as [m| |]; cbn [close]; [by split|by split|].
    unfold handleConnectionClose. simpl. rewrite Hsched. by split.
Qed.

(** X13: what has been handed to the channel is never taken back or
    reordered: after any sequence of events the earlier publications are a
    prefix of the later ones; and no event makes a disconnected gateway
    publish anything. *)
Theorem publications_append_only (g : Service) (es : list Event) (e : Event) :
  published g `prefix_of` published (run es g)
  /\ (isConnected (run es g) = false ->
      published (step (run es g) e) = published (run es g)).
Proof.
  split; [|apply step_published].
  revert g. induction es as [|e' es IH]; intros g; [done|].
  simpl. etrans; [apply (step_published g e')|apply IH].
Qed.

(** X14: [initialize] succeeds exactly when the connection and the
    set-up both succeed, and it never schedules a reconnection. When the
    connection fails the gateway is unchanged; when the connection succeeds
    and the set-up fails, the call is rejected but the gateway is left
    marked connected with its attempt counter at zero. *)
Theorem initialize_outcomes (a : Attempt) (setupError : string) (g : Service) :
  let g' := fst (initialize a setupError g) in
  let result := snd (initialize a setupError g) in
  (result = Fulfilled true
   <-> connectOutcome a = ConnectOk /\ setupSucceeds a = true)
  /\ reconnectTimers g' = reconnectTimers g
  /\ scheduleLog g' = scheduleLog g
  /\ (forall m, connectOutcome a = ConnectFails m ->
        g' = g /\ result = Rejected m)
  /\ (connectOutcome a = ConnectOk ->
      isConnected g' = true /\ reconnectAttempts g' = 0
      /\ (setupSucceeds a = false -> result = Rejected setupError)).
Proof.
  unfold initialize.
  destruct (connectOutcome a) as [|m] eqn:Hc; simpl.
  - destruct (setupSucceeds a); simpl; intuition congruence.
  - intuition congruence.
Qed.



Ltac settle_cases :=
  repeat split; intros;
  repeat match goal with
         | H : exists _, _ |- _ => destruct H
         | H : _ /\ _ |- _ => destruct H
         | H : _ \/ _ |- _ => destruct H
         end;
  simplify_eq; try done; try congruence.

(** X16: the consumer of the health queue ignores a [null] delivery and
    settles every other one: it acknowledges the delivery exactly when the
    content is JSON and either its status is not [error] or the gateway is
    connected, and rejects it without requeue otherwise, leaving the
    gateway unchanged; it publishes exactly for an [error] status on a
    connected gateway, one critical alert with priority 255. *)
Theorem health_response_disposition (id : string) (msg : option HealthDelivery)
    (g : Service) :
  let g' := fst (handleDatabaseHealthResponse id msg g) in
  let outcome := snd (handleDatabaseHealthResponse id msg g) in
  (outcome = Untouched <-> msg = None)
  /\ (outcome = Acked <->
      exists m response, msg = Some m /\ parsed m = Some response
        /\ (responseState response <> Some "error"%string \/ isConnected g = true))
  /\ (outcome <> Acked -> g' = g)
  /\ (forall m response,
        msg = Some m -> parsed m = Some response ->
        responseState response = Some "error"%string -> isConnected g = true ->
        published g'
        = published g
          ++ [ {| exchange := healthExchange; routingKey := "alerts.critical";
                  messageId := id; messageType := "health-alert";
                  payload := alertMessage response; persistent := true;
                  priority := Some 255; replyTo := None;
                  correlationId := None |} ])
  /\ (forall m response,
        msg = Some m -> parsed m = Some response ->
        responseState response <> Some "error"%string -> g' = g).
Proof.
  unfold handleDatabaseHealthResponse.
  destruct msg as [m|]; simpl; [|by settle_cases].
  destruct (parsed m) as [response|] eqn:Hp; simpl; [|by settle_cases].
  case_bool_decide as Herr.
  - unfold publishHealthAlert.
    destruct (isConnected g) eqn:Hon; simpl; settle_cases.
    exists m, response. by auto.
  - settle_cases. exists m, response. by auto.
Qed.

End ReconnectFacts.

(** ** HealthMonitorPlugin.js: reports, database checks and the life cycle *)

Module HealthMonitorOps.
Import HealthMonitor.

(** The body that [processHealthResults] sends to the core system with
    [updateHealthStatus]: the overall status and the five counts. *)
Record HealthUpdate : Type := {
  overallStatus : string;
  totalTargets : nat;
  healthyTargets : nat;
  unhealthyTargets : nat;
  criticalIssues : nat;
  nonCriticalIssues : nat
}.

Definition healthUpdate (results : list CheckResult) : HealthUpdate :=
  let criticalIssues := filter (fun r => isCriticalIssue r = true) results in
  let nonCriticalIssues := filter (fun r => isNonCriticalIssue r = true) results in
  {| overallStatus :=
       if (0 <? length criticalIssues)%nat then "critical"
       else if (0 <? length nonCriticalIssues)%nat then "warning"
       else "healthy";
     totalTargets := length results;
     healthyTargets := length (filter (fun r => status r = healthy) results);
     unhealthyTargets := length (filter (fun r => status r <> healthy) results);
     criticalIssues := length criticalIssues;
     nonCriticalIssues := length nonCriticalIssues |}.

(** The plugin's own [publishSystemStatus]: a failed publication is
    logged and swallowed. *)
Definition publishSystemStatus (w : World) (status : string) (p : Plugin) : Plugin :=
  set_rabbitMQ
    (fst (RabbitMQ.publishSystemStatus
            (uuid w (length (RabbitMQ.published (rabbitMQ p))))
            status (rabbitMQ p)))
    p.

(** [collectAndReportMetrics]: one publication of the metrics, its
    failure is caught. *)
Definition collectAndReportMetrics (w : World) (p : Plugin) : Plugin :=
  set_rabbitMQ
    (fst (RabbitMQ.publishHealthMetrics
            (uuid w (length (RabbitMQ.published (rabbitMQ p))))
            "plugin-metrics" (rabbitMQ p)))
    p.

(** *** database checks through the gateway *)

(** The reply to a database health request, as far as the plugin reads
    it. *)
Record DbReply : Type := {
  replyStatus : option string;
  replyData : option string;
  replyError : option string
}.

Record DbResult : Type := {
  queryName : string;
  resultStatus : string;
  resultData : option string;
  resultError : option string
}.

(** [result.status || 'healthy'] *)
Definition statusOrHealthy (s : option string) : string :=
  match s with
  | Some v => if String.eqb v "" then "healthy" else v
  | None => "healthy"
  end.

(** The message of the [TypeError] that reading [status] of [null]
    throws. *)
Definition nullStatus : string :=
  "Cannot read properties of null (reading 'status')".

(** The far side of the database checks: [replies id] are the
    deliveries on the reply queue of the request [id] and the firing of its
    timeout, all that ever follow the request; [fields response] is what
    the plugin reads off a reply that resolved a request, nothing when the
    reply is [null]. *)
Record Database : Type := {
  replies : string -> list RabbitMQ.ReplyEvent;
  fields : string -> option DbReply
}.

Definition errorResult (name m : string) : DbResult :=
  {| queryName := name; resultStatus := "error";
     resultData := None; resultError := Some m |}.

(** What [await] makes of the promise of a request once all its replies
    are in: the result pushed in the [try] or in the [catch], or nothing
    when the promise is still pending, in which case the [await] never
    returns. *)
Definition awaited (db : Database) (name : string) (p : RabbitMQ.Promise)
  : option DbResult :=
  match p with
  | RabbitMQ.Pending => None
  | RabbitMQ.Resolved response =>
      match fields db response with
      | Some reply =>
          Some {| queryName := name;
                  resultStatus := statusOrHealthy (replyStatus reply);
                  resultData := replyData reply;
                  resultError := replyError reply |}
      | None => Some (errorResult name nullStatus)
      end
  | RabbitMQ.Failed m => Some (errorResult name m)
  end.

(** One turn of the loop of [runDatabaseHealthCheck]: the request, then
    the [await] of its promise. The gateway is taken to see no connection
    event while the loop runs. *)
Definition checkQuery (w : World) (timeout : Z) (db : Database)
    (entry : string * string) (g : RabbitMQ.Service)
  : RabbitMQ.Service * option DbResult :=
  match RabbitMQ.requestDatabaseHealthCheck
          (uuid w (length (RabbitMQ.published g))) timeout (snd entry) g with
  | (g1, Rejected m) => (g1, Some (errorResult (fst entry) m))
  | (g1, Fulfilled waiter) =>
      (g1, awaited db (fst entry)
             (RabbitMQ.promise
                (RabbitMQ.waiterRun (replies db (RabbitMQ.requestId waiter))
                   waiter)))
  end.

(** The loop: a turn whose [await] never returns ends it, the queries
    after it are never sent. *)
Fixpoint checkQueries (w : World) (timeout : Z) (db : Database)
    (queries : list (string * string)) (g : RabbitMQ.Service)
  : RabbitMQ.Service * option (list DbResult) :=
  match queries with
  | [] => (g, Some [])
  | entry :: rest =>
      match checkQuery w timeout db entry g with
      | (g1, Some result) =>
          match checkQueries w timeout db rest g1 with
          | (g2, Some results) => (g2, Some (result :: results))
          | (g2, None) => (g2, None)
          end
      | (g1, None) => (g1, None)
      end
  end.

(** [runDatabaseHealthCheck]: the queries in turn, then the publication
    of the results, whose failure is thrown on to the caller. The answer
    is [None] when the call never settles. *)
Definition runDatabaseHealthCheck (w : World) (timeout : Z) (db : Database)
    (queries : list (string * string)) (g : RabbitMQ.Service)
  : RabbitMQ.Service * option (Settled (list DbResult)) :=
  match checkQueries w timeout db queries g with
  | (g1, Some results) =>
      match RabbitMQ.publishHealthMetrics
              (uuid w (length (RabbitMQ.published g1))) "database-health" g1 with
      | (g2, Fulfilled _) => (g2, Some (Fulfilled results))
      | (g2, Rejected m) => (g2, Some (Rejected m))
      end
  | (g1, None) => (g1, None)
  end.

(** *** the life cycle *)

(** The plugin with its cron jobs, which are started and stopped
    together. The configuration of the sweep is fixed at set-up. *)
Record Runtime : Type := {
  plugin : Plugin;
  cronStarted : bool
}.

Definition set_flags (running paused : bool) (p : Plugin) : Plugin := {|
  isRunning := running; isPaused := paused;
  healthResults := healthResults p; alerts := alerts p;
  lastFullHealthCheck := lastFullHealthCheck p;
  stats := stats p; rabbitMQ := rabbitMQ p
|}.

Definition initialRuntime : Runtime :=
  {| plugin := constructor; cronStarted := false |}.

(** [start]: the time of the start kept in [stats.uptime] is left out. *)
Definition start (w : World) (targets completion : list Target) (rt : Runtime)
  : Runtime :=
  if isRunning (plugin rt) then rt
  else
    let p1 := set_flags true (isPaused (plugin rt)) (plugin rt) in
    let p2 := publishSystemStatus w "started" p1 in
    {| plugin := fst (runFullHealthCheck w targets completion p2);
       cronStarted := true |}.

Definition stop (w : World) (rt : Runtime) : Runtime :=
  if negb (isRunning (plugin rt)) then rt
  else
    let p1 := set_flags false (isPaused (plugin rt)) (plugin rt) in
    {| plugin := publishSystemStatus w "stopped" p1; cronStarted := false |}.

Definition pause (w : World) (rt : Runtime) : Runtime :=
  if negb (isRunning (plugin rt)) || isPaused (plugin rt) then rt
  else
    let p1 := set_flags (isRunning (plugin rt)) true (plugin rt) in
    {| plugin := publishSystemStatus w "paused" p1; cronStarted := false |}.

Definition resume (w : World) (rt : Runtime) : Runtime :=
  if negb (isRunning (plugin rt)) || negb (isPaused (plugin rt)) then rt
  else
    let p1 := set_flags (isRunning (plugin rt)) false (plugin rt) in
    {| plugin := publishSystemStatus w "resumed" p1; cronStarted := true |}.

(** The cron jobs of [setupHealthCheckJobs] and [setupMetricsReporting]
    that act on the plugin alone. *)
Inductive Job : Type :=
| MainHealthCheck
| TargetCheck (t : Target)
| MetricsReporting.

(** A job's schedule comes due: nothing runs unless the jobs are started,
    and the callback does nothing while the plugin is paused. *)
Definition tick (w : World) (targets completion : list Target) (j : Job)
    (rt : Runtime) : Runtime :=
  if negb (cronStarted rt) then rt
  else if isPaused (plugin rt) then rt
  else
    match j with
    | MainHealthCheck =>
        {| plugin := fst (runFullHealthCheck w targets completion (plugin rt));
           cronStarted := cronStarted rt |}
    | TargetCheck t =>
        {| plugin := fst (checkSingleTarget w t (plugin rt));
           cronStarted := cronStarted rt |}
    | MetricsReporting =>
        {| plugin := collectAndReportMetrics w (plugin rt);
           cronStarted := cronStarted rt |}
    end.

(** The control endpoint [/control/force-check] calls
    [runFullHealthCheck] directly. *)
Definition forceCheck (w : World) (targets completion : list Target)
    (rt : Runtime) : Runtime :=
  {| plugin := fst (runFullHealthCheck w targets completion (plugin rt));
     cronStarted := cronStarted rt |}.

Inductive Command : Type :=
| Start
| Stop
| Pause
| Resume
| Tick (j : Job)
| ForceCheck.

Definition execute (w : World) (targets completion : list Target) (rt : Runtime)
    (c : Command) : Runtime :=
  match c with
  | Start => start w targets completion rt
  | Stop => stop w rt
  | Pause => pause w rt
  | Resume => resume w rt
  | Tick j => tick w targets completion j rt
  | ForceCheck => forceCheck w targets completion rt
  end.

Definition executeAll (w : World) (targets completion : list Target)
    (cs : list Command) (rt : Runtime) : Runtime :=
  foldl (execute w targets completion) rt cs.

(** The public [/health] endpoint: the HTTP status and the status
    text. *)
Definition healthEndpoint (p : Plugin) : Z * string :=
  if isRunning p && negb (isPaused p) then (200, "healthy"%string)
  else (503, "unhealthy"%string).

(** The [/alerts] endpoint: [limit] is [parseInt(req.query.limit)],
    [None] when it is not a number; [severity] is the query parameter,
    [None] when absent. The answer is the alerts, their count and the
    total. *)
Definition alertsEndpoint (limit : option Z) (severity : option string)
    (p : Plugin) : list Alert * nat * nat :=
  let limit' := if Js.truthy_opt limit then default 50 limit else 50 in
  let filtered :=
    match severity with
    | Some sev =>
        if String.eqb sev "" then alerts p
        else filter (fun a => HealthMonitor.severity (data a) = sev) (alerts p)
    | None => alerts p
    end in
  let answer := Js.slice (- limit') filtered in
  (answer, length answer, length (alerts p)).

End HealthMonitorOps.

Section SweepReportFacts.
Import HealthMonitor HealthMonitorOps.

(** *** which results are errors *)

(** X17: a check result has the status [error] only for a target of
    type [tcp] whose [socket.connect] throws; a [tcp] target is healthy
    exactly when the socket connects; and every other type, known or not,
    is probed over HTTP and is never an [error]. *)
Theorem error_status_only_from_tcp_throw (t : Target) (pr : Probe) :
  (status (singleResult t pr) = error
   <-> type t = "tcp"%string /\ exists m, tcpOutcome pr = TcpConnectThrows m)
  /\ (type t = "tcp"%string ->
      (status (singleResult t pr) = healthy <-> tcpOutcome pr = TcpConnected))
  /\ (type t <> "tcp"%string ->
      status (singleResult t pr) = status (checkHttpTarget t (httpOutcome pr))
      /\ errorMessage (singleResult t pr)
         = errorMessage (checkHttpTarget t (httpOutcome pr))).
Proof.
  assert (status (checkHttpTarget t (httpOutcome pr)) <> error) as Hhttp.
  { unfold checkHttpTarget. by destruct (httpClient_request _ _). }
  unfold singleResult, dispatch.
  destruct (String.eqb_spec (type t) "http") as [Eh|Nh];
    [|destruct (String.eqb_spec (type t) "https") as [Ehs|Nhs]];
    cbn [orb].
  - rewrite Eh. split; [|split]; [|discriminate|done].
    simpl. split; [done|]. by intros [[=] _].
  - rewrite Ehs. split; [|split]; [|discriminate|done].
    simpl. split; [done|]. by intros [[=] _].
  - destruct (String.eqb_spec (type t) "tcp") as [Et|Nt].
    + split; [|split]; [| |done].
      * destruct (tcpOutcome pr); simpl; split; try done;
          try (by intros [_ [m' [=]]]). intros _. eauto.
      * intros _. destruct (tcpOutcome pr); simpl; split; done.
    + split; [|split]; [|done|done].
      simpl. split; [done|]. by intros [? _].
Qed.

(** *** what a sweep leaves untouched *)

Lemma generateAlert_other_fields (w : World) (d : AlertData) (p : Plugin) :
  let p' := fst (generateAlert w d p) in
  stats p' = stats p /\ lastFullHealthCheck p' = lastFullHealthCheck p
  /\ isRunning p' = isRunning p /\ isPaused p' = isPaused p.
Proof.
  unfold generateAlert.
  by destruct (RabbitMQ.publishHealthAlert _ _ _ _) as [g [[]|m]].
Qed.

Lemma generateAlert_gateway (w : World) (d : AlertData) (p : Plugin) :
  let g := rabbitMQ p in
  let g' := rabbitMQ (fst (generateAlert w d p)) in
  RabbitMQ.isConnected g' = RabbitMQ.isConnected g
  /\ (RabbitMQ.isConnected g = false -> g' = g)
  /\ (RabbitMQ.isConnected g = true ->
      length (RabbitMQ.published g') = S (length (RabbitMQ.published g))).
Proof.
  unfold generateAlert, RabbitMQ.publishHealthAlert. simpl.
  destruct (RabbitMQ.isConnected (rabbitMQ p)) eqn:Hon; simpl.
  - split; [done|]. split; [done|]. intros _. rewrite length_app. simpl. lia.
  - by rewrite Hon.
Qed.

Lemma generateAlert_loop_fields (w : World) (f : CheckResult -> AlertData)
    (issues : list CheckResult) (p : Plugin) :
  let p' := foldl (fun q issue => fst (generateAlert w (f issue) q)) p issues in
  stats p' = stats p /\ lastFullHealthCheck p' = lastFullHealthCheck p
  /\ isRunning p' = isRunning p /\ isPaused p' = isPaused p
  /\ RabbitMQ.isConnected (rabbitMQ p') = RabbitMQ.isConnected (rabbitMQ p)
  /\ (RabbitMQ.isConnected (rabbitMQ p) = false -> rabbitMQ p' = rabbitMQ p)
  /\ (RabbitMQ.isConnected (rabbitMQ p) = true ->
      length (RabbitMQ.published (rabbitMQ p'))
      = (length (RabbitMQ.published (rabbitMQ p)) + length issues)%nat).
Proof.
  revert p. induction issues as [|r rs IH]; intros p; simpl.
  - repeat split; try done; intros _; lia.
  - destruct (IH (fst (generateAlert w (f r) p)))
      as (H1 & H2 & H3 & H4 & H5 & H6 & H7).
    destruct (generateAlert_other_fields w (f r) p) as (F1 & F2 & F3 & F4).
    destruct (generateAlert_gateway w (f r) p) as (G1 & G2 & G3).
    simpl in *.
    split; [congruence|]. split; [congruence|]. split; [congruence|].
    split; [congruence|]. split; [congruence|]. split.
    + intros Hoff. rewrite H6 by congruence. by apply G2.
    + intros Hon. rewrite H7 by congruence. rewrite G3 by done. lia.
Qed.

Lemma storeAll_other_fields (w : World) (p : Plugin) (ts : list Target) :
  stats (storeAll w p ts) = stats p
  /\ rabbitMQ (storeAll w p ts) = rabbitMQ p
  /\ isRunning (storeAll w p ts) = isRunning p
  /\ isPaused (storeAll w p ts) = isPaused p.
Proof.
  revert p. induction ts as [|t ts IH]; intros p; [done|].
  change (storeAll w p (t :: ts))
    with (storeAll w (fst (checkSingleTarget w t p)) ts).
  destruct (IH (fst (checkSingleTarget w t p))) as (-> & -> & -> & ->).
  done.
Qed.

Lemma issue_counts (results : list CheckResult) :
  (length (filter (fun r => status r = healthy) results)
   + length (filter (fun r => status r <> healthy) results)
   = length results)%nat
  /\ (length (filter (fun r => isCriticalIssue r = true) results)
      + length (filter (fun r => isNonCriticalIssue r = true) results)
      = length (filter (fun r => status r <> healthy) results))%nat.
Proof.
  induction results as [|r rs [IH1 IH2]]; [done|].
  rewrite !filter_cons.
  destruct (classify_result r) as [(Hc & Hn & He)|[(Hc & Hn & He)|(Hc & Hn & He)]];
    rewrite Hc, Hn;
    unfold isCriticalIssue, isNonCriticalIssue in Hc, Hn;
    destruct (decide (status r = healthy)) as [Hh|Hh];
    try (rewrite bool_decide_eq_true_2 in Hc, Hn by done);
    try (rewrite bool_decide_eq_false_2 in Hc, Hn by (intros H; by apply H));
    simpl in Hc, Hn;
    try (destruct (critical (target r)); simpl in Hc, Hn; discriminate);
    try (rewrite (decide_False (P := status r <> healthy)) by (intros H; by apply H));
    try (rewrite (decide_True (P := status r <> healthy)) by done);
    rewrite ?(decide_True (P := true = true)) by done;
    rewrite ?(decide_False (P := false = true)) by done;
    simpl; lia.
Qed.

Lemma filter_length_zero {A} (P : A -> Prop) `{!forall x, Decision (P x)}
    (l : list A) :
  length (filter P l) = 0%nat <-> Forall (fun x => ~ P x) l.
Proof.
  induction l as [|x l IH]; [by split|].
  rewrite filter_cons, Forall_cons. destruct (decide (P x)); simpl.
  - split; [done|]. by intros [? _].
  - rewrite IH. tauto.
Qed.

(** X18: in the status report that follows a sweep, the healthy and
    unhealthy counts add up to the number of results and the critical and
    non-critical counts add up to the unhealthy count; the overall status
    is [healthy] exactly when every result is healthy and [critical]
    exactly when some non-healthy result belongs to a critical target. *)
Theorem healthUpdate_counts (results : list CheckResult) :
  let u := healthUpdate results in
  (healthyTargets u + unhealthyTargets u = totalTargets u)%nat
  /\ (criticalIssues u + nonCriticalIssues u = unhealthyTargets u)%nat
  /\ (overallStatus u = "healthy"%string
      <-> Forall (fun r => status r = healthy) results)
  /\ (overallStatus u = "critical"%string
      <-> Exists (fun r => status r <> healthy /\ critical (target r) = true)
            results).
Proof.
  destruct (issue_counts results) as [Hsum Hsplit].
  unfold healthUpdate. cbn [healthyTargets unhealthyTargets totalTargets
    criticalIssues nonCriticalIssues overallStatus].
  split; [done|]. split; [done|].
  set (crit := filter (fun r => isCriticalIssue r = true) results) in *.
  set (rest := filter (fun r => isNonCriticalIssue r = true) results) in *.
  assert (length crit = 0%nat
          <-> Forall (fun r => ~ (status r <> healthy /\ critical (target r) = true))
                results) as Hcrit.
  { subst crit. rewrite filter_length_zero. apply Forall_iff. intros r.
    unfold isCriticalIssue. case_bool_decide; destruct (critical (target r));
      simpl; intuition congruence. }
  assert (length (filter (fun r => status r <> healthy) results) = 0%nat
          <-> Forall (fun r => status r = healthy) results) as Hall.
  { rewrite filter_length_zero. apply Forall_iff. intros r.
    destruct (decide (status r = healthy)); intuition congruence. }
  split.
  - destruct (Nat.ltb_spec 0 (length crit)) as [Hc|Hc].
    + split; [discriminate|]. intros Hh. apply Hall in Hh. lia.
    + destruct (Nat.ltb_spec 0 (length rest)) as [Hr|Hr].
      * split; [discriminate|]. intros Hh. apply Hall in Hh. lia.
      * split; [|done]. intros _. apply Hall. lia.
  - rewrite Exists_exists. destruct (Nat.ltb_spec 0 (length crit)) as [Hc|Hc].
    + split; [|done]. intros _.
      destruct (decide (Exists (fun r => status r <> healthy
                                         /\ critical (target r) = true) results))
        as [He|He]; [by apply Exists_exists in He|].
      apply not_Exists_Forall in He; [|intros r; apply _].
      apply Hcrit in He. lia.
    + assert (length crit = 0%nat) as Hz by lia. apply Hcrit in Hz.
      split.
      * by destruct (0 <? length rest)%nat.
      * intros (r & Hin & Hr). rewrite Forall_forall in Hz.
        by destruct (Hz r Hin).
Qed.

Lemma processHealthResults_fields (w : World) (results : list CheckResult)
    (p : Plugin) :
  let p' := processHealthResults w results p in
  stats p' = stats p /\ lastFullHealthCheck p' = lastFullHealthCheck p
  /\ isRunning p' = isRunning p /\ isPaused p' = isPaused p
  /\ RabbitMQ.isConnected (rabbitMQ p') = RabbitMQ.isConnected (rabbitMQ p)
  /\ (RabbitMQ.isConnected (rabbitMQ p) = false -> rabbitMQ p' = rabbitMQ p)
  /\ (RabbitMQ.isConnected (rabbitMQ p) = true ->
      length (RabbitMQ.published (rabbitMQ p'))
      = (length (RabbitMQ.published (rabbitMQ p))
         + length (filter (fun r => status r <> healthy) results))%nat).
Proof.
  unfold processHealthResults.
  set (crit := filter (fun r => isCriticalIssue r = true) results).
  set (rest := filter (fun r => isNonCriticalIssue r = true) results).
  destruct (generateAlert_loop_fields w serviceDown crit p)
    as (A1 & A2 & A3 & A4 & A5 & A6 & A7).
  set (p1 := foldl _ p crit) in *.
  destruct (generateAlert_loop_fields w serviceDegraded rest p1)
    as (B1 & B2 & B3 & B4 & B5 & B6 & B7).
  simpl in *.
  split; [congruence|]. split; [congruence|]. split; [congruence|].
  split; [congruence|]. split; [congruence|]. split.
  - intros Hoff. rewrite B6 by congruence. by apply A6.
  - intros Hon. rewrite B7 by congruence. rewrite A7 by done.
    destruct (issue_counts results) as [_ Hsplit]. fold crit rest in Hsplit. lia.
Qed.

Lemma sweep_unfold (w : World) (targets completion : list Target) (p : Plugin) :
  let results := map (fun t => singleResult t (probe w t)) targets in
  let p1 := storeAll w p completion in
  let p2 := set_stats (updateStats w results (stats p1)) (Some (clock w)) p1 in
  fst (runFullHealthCheck w targets completion p)
  = reportHealthMetrics w results (processHealthResults w results p2).
Proof.
  unfold runFullHealthCheck. cbn [fst]. by rewrite !map_map.
Qed.

(** X19: a sweep adds one to the number of checks and adds to the
    successful and failed counters the numbers of healthy and non-healthy
    results, which together are the number of targets; no counter ever
    decreases, and the time of the sweep is recorded. *)
Theorem sweep_statistics (w : World) (targets completion : list Target)
    (p : Plugin) :
  let p' := fst (runFullHealthCheck w targets completion p) in
  let results := snd (runFullHealthCheck w targets completion p) in
  totalChecks (stats p') = totalChecks (stats p) + 1
  /\ successfulChecks (stats p')
     = successfulChecks (stats p)
       + Z.of_nat (length (filter (fun r => status r = healthy) results))
  /\ failedChecks (stats p')
     = failedChecks (stats p)
       + Z.of_nat (length (filter (fun r => status r <> healthy) results))
  /\ successfulChecks (stats p') + failedChecks (stats p')
     = successfulChecks (stats p) + failedChecks (stats p)
       + Z.of_nat (length targets)
  /\ successfulChecks (stats p) <= successfulChecks (stats p')
  /\ failedChecks (stats p) <= failedChecks (stats p')
  /\ lastCheckDuration (stats p') = duration w
  /\ lastFullHealthCheck p' = Some (clock w).
Proof.
  intros p' results. subst p' results.
  rewrite sweep_results, sweep_unfold. cbn zeta.
  set (results := map (fun t => singleResult t (probe w t)) targets).
  unfold reportHealthMetrics. cbn [stats lastFullHealthCheck set_rabbitMQ].
  destruct (processHealthResults_fields w results
              (set_stats (updateStats w results (stats (storeAll w p completion)))
                 (Some (clock w)) (storeAll w p completion)))
    as (-> & -> & _).
  cbn [stats lastFullHealthCheck set_stats].
  destruct (storeAll_other_fields w p completion) as (-> & _).
  destruct (issue_counts results) as [Hsum _].
  assert (length results = length targets) as Hlen by apply length_map.
  unfold updateStats. cbn [totalChecks successfulChecks failedChecks
    lastCheckDuration].
  repeat split; try done; lia.
Qed.

Lemma responseTimes_sweep (w : World) (targets : list Target) :
  responseTimes (map (fun t => singleResult t (probe w t)) targets)
  = filter (fun z => z <> 0) (map (fun t => elapsed (probe w t)) targets).
Proof.
  unfold responseTimes. induction targets as [|t ts IH]; [done|].
  cbn [map omap list_omap]. rewrite filter_cons.
  assert (responseTime (singleResult t (probe w t)) = Some (elapsed (probe w t)))
    as ->.
  { unfold singleResult. by destruct (dispatch _ _). }
  change (list_omap ?f ?l) with (omap f l). rewrite IH.
  unfold Js.truthy_opt, Js.truthy.
  destruct (Z.eqb_spec (elapsed (probe w t)) 0) as [Hz|Hnz]; simpl.
  - by rewrite decide_False by (intros H; by apply H).
  - by rewrite decide_True by done.
Qed.

(** X20: the average response time of a sweep is taken over the targets
    that answered in a non-zero time, in the order of the targets: a time
    of 0 ms is left out like a missing one. When none is left the previous
    average is kept; otherwise the number stored is the binary64 quotient
    of their binary64 sum, added up from the left starting at 0, by their
    count: a rounded value, not the exact mean. *)
Theorem sweep_average_response_time (w : World) (targets completion : list Target)
    (p : Plugin) :
  let p' := fst (runFullHealthCheck w targets completion p) in
  let times := filter (fun z => z <> 0)
                 (map (fun t => elapsed (probe w t)) targets) in
  (times = [] ->
   averageResponseTime (stats p') = averageResponseTime (stats p))
  /\ (times <> [] ->
      averageResponseTime (stats p')
      = (Js.sum times / Js.number (Z.of_nat (length times)))%float).
Proof.
  intros p' times. subst p'.
  rewrite sweep_unfold. cbn zeta.
  set (results := map (fun t => singleResult t (probe w t)) targets).
  unfold reportHealthMetrics. cbn [stats set_rabbitMQ].
  destruct (processHealthResults_fields w results
              (set_stats (updateStats w results (stats (storeAll w p completion)))
                 (Some (clock w)) (storeAll w p completion)))
    as (-> & _).
  cbn [stats set_stats].
  destruct (storeAll_other_fields w p completion) as (-> & _).
  unfold updateStats. cbn [averageResponseTime].
  subst results. rewrite responseTimes_sweep. fold times.
  split.
  - intros ->. reflexivity.
  - intros Hne.
    destruct (Z.ltb_spec 0 (Z.of_nat (length times))) as [Hpos|Hzero]; [done|].
    destruct times; [done|]. simpl in Hzero. lia.
Qed.

(** Four targets that answer in 1, 0, 1 and 2 ms. *)
Definition quickTarget (n : string) : Target := {|
  name := n; type := "http"; url := "http://x/" +:+ n; host := "";
  port := 0; expectedStatus := None; timeout := None;
  critical := false; interval := None
|}.

Definition quickWorld : World := {|
  probe := fun t => {| httpOutcome := HttpResponse 200;
                       tcpOutcome := TcpConnected;
                       elapsed := if String.eqb (name t) "b" then 0
                                  else if String.eqb (name t) "d" then 2 else 1;
                       finishedAt := 3000 |};
  alertId := fun _ => "alert-3000-abc"%string;
  uuid := fun _ => "uuid-3"%string;
  clock := 3000;
  duration := 2
|}.

(** The 0 ms answer is not counted, and the stored mean of 1, 1 and
    2 ms is the binary64 number that prints as 1.3333333333333333. *)
Example average_of_three_of_four :
  let targets := map quickTarget ["a"; "b"; "c"; "d"]%string in
  averageResponseTime
    (stats (fst (runFullHealthCheck quickWorld targets targets constructor)))
  = 0x1.5555555555555p+0%float.
Proof. vm_compute. reflexivity. Qed.

(** X21: a sweep made while the gateway is disconnected changes nothing
    of the gateway and still appends one alert per non-healthy result; made
    while it is connected, it publishes one message per such result plus
    one report of the results, and stays connected. *)
Theorem sweep_publications (w : World) (targets completion : list Target)
    (p : Plugin) :
  let p' := fst (runFullHealthCheck w targets completion p) in
  let results := snd (runFullHealthCheck w targets completion p) in
  let failures := length (filter (fun r => status r <> healthy) results) in
  length (alerts p') = (length (alerts p) + failures)%nat
  /\ (RabbitMQ.isConnected (rabbitMQ p) = false -> rabbitMQ p' = rabbitMQ p)
  /\ (RabbitMQ.isConnected (rabbitMQ p) = true ->
      RabbitMQ.isConnected (rabbitMQ p') = true
      /\ length (RabbitMQ.published (rabbitMQ p'))
         = (length (RabbitMQ.published (rabbitMQ p)) + failures + 1)%nat).
Proof.
  intros p' results failures. subst p' results failures.
  rewrite sweep_results.
  set (results := map (fun t => singleResult t (probe w t)) targets).
  split.
  { rewrite sweep_alerts, sweep_results. fold results.
    destruct (processHealthResults_effect w results
                (set_stats (updateStats w results (stats (storeAll w p completion)))
                   (Some (clock w)) (storeAll w p completion)))
      as (_ & new & -> & Hdata).
    rewrite length_app. cbn [alerts set_stats]. rewrite storeAll_alerts.
    f_equal. rewrite <- (length_map data new), Hdata, length_app, !length_map.
    apply issue_counts. }
  rewrite sweep_unfold. cbn zeta. fold results.
  set (p2 := set_stats (updateStats w results (stats (storeAll w p completion)))
               (Some (clock w)) (storeAll w p completion)).
  assert (rabbitMQ p2 = rabbitMQ p) as Hg.
  { subst p2. cbn [rabbitMQ set_stats]. apply storeAll_other_fields. }
  destruct (processHealthResults_fields w results p2)
    as (_ & _ & _ & _ & Hc & Hoff & Hon).
  rewrite Hg in Hc, Hoff, Hon.
  unfold reportHealthMetrics, RabbitMQ.publishHealthMetrics.
  cbn [rabbitMQ set_rabbitMQ]. rewrite Hc.
  split.
  - intros Hdown. rewrite Hdown. cbn [negb fst]. by apply Hoff.
  - intros Hup. rewrite Hup. cbn [negb fst]. split; [by rewrite <- Hup, <- Hc|].
    cbn [RabbitMQ.published RabbitMQ.channel_publish].
    rewrite length_app, Hon by done. simpl. lia.
Qed.

End SweepReportFacts.

Section LifecycleFacts.
Import HealthMonitor HealthMonitorOps.

Lemma sweep_flags (w : World) (targets completion : list Target) (p : Plugin) :
  isRunning (fst (runFullHealthCheck w targets completion p)) = isRunning p
  /\ isPaused (fst (runFullHealthCheck w targets completion p)) = isPaused p.
Proof.
  rewrite sweep_unfold. cbn zeta.
  set (results := map (fun t => singleResult t (probe w t)) targets).
  unfold reportHealthMetrics. cbn [isRunning isPaused set_rabbitMQ].
  destruct (processHealthResults_fields w results
              (set_stats (updateStats w results (stats (storeAll w p completion)))
                 (Some (clock w)) (storeAll w p completion)))
    as (_ & _ & -> & -> & _).
  cbn [isRunning isPaused set_stats].
  by destruct (storeAll_other_fields w p completion) as (_ & _ & -> & ->).
Qed.

Lemma execute_cron_implies_running (w : World) (targets completion : list Target)
    (rt : Runtime) (c : Command) :
  (cronStarted rt = true -> isRunning (plugin rt) = true) ->
  cronStarted (execute w targets completion rt c) = true ->
  isRunning (plugin (execute w targets completion rt c)) = true.
Proof.
  intros Hinv. destruct c as [| | | |j|]; cbn [execute].
  - unfold start. destruct (isRunning (plugin rt)) eqn:Hr; [by rewrite Hr|].
    intros _. cbn [plugin]. by rewrite (proj1 (sweep_flags _ _ _ _)).
  - unfold stop. destruct (isRunning (plugin rt)) eqn:Hr; simpl; [done|].
    intros Hc. specialize (Hinv Hc). congruence.
  - unfold pause.
    destruct (isRunning (plugin rt)) eqn:Hr, (isPaused (plugin rt)) eqn:Hp;
      simpl; try done; intros Hc; specialize (Hinv Hc); congruence.
  - unfold resume.
    destruct (isRunning (plugin rt)) eqn:Hr, (isPaused (plugin rt)) eqn:Hp;
      simpl; try done; intros Hc; specialize (Hinv Hc); congruence.
  - unfold tick. destruct (cronStarted rt) eqn:Hc; cbn [negb];
      [|intros; congruence].
    destruct (isPaused (plugin rt)) eqn:Hp; [intros; by apply Hinv|].
    destruct j; cbn [plugin cronStarted]; intros _.
    + rewrite (proj1 (sweep_flags _ _ _ _)). by apply Hinv.
    + simpl. by apply Hinv.
    + simpl. by apply Hinv.
  - unfold forceCheck. cbn [plugin cronStarted]. intros Hc.
    rewrite (proj1 (sweep_flags _ _ _ _)). by apply Hinv.
Qed.

Lemma executeAll_cron_implies_running (w : World) (targets completion : list Target)
    (cs : list Command) (rt : Runtime) :
  (cronStarted rt = true -> isRunning (plugin rt) = true) ->
  cronStarted (executeAll w targets completion cs rt) = true ->
  isRunning (plugin (executeAll w targets completion cs rt)) = true.
Proof.
  revert rt. induction cs as [|c cs IH]; intros rt Hinv; [done|].
  simpl. apply IH. by apply execute_cron_implies_running.
Qed.

(** X22: under any sequence of start, stop, pause, resume, job firings
    and forced checks, the cron jobs are started only while the plugin is
    running; and whenever the plugin is stopped or paused, a job that comes
    due runs no probe and changes nothing. *)
Theorem scheduled_checks_only_while_running (w : World)
    (targets completion : list Target) (cs : list Command) (j : Job) :
  let rt := executeAll w targets completion cs initialRuntime in
  (cronStarted rt = true -> isRunning (plugin rt) = true)
  /\ (isRunning (plugin rt) = false \/ isPaused (plugin rt) = true ->
      tick w targets completion j rt = rt).
Proof.
  intros rt.
  assert (cronStarted rt = true -> isRunning (plugin rt) = true) as Hinv.
  { apply executeAll_cron_implies_running. simpl. discriminate. }
  split; [done|].
  intros [Hstopped|Hpaused]; unfold tick.
  - destruct (cronStarted rt) eqn:Hc; [|done].
    specialize (Hinv eq_refl). congruence.
  - destruct (cronStarted rt); [|done]. by rewrite Hpaused.
Qed.

Lemma publishSystemStatus_keeps (w : World) (text : string) (p : Plugin) :
  healthResults (publishSystemStatus w text p) = healthResults p
  /\ alerts (publishSystemStatus w text p) = alerts p
  /\ stats (publishSystemStatus w text p) = stats p
  /\ lastFullHealthCheck (publishSystemStatus w text p) = lastFullHealthCheck p
  /\ isRunning (publishSystemStatus w text p) = isRunning p
  /\ isPaused (publishSystemStatus w text p) = isPaused p.
Proof. done. Qed.

(** X23: pausing a running plugin and resuming it at once brings the
    flags and the jobs back to where they were, runs no probe, and leaves
    the results, the alerts, the statistics and the time of the last sweep
    as they were; the gateway receives only the two status messages, and
    only if it is connected. *)
Theorem pause_resume_round_trip (w : World) (rt : Runtime) :
  isRunning (plugin rt) = true ->
  isPaused (plugin rt) = false ->
  let paused := pause w rt in
  let rt' := resume w paused in
  isPaused (plugin paused) = true /\ cronStarted paused = false
  /\ isRunning (plugin rt') = true /\ isPaused (plugin rt') = false
  /\ cronStarted rt' = true
  /\ healthResults (plugin rt') = healthResults (plugin rt)
  /\ alerts (plugin rt') = alerts (plugin rt)
  /\ stats (plugin rt') = stats (plugin rt)
  /\ lastFullHealthCheck (plugin rt') = lastFullHealthCheck (plugin rt)
  /\ (RabbitMQ.isConnected (rabbitMQ (plugin rt)) = false ->
      rabbitMQ (plugin rt') = rabbitMQ (plugin rt))
  /\ (length (RabbitMQ.published (rabbitMQ (plugin rt')))
      <= length (RabbitMQ.published (rabbitMQ (plugin rt))) + 2)%nat.
Proof.
  intros Hrun Hnp paused rt'. subst rt' paused.
  assert (pause w rt
          = {| plugin := publishSystemStatus w "paused"
                           (set_flags true true (plugin rt));
               cronStarted := false |}) as ->.
  { unfold pause. by rewrite Hrun, Hnp. }
  unfold resume. cbn [plugin cronStarted publishSystemStatus set_rabbitMQ
    set_flags isRunning isPaused negb orb healthResults alerts stats
    lastFullHealthCheck rabbitMQ].
  unfold RabbitMQ.publishSystemStatus.
  destruct (RabbitMQ.isConnected (rabbitMQ (plugin rt))) eqn:Hon; simpl;
    rewrite ?Hon; simpl; repeat split; try done; try lia.
  rewrite !length_app. simpl. lia.
Qed.

Definition runningRuntime : Runtime :=
  start answers500 [svcA] [svcA] initialRuntime.

Lemma pause_resume_round_trip_witness :
  alerts (plugin (resume answers500 (pause answers500 runningRuntime)))
  = alerts (plugin runningRuntime)
  /\ length (alerts (plugin runningRuntime)) = 1%nat.
Proof.
  split; [|reflexivity].
  apply (pause_resume_round_trip answers500 runningRuntime); reflexivity.
Defined.

(** X24: neither [stop] nor [start] resets the pause flag. A plugin that
    is paused, stopped and started again is running with its jobs started
    and is still paused: every job that comes due does nothing, [pause] has
    no effect, the [/health] endpoint answers 503, and only [resume] lifts
    the pause. *)
Theorem pause_survives_restart (w : World) (targets completion : list Target)
    (rt : Runtime) (j : Job) :
  isRunning (plugin rt) = true ->
  isPaused (plugin rt) = false ->
  let rt' := start w targets completion (stop w (pause w rt)) in
  isRunning (plugin rt') = true
  /\ isPaused (plugin rt') = true
  /\ cronStarted rt' = true
  /\ tick w targets completion j rt' = rt'
  /\ pause w rt' = rt'
  /\ healthEndpoint (plugin rt') = (503, "unhealthy"%string)
  /\ isPaused (plugin (resume w rt')) = false.
Proof.
  intros Hrun Hnp rt'.
  assert (isRunning (plugin rt') = true /\ isPaused (plugin rt') = true
          /\ cronStarted rt' = true) as (Hr & Hp & Hc).
  { set (p3 := publishSystemStatus w "started"
                 (set_flags true true
                    (publishSystemStatus w "stopped"
                       (set_flags false true
                          (publishSystemStatus w "paused"
                             (set_flags true true (plugin rt))))))).
    assert (rt' = {| plugin := fst (runFullHealthCheck w targets completion p3);
                     cronStarted := true |}) as ->.
    { subst rt' p3. unfold pause. by rewrite Hrun, Hnp. }
    cbn [plugin cronStarted].
    destruct (sweep_flags w targets completion p3) as [-> ->]. done. }
  split; [done|]. split; [done|]. split; [done|].
  split. { unfold tick. by rewrite Hc, Hp. }
  split. { unfold pause. by rewrite Hr, Hp. }
  split. { unfold healthEndpoint. by rewrite Hr, Hp. }
  unfold resume. by rewrite Hr, Hp.
Qed.

Lemma pause_survives_restart_witness :
  let rt' := start answers500 [svcA] [svcA]
               (stop answers500 (pause answers500 runningRuntime)) in
  isRunning (plugin rt') = true /\ isPaused (plugin rt') = true
  /\ tick answers500 [svcA] [svcA] MainHealthCheck rt' = rt'.
Proof.
  intros rt'.
  destruct (pause_survives_restart answers500 [svcA] [svcA] runningRuntime
              MainHealthCheck eq_refl eq_refl) as (H1 & H2 & _ & H4 & _).
  split; [exact H1|]. split; [exact H2|exact H4].
Defined.

(** *** the alerts endpoint *)

Lemma slice_suffix {A} (start : Z) (l : list A) : Js.slice start l `suffix_of` l.
Proof. unfold Js.slice. apply suffix_drop. Qed.

(** X25: the [/alerts] endpoint answers with the most recent alerts of
    the requested severity, in their order, together with their number and
    the number of all alerts. The alerts that match are all alerts when
    [severity] is missing or empty, and those of that severity otherwise.
    The answer is the last [limit] of them for a positive [limit], and the
    last 50 for a missing, unreadable or zero [limit]: all of them when
    they are no more than the limit. A negative [limit] [-n] leaves out
    the first [n] of them. *)
Theorem alertsEndpoint_answer (limit : option Z) (severity : option string)
    (p : Plugin) :
  let answer := fst (fst (alertsEndpoint limit severity p)) in
  let count := snd (fst (alertsEndpoint limit severity p)) in
  let total := snd (alertsEndpoint limit severity p) in
  count = length answer
  /\ total = length (alerts p)
  /\ (forall matching,
        (severity = None \/ severity = Some ""%string) /\ matching = alerts p
        \/ (exists sev,
              severity = Some sev /\ sev <> ""%string
              /\ matching
                 = filter (fun a => HealthMonitor.severity (data a) = sev)
                     (alerts p)) ->
        (forall n, limit = Some n -> 0 < n ->
           answer = mostRecent (Z.to_nat n) matching
           /\ count = Nat.min (Z.to_nat n) (length matching))
        /\ (limit = None \/ limit = Some 0 ->
            answer = mostRecent 50 matching
            /\ count = Nat.min 50 (length matching))
        /\ (forall n, limit = Some n -> n < 0 ->
              answer = drop (Z.to_nat (- n)) matching)
        /\ (exists older, matching = older ++ answer)).
Proof.
  unfold alertsEndpoint. cbn [fst snd].
  set (limit' := if Js.truthy_opt limit then default 50 limit else 50).
  set (filtered := match severity with
                   | Some sev => if String.eqb sev "" then alerts p else _
                   | None => alerts p
                   end).
  split; [done|]. split; [done|].
  intros matching Hmatching.
  assert (matching = filtered) as ->.
  { subst filtered.
    destruct Hmatching as [[[->| ->] ->]|(sev & -> & Hne & ->)]; [done|done|].
    by destruct (String.eqb_spec sev ""). }
  split.
  { intros n -> Hn. subst limit'. unfold Js.truthy_opt, Js.truthy.
    destruct (Z.eqb_spec n 0); [lia|]. cbn [negb default].
    rewrite slice_last_length by done. split; [|done].
    by rewrite slice_last by done. }
  split.
  { intros [->| ->]; subst limit'; cbn [Js.truthy_opt Js.truthy Z.eqb negb default];
      change (-50) with (Z.opp 50);
      rewrite slice_last_length by lia; (split; [|done]);
      by rewrite slice_last by lia. }
  split.
  { intros n -> Hn. subst limit'. unfold Js.truthy_opt, Js.truthy.
    destruct (Z.eqb_spec n 0); [lia|]. cbn [negb].
    change (default 50 (Some n)) with n.
    unfold Js.slice. destruct (Z.ltb_spec (- n) 0); [lia|].
    destruct (Z.min_spec (- n) (Z.of_nat (length filtered))) as [[_ ->]|[Hle ->]];
      [done|].
    rewrite Nat2Z.id. rewrite !drop_ge; [done|lia|lia]. }
  destruct (slice_suffix (- limit') filtered) as [older Holder]. by exists older.
Qed.

(** Three alerts, two of them critical. *)
Definition alertOf (n sev : string) : Alert := {|
  id := n;
  data := {| alertType := "service-down"; severity := sev; alertTarget := n;
             message := ""; alertError := None; alertTimestamp := None |};
  source := "health-monitor-plugin"
|}.

Definition threeAlerts : Plugin := {|
  isRunning := true; isPaused := false; healthResults := ∅;
  alerts := [alertOf "a1" "critical"; alertOf "a2" "warning";
             alertOf "a3" "critical"];
  lastFullHealthCheck := None; stats := stats constructor;
  rabbitMQ := RabbitMQ.constructor
|}.

Example alertsEndpoint_on_three_alerts :
  alertsEndpoint None None threeAlerts = (alerts threeAlerts, 3%nat, 3%nat)
  /\ alertsEndpoint (Some 0) (Some "critical"%string) threeAlerts
     = ([alertOf "a1" "critical"; alertOf "a3" "critical"], 2%nat, 3%nat)
  /\ alertsEndpoint (Some 1) (Some "critical"%string) threeAlerts
     = ([alertOf "a3" "critical"], 1%nat, 3%nat)
  /\ alertsEndpoint (Some (-1)) (Some ""%string) threeAlerts
     = ([alertOf "a2" "warning"; alertOf "a3" "critical"], 2%nat, 3%nat).
Proof. vm_compute. done. Qed.

(** *** database checks *)

Lemma checkQueries_disconnected (w : World) (timeout : Z) (db : Database)
    (queries : list (string * string)) (g : RabbitMQ.Service) :
  RabbitMQ.isConnected g = false ->
  checkQueries w timeout db queries g
  = (g, Some (map (fun entry => errorResult (fst entry) "RabbitMQ not connected")
                queries)).
Proof.
  intros Hoff. induction queries as [|entry rest IH]; [done|].
  cbn [checkQueries map]. unfold checkQuery, RabbitMQ.requestDatabaseHealthCheck.
  rewrite Hoff. cbn [negb]. by rewrite IH.
Qed.

(** The promise of the request with the [n]-th identifier, once all its
    replies are in. *)
Definition finalPromise (w : World) (timeout : Z) (db : Database) (n : nat)
  : RabbitMQ.Promise :=
  RabbitMQ.promise
    (RabbitMQ.waiterRun (replies db (uuid w n))
       (RabbitMQ.newWaiter (uuid w n) timeout)).

Lemma checkQuery_connected (w : World) (timeout : Z) (db : Database)
    (entry : string * string) (g : RabbitMQ.Service) :
  RabbitMQ.isConnected g = true ->
  exists g1,
    checkQuery w timeout db entry g
    = (g1, awaited db (fst entry)
             (finalPromise w timeout db (length (RabbitMQ.published g))))
    /\ RabbitMQ.isConnected g1 = true
    /\ length (RabbitMQ.published g1) = S (length (RabbitMQ.published g))
    /\ length (RabbitMQ.replyQueues g1) = S (length (RabbitMQ.replyQueues g)).
Proof.
  intros Hon. unfold checkQuery, RabbitMQ.requestDatabaseHealthCheck, finalPromise.
  rewrite Hon. cbn [negb]. eexists. split; [reflexivity|].
  simpl. rewrite !length_app. simpl. split; [done|]. split; lia.
Qed.

(** The loop on a connected gateway: either every promise settles and
    the results are those of the queries in their order, or the loop stops
    at the first promise that stays pending. *)
Lemma checkQueries_connected (w : World) (timeout : Z) (db : Database)
    (queries : list (string * string)) (g : RabbitMQ.Service) :
  RabbitMQ.isConnected g = true ->
  let n0 := length (RabbitMQ.published g) in
  let g' := fst (checkQueries w timeout db queries g) in
  RabbitMQ.isConnected g' = true
  /\ match snd (checkQueries w timeout db queries g) with
     | Some results =>
         length results = length queries
         /\ (forall i entry,
               queries !! i = Some entry ->
               results !! i
               = awaited db (fst entry) (finalPromise w timeout db (n0 + i)))
         /\ length (RabbitMQ.published g') = (n0 + length queries)%nat
         /\ length (RabbitMQ.replyQueues g')
            = (length (RabbitMQ.replyQueues g) + length queries)%nat
     | None =>
         exists k,
           (k < length queries)%nat
           /\ (forall i, (i < k)%nat ->
                 finalPromise w timeout db (n0 + i) <> RabbitMQ.Pending)
           /\ finalPromise w timeout db (n0 + k) = RabbitMQ.Pending
           /\ length (RabbitMQ.published g') = (n0 + k + 1)%nat
           /\ length (RabbitMQ.replyQueues g')
              = (length (RabbitMQ.replyQueues g) + k + 1)%nat
     end.
Proof.
  revert g. induction queries as [|entry rest IH]; intros g Hon n0 g'.
  { subst g'. simpl. split; [done|]. split; [done|].
    split; [by intros i entry [=]|]. split; lia. }
  subst g'. cbn [checkQueries].
  destruct (checkQuery_connected w timeout db entry g Hon)
    as (g1 & -> & Hon1 & Hp1 & Hq1). fold n0 in Hp1 |- *.
  destruct (awaited db (fst entry) (finalPromise w timeout db n0))
    as [result|] eqn:Hfirst.
  - destruct (IH g1 Hon1) as [Hon2 Hrest]. rewrite Hp1 in Hrest.
    destruct (checkQueries w timeout db rest g1) as [g2 [results|]];
      cbn [fst snd] in *.
    + split; [done|]. destruct Hrest as (Hlen & Hres & Hp2 & Hq2).
      split; [simpl; lia|]. split.
      * intros [|i] e He; simpl in He.
        -- injection He as <-. simpl. by rewrite Nat.add_0_r.
        -- simpl. rewrite (Hres i e He). do 2 f_equal. lia.
      * simpl. split; lia.
    + split; [done|]. destruct Hrest as (k & Hk & Hbefore & Hat & Hp2 & Hq2).
      exists (S k). split; [simpl; lia|]. split.
      * intros [|i] Hi.
        -- rewrite Nat.add_0_r. intros Hpend. by rewrite Hpend in Hfirst.
        -- replace (n0 + S i)%nat with (S n0 + i)%nat by lia. apply Hbefore. lia.
      * replace (n0 + S k)%nat with (S n0 + k)%nat by lia. split; [done|].
        split; lia.
  - cbn [fst snd]. split; [done|]. exists 0%nat. split; [simpl; lia|].
    split; [intros i Hi; lia|]. rewrite Nat.add_0_r. split.
    + destruct (finalPromise w timeout db n0) as [|response|m]; [done| |done].
      simpl in Hfirst. by destruct (fields db response).
    + split; lia.
Qed.

Lemma awaited_is_Some (db : Database) (name : string) (p : RabbitMQ.Promise) :
  is_Some (awaited db name p) <-> p <> RabbitMQ.Pending.
Proof.
  destruct p as [|response|m]; simpl.
  - split; [by intros [? [=]]|done].
  - split; [done|]. intros _. by destruct (fields db response).
  - split; [done|]. by eexists.
Qed.

(** X26: a database check run while the gateway is disconnected is
    rejected with [RabbitMQ not connected] and leaves the gateway as it
    was. Run while connected, it settles exactly when the promise of every
    request settles. Then it is fulfilled with one result per query, in the
    order of the queries: the status of the reply, [healthy] when the reply
    has none, [error] with the message when the request timed out or the
    reply was [null]; it has sent one request and asserted one reply queue
    per query and published the results once. When the promise of some
    request stays pending, the check never settles: the requests up to that
    one have been sent, the later ones never are, and no result is
    published. *)
Theorem runDatabaseHealthCheck_outcomes (w : World) (timeout : Z) (db : Database)
    (queries : list (string * string)) (g : RabbitMQ.Service) :
  let g' := fst (runDatabaseHealthCheck w timeout db queries g) in
  let outcome := snd (runDatabaseHealthCheck w timeout db queries g) in
  let n0 := length (RabbitMQ.published g) in
  let settles i := finalPromise w timeout db (n0 + i) <> RabbitMQ.Pending in
  (RabbitMQ.isConnected g = false ->
   g' = g /\ outcome = Some (Rejected "RabbitMQ not connected"))
  /\ (RabbitMQ.isConnected g = true ->
      (is_Some outcome <-> forall i, (i < length queries)%nat -> settles i)
      /\ ((forall i, (i < length queries)%nat -> settles i) ->
          exists results,
            outcome = Some (Fulfilled results)
            /\ length results = length queries
            /\ (forall i entry result,
                  queries !! i = Some entry -> results !! i = Some result ->
                  let reply := finalPromise w timeout db (n0 + i) in
                  queryName result = fst entry
                  /\ (forall m, reply = RabbitMQ.Failed m ->
                        result = errorResult (fst entry) m)
                  /\ (forall response, reply = RabbitMQ.Resolved response ->
                        fields db response = None ->
                        result = errorResult (fst entry) nullStatus)
                  /\ (forall response read,
                        reply = RabbitMQ.Resolved response ->
                        fields db response = Some read ->
                        resultStatus result = statusOrHealthy (replyStatus read)
                        /\ resultData result = replyData read
                        /\ resultError result = replyError read))
            /\ RabbitMQ.isConnected g' = true
            /\ length (RabbitMQ.published g') = (n0 + length queries + 1)%nat
            /\ length (RabbitMQ.replyQueues g')
               = (length (RabbitMQ.replyQueues g) + length queries)%nat)
      /\ (forall k,
            (k < length queries)%nat ->
            (forall i, (i < k)%nat -> settles i) ->
            finalPromise w timeout db (n0 + k) = RabbitMQ.Pending ->
            outcome = None
            /\ length (RabbitMQ.published g') = (n0 + k + 1)%nat
            /\ length (RabbitMQ.replyQueues g')
               = (length (RabbitMQ.replyQueues g) + k + 1)%nat)).
Proof.
  intros g' outcome n0 settles. subst g' outcome.
  unfold runDatabaseHealthCheck. split.
  { intros Hoff. rewrite checkQueries_disconnected by done.
    unfold RabbitMQ.publishHealthMetrics. rewrite Hoff. done. }
  intros Hon.
  destruct (checkQueries_connected w timeout db queries g Hon) as [Hon1 Hrun].
  fold n0 in Hrun.
  destruct (checkQueries w timeout db queries g) as [g1 [results|]];
    cbn [fst snd] in *.
  - destruct Hrun as (Hlen & Hres & Hp1 & Hq1).
    unfold RabbitMQ.publishHealthMetrics. rewrite Hon1. cbn [negb fst snd].
    assert (forall i, (i < length queries)%nat -> settles i) as Hall.
    { intros i Hi. destruct (lookup_lt_is_Some_2 queries i Hi) as [entry He].
      apply (awaited_is_Some db (fst entry)). rewrite <- (Hres i entry He).
      apply lookup_lt_is_Some_2. lia. }
    split; [split; [done|by eexists]|]. split.
    + intros _. exists results. split; [done|]. split; [done|]. split.
      * intros i entry result He Hr.
        rewrite (Hres i entry He) in Hr.
        destruct (finalPromise w timeout db (n0 + i)) as [|response|m];
          simpl in Hr; [done| |].
        -- destruct (fields db response) as [read|] eqn:Hread;
             injection Hr as <-; repeat split; intros; by simplify_eq.
        -- injection Hr as <-. repeat split; intros; by simplify_eq.
      * simpl. rewrite length_app. simpl. split; [done|]. split; lia.
    + intros k Hk _ Hpend. by destruct (Hall k Hk).
  - destruct Hrun as (k & Hk & Hbefore & Hat & Hp1 & Hq1).
    split; [|split].
    + split; [by intros [? [=]]|]. intros Hall. by destruct (Hall k Hk).
    + intros Hall. by destruct (Hall k Hk).
    + intros k' Hk' Hbefore' Hat'.
      assert (k' = k) as ->.
      { destruct (Nat.lt_trichotomy k' k) as [Hlt|[Heq|Hgt]]; [|done|].
        - by destruct (Hbefore k' Hlt).
        - by destruct (Hbefore' k Hgt). }
      done.
Qed.

(** A reply to the first of two queries that is not JSON: the check
    never settles, and the second query is never sent. *)
Definition silentDatabase : Database := {|
  replies := fun id =>
    [RabbitMQ.Delivery
       (Some {| RabbitMQ.msgCorrelationId := Some id;
                RabbitMQ.content := None |});
     RabbitMQ.TimeoutFires];
  fields := fun _ => None
|}.

Example database_check_hangs_on_unreadable_reply :
  let run :=
    runDatabaseHealthCheck answers500 5000 silentDatabase
      [("connectivity", "SELECT 1"); ("tables", "SELECT 2")]%string
      (fst (RabbitMQ.connect RabbitMQ.ConnectOk RabbitMQ.constructor)) in
  snd run = None
  /\ map RabbitMQ.payload (RabbitMQ.published (fst run)) = ["SELECT 1"%string].
Proof. vm_compute. done. Qed.

End LifecycleFacts.

(** ** config.js: validation at load *)

Module Config.
Import HealthMonitor.

(** The settings that [validateConfig] reads. A missing string is the
    empty string: both are falsy. *)
Record Settings : Type := {
  rabbitmqHost : string;
  rabbitmqPort : Z;
  coreApiUrl : string;
  healthTargets : list Target
}.

Definition newline : string := String (ascii_of_nat 10) "".

(** The callback of [config.healthTargets.forEach]. *)
Definition targetErrors (index : nat) (t : Target) : list string :=
  if String.eqb (name t) "" || (String.eqb (url t) "" && String.eqb (host t) "")
  then ["Health target " +:+ pretty index +:+ " must have name and url/host"]
  else [].

Definition validationErrors (c : Settings) : list string :=
  (if String.eqb (rabbitmqHost c) "" || (rabbitmqPort c =? 0)
   then ["RabbitMQ host and port are required"%string] else [])
  ++ (if String.eqb (coreApiUrl c) ""
      then ["Core API URL is required"%string] else [])
  ++ concat (imap targetErrors (healthTargets c)).

(** [validateConfig]: throws when there is an error; the module then
    ends the process. *)
Definition validateConfig (c : Settings) : Settled unit :=
  let errors := validationErrors c in
  if (0 <? length errors)%nat
  then Rejected ("Health Monitor Plugin Configuration Error:" +:+ newline
                 +:+ SelfMonitoringTimers.join newline errors)
  else Fulfilled tt.

End Config.

(** ** CoreIntegrationService.js: the connection to the core system *)

Module CoreIntegration.

(** The fields of the service that [verifyConnection] reads and
    writes; [httpClient] tells whether the client has been set up. *)
Record Service : Type := {
  httpClient : bool;
  isConnected : bool;
  lastHealthCheck : option Z;
  connectionAttempts : Z
}.

Definition constructor : Service := {|
  httpClient := false;
  isConnected := false;
  lastHealthCheck := None;
  connectionAttempts := 0
|}.

Definition setupHttpClient (s : Service) : Service := {|
  httpClient := true;
  isConnected := isConnected s;
  lastHealthCheck := lastHealthCheck s;
  connectionAttempts := connectionAttempts s
|}.

(** What the core system answers to the health request. *)
Inductive Answer : Type :=
| Responded (code : Z)
| NoAnswer (message : string).

Global Instance Answer_eq_dec : EqDecision Answer.
Proof. solve_decision. Defined.

(** [this.httpClient.get]: without a client the call throws a
    [TypeError]; axios rejects a status outside 200..299. *)
Definition httpClient_get (s : Service) (a : Answer) : Settled Z :=
  if negb (httpClient s)
  then Rejected "Cannot read properties of null (reading 'get')"
  else
    match a with
    | Responded code =>
        if (200 <=? code) && (code <? 300) then Fulfilled code
        else Rejected ("Request failed with status code " +:+ pretty code)
    | NoAnswer m => Rejected m
    end.

(** [verifyConnection]; [rightNow] is the clock. *)
Definition verifyConnection (rightNow : Z) (a : Answer) (s : Service)
  : Service * Settled unit :=
  let attempts := connectionAttempts s + 1 in
  let failed (m : string) :=
    ({| httpClient := httpClient s; isConnected := false;
        lastHealthCheck := lastHealthCheck s;
        connectionAttempts := attempts |}, Rejected m) in
  match httpClient_get s a with
  | Fulfilled code =>
      if code =? 200
      then ({| httpClient := httpClient s; isConnected := true;
               lastHealthCheck := Some rightNow;
               connectionAttempts := 0 |}, Fulfilled tt)
      else failed ("Unexpected response status: " +:+ pretty code)
  | Rejected m => failed m
  end.

(** [cleanup] *)
Definition cleanup (s : Service) : Service := {|
  httpClient := false;
  isConnected := false;
  lastHealthCheck := lastHealthCheck s;
  connectionAttempts := connectionAttempts s
|}.

Definition verifyAll (checks : list (Z * Answer)) (s : Service) : Service :=
  foldl (fun q c => fst (verifyConnection (fst c) (snd c) q)) s checks.

End CoreIntegration.

(** ** index.js: the API key check of the protected routes *)

Module Api.

(** [s.replace(pattern, '')] with a string pattern: the first
    occurrence is removed. *)
Fixpoint stripPrefix (pattern s : string) : option string :=
  match pattern, s with
  | EmptyString, _ => Some s
  | String p pattern', String c s' =>
      if Ascii.eqb p c then stripPrefix pattern' s' else None
  | String _ _, EmptyString => None
  end.

Fixpoint removeFirst (pattern s : string) : string :=
  match stripPrefix pattern s with
  | Some rest => rest
  | None =>
      match s with
      | EmptyString => EmptyString
      | String c s' => String c (removeFirst pattern s')
      end
  end.

(** The two headers that the check reads. *)
Record Headers : Type := {
  xApiKey : option string;
  authorization : option string
}.

(** [req.headers['x-api-key'] ||
     req.headers['authorization']?.replace('Bearer ', '')] *)
Definition presentedKey (h : Headers) : option string :=
  let fromAuthorization := removeFirst "Bearer " <$> authorization h in
  match xApiKey h with
  | Some k => if String.eqb k "" then fromAuthorization else Some k
  | None => fromAuthorization
  end.

(** [authenticateApiKey]: [true] when the request goes on to the
    route, [false] when it is answered with 401. *)
Definition authenticateApiKey (enableApiKey : bool) (apiKey : string)
    (h : Headers) : bool :=
  if negb enableApiKey then true
  else
    match presentedKey h with
    | Some k => negb (String.eqb k "") && String.eqb k apiKey
    | None => false
    end.

End Api.

Section ConfigFacts.
Import HealthMonitor Config.

(** A target that passes the check of [validateConfig]. *)
Definition wellFormed (t : Target) : Prop :=
  name t <> ""%string /\ (url t <> ""%string \/ host t <> ""%string).

Lemma targetErrors_nil (index : nat) (t : Target) :
  targetErrors index t = [] <-> wellFormed t.
Proof.
  unfold targetErrors, wellFormed.
  destruct (String.eqb_spec (name t) ""), (String.eqb_spec (url t) ""),
    (String.eqb_spec (host t) ""); simpl; split; try done; tauto.
Qed.

Lemma imap_errors_nil (f : nat -> Target -> list string) (ts : list Target) :
  (forall i t, f i t = [] <-> wellFormed t) ->
  concat (imap f ts) = [] <-> Forall wellFormed ts.
Proof.
  revert f. induction ts as [|t ts IH]; intros f Hf; [by split|].
  cbn [imap concat]. rewrite Forall_cons.
  rewrite <- (Hf 0%nat t), <- (IH (f ∘ S)) by (intros i t'; apply Hf).
  split.
  - by intros [? ?]%app_eq_nil.
  - intros [-> ->]. done.
Qed.

(** X27: the configuration passes validation exactly when the broker's
    host is given and its port is not 0, the core API URL is given, and
    every health target has a name and a URL or a host; nothing else is
    checked, so two targets with the same name pass. *)
Theorem validateConfig_accepts (c : Settings) :
  validateConfig c = Fulfilled tt
  <-> rabbitmqHost c <> ""%string /\ rabbitmqPort c <> 0
      /\ coreApiUrl c <> ""%string
      /\ Forall wellFormed (healthTargets c).
Proof.
  unfold validateConfig.
  rewrite <- (imap_errors_nil targetErrors) by apply targetErrors_nil.
  unfold validationErrors.
  destruct (String.eqb_spec (rabbitmqHost c) ""), (Z.eqb_spec (rabbitmqPort c) 0),
    (String.eqb_spec (coreApiUrl c) ""); simpl;
    try (split; [discriminate|tauto]).
  destruct (concat (imap targetErrors (healthTargets c))) as [|e es]; simpl.
  - split; [done|done].
  - split; [discriminate|]. by intros (_ & _ & _ & [=]).
Qed.

Definition shippedSettings : Settings := {|
  rabbitmqHost := "localhost"; rabbitmqPort := 5672;
  coreApiUrl := "http://localhost:4001";
  healthTargets := [coreApi; redisCache; coreApi]
|}.

Lemma validateConfig_accepts_witness :
  validateConfig shippedSettings = Fulfilled tt
  /\ validateConfig
       {| rabbitmqHost := "localhost"; rabbitmqPort := 5672;
          coreApiUrl := "http://localhost:4001";
          healthTargets := [zeroExpected; {| name := ""; type := "tcp"; url := "";
                                             host := "db"; port := 5432;
                                             expectedStatus := None;
                                             timeout := None; critical := true;
                                             interval := None |}] |}
     = Rejected ("Health Monitor Plugin Configuration Error:" +:+ newline
                 +:+ "Health target 1 must have name and url/host").
Proof.
  split; [|vm_compute; reflexivity].
  apply validateConfig_accepts. vm_compute.
  repeat split; try discriminate;
    repeat (apply Forall_cons; split;
            [split; [discriminate|(left; discriminate) || (right; discriminate)]|]);
    by apply Forall_nil.
Defined.

End ConfigFacts.

Section CoreIntegrationFacts.
Import CoreIntegration.

Lemma verifyConnection_step (rightNow : Z) (a : Answer) (s : Service) :
  httpClient s = true ->
  let s' := fst (verifyConnection rightNow a s) in
  httpClient s' = true
  /\ (a = Responded 200 ->
      isConnected s' = true /\ connectionAttempts s' = 0
      /\ lastHealthCheck s' = Some rightNow)
  /\ (a <> Responded 200 ->
      isConnected s' = false
      /\ connectionAttempts s' = connectionAttempts s + 1
      /\ lastHealthCheck s' = lastHealthCheck s).
Proof.
  intros Hc. unfold verifyConnection, httpClient_get. rewrite Hc. cbn [negb].
  destruct a as [code|m]; [|by repeat split].
  destruct (Z.eqb_spec code 200) as [->|Hne].
  - simpl. repeat split; try done; intros H; by destruct H.
  - destruct ((200 <=? code) && (code <? 300)); simpl;
      [destruct (Z.eqb_spec code 200); [done|]|]; simpl;
      repeat split; try done; congruence.
Qed.

(** X28: after any series of connection checks, the attempt counter is
    the number of failed checks since the last check that the core system
    answered with status 200 (another 2xx status counts as a failure); the
    service is connected exactly when the last check was such a success,
    and the time of the last health check is the time of that success. *)
Theorem connectionAttempts_count_failures (checks : list (Z * Answer)) :
  let s := verifyAll checks (setupHttpClient constructor) in
  exists before failures,
    checks = before ++ failures
    /\ Forall (fun c => snd c <> Responded 200) failures
    /\ (before = [] \/ exists b c, before = b ++ [c] /\ snd c = Responded 200)
    /\ connectionAttempts s = Z.of_nat (length failures)
    /\ (isConnected s = true <-> failures = [] /\ before <> [])
    /\ lastHealthCheck s = fst <$> last before.
Proof.
  induction checks as [|c checks IH] using rev_ind.
  - exists [], []. simpl. repeat split; try done. by left. by intros [_ ?].
  - destruct IH as (before & failures & -> & Hfail & Hbefore & Hcount & Hconn & Hlast).
    unfold verifyAll. rewrite foldl_app. cbn [foldl].
    fold (verifyAll (before ++ failures) (setupHttpClient constructor)).
    set (s := verifyAll (before ++ failures) (setupHttpClient constructor)) in *.
    assert (httpClient s = true) as Hclient.
    { subst s. generalize (before ++ failures). intros l.
      induction l as [|x l IHl] using rev_ind; [done|].
      unfold verifyAll. rewrite foldl_app. cbn [foldl].
      by apply verifyConnection_step. }
    destruct (verifyConnection_step (fst c) (snd c) s Hclient) as (_ & Hok & Hko).
    destruct (decide (snd c = Responded 200)) as [Hsucc|Hfailed].
    + destruct (Hok Hsucc) as (H1 & H2 & H3).
      exists ((before ++ failures) ++ [c]), []. rewrite app_nil_r.
      split; [done|]. split; [by apply Forall_nil|]. split; [right; eauto|].
      split; [by rewrite H2|]. split.
      * split; [intros _|done]. split; [done|]. by intros [_ [=]]%app_eq_nil.
      * by rewrite H3, last_snoc.
    + destruct (Hko Hfailed) as (H1 & H2 & H3).
      exists before, (failures ++ [c]). rewrite app_assoc.
      split; [done|]. split.
      { apply Forall_app. split; [done|]. by apply Forall_singleton. }
      split; [done|]. split.
      { rewrite H2, Hcount, length_app. simpl. lia. }
      split.
      * rewrite H1. split; [discriminate|]. by intros [[_ [=]]%app_eq_nil _].
      * by rewrite H3.
Qed.

End CoreIntegrationFacts.

Section ApiFacts.
Import Api.

Lemma stripPrefix_app (pattern rest : string) :
  stripPrefix pattern (pattern +:+ rest) = Some rest.
Proof.
  induction pattern as [|p pattern IH]; simpl; [by destruct rest|].
  by rewrite Ascii.eqb_refl.
Qed.

Lemma removeFirst_prefix (pattern rest : string) :
  removeFirst pattern (pattern +:+ rest) = rest.
Proof.
  destruct (pattern +:+ rest) eqn:E; simpl.
  - pose proof (stripPrefix_app pattern rest) as H. rewrite E in H.
    by rewrite H.
  - pose proof (stripPrefix_app pattern rest) as H. rewrite E in H.
    by rewrite H.
Qed.

(** X29: with the API key check enabled, a request with a non-empty
    [x-api-key] header passes exactly when that header is the configured
    key, whatever its [authorization] header says; without such a header,
    a request with [authorization: Bearer k] passes exactly when [k] is the
    configured key and is not empty, and a request with neither header is
    refused; when the configured key is empty every request is refused.
    With the check disabled every request passes. *)
Theorem api_key_check (enableApiKey : bool) (apiKey : string) (h : Headers) :
  (enableApiKey = false -> authenticateApiKey enableApiKey apiKey h = true)
  /\ (enableApiKey = true ->
      (forall k, xApiKey h = Some k -> k <> ""%string ->
         (authenticateApiKey enableApiKey apiKey h = true <-> k = apiKey))
      /\ (forall k, xApiKey h = None \/ xApiKey h = Some ""%string ->
            authorization h = Some ("Bearer " +:+ k) ->
            (authenticateApiKey enableApiKey apiKey h = true
             <-> k = apiKey /\ k <> ""%string))
      /\ (xApiKey h = None \/ xApiKey h = Some ""%string ->
          authorization h = None ->
          authenticateApiKey enableApiKey apiKey h = false)
      /\ (apiKey = ""%string -> authenticateApiKey enableApiKey apiKey h = false)).
Proof.
  split; [by intros ->|]. intros ->.
  unfold authenticateApiKey. cbn [negb].
  assert (forall k, negb (String.eqb k "") && String.eqb k apiKey = true
                    <-> k = apiKey /\ k <> ""%string) as Hkey.
  { intros k. destruct (String.eqb_spec k ""), (String.eqb_spec k apiKey);
      simpl; split; try done; tauto. }
  split; [|split; [|split]].
  - intros k Hx Hne. unfold presentedKey. rewrite Hx.
    destruct (String.eqb_spec k ""); [done|]. rewrite Hkey. tauto.
  - intros k Hx Hauth.
    assert (presentedKey h = Some k) as ->; [|by apply Hkey].
    unfold presentedKey. rewrite Hauth.
    replace (removeFirst "Bearer " <$> Some ("Bearer " +:+ k)) with (Some k)
      by (cbn [fmap option_fmap option_map]; by rewrite removeFirst_prefix).
    by destruct Hx as [-> | ->].
  - intros Hx Hauth. unfold presentedKey. rewrite Hauth.
    by destruct Hx as [-> | ->].
  - intros ->. destruct (presentedKey h) as [k|]; [|done].
    by destruct (String.eqb_spec k "").
Qed.

Lemma api_key_check_witness :
  authenticateApiKey true "health-monitor-secret"
    {| xApiKey := None;
       authorization := Some "Bearer health-monitor-secret"%string |} = true
  /\ authenticateApiKey true "health-monitor-secret"
       {| xApiKey := Some "guess"%string;
          authorization := Some "Bearer health-monitor-secret"%string |} = false.
Proof.
  split.
  - destruct (api_key_check true "health-monitor-secret"
                {| xApiKey := None;
                   authorization := Some "Bearer health-monitor-secret"%string |})
      as (_ & Hon). destruct (Hon eq_refl) as (_ & Hbearer & _).
    apply (Hbearer "health-monitor-secret"); [by left|reflexivity|].
    split; [reflexivity|discriminate].
  - reflexivity.
Defined.

End ApiFacts.

(** ** Schedules whose step divides the minute or the hour *)

Section CronFacts.
Import HealthMonitor.

#[local] Instance Field_eq_dec : EqDecision Cron.Field.
Proof. solve_decision. Defined.

Lemma parse_seconds_step (s : Z) :
  0 < s < 60 ->
  Cron.parse ("*/" +:+ pretty s +:+ " * * * * *")
  = Some [Cron.Step s; Cron.Any; Cron.Any; Cron.Any; Cron.Any; Cron.Any].
Proof.
  intros Hs.
  assert (Forall (fun s => Cron.parse ("*/" +:+ pretty s +:+ " * * * * *")
                           = Some [Cron.Step s; Cron.Any; Cron.Any; Cron.Any;
                                   Cron.Any; Cron.Any])
            (seqZ 1 59)) as Hall.
  { apply (bool_decide_unpack _). vm_compute. exact I. }
  rewrite Forall_forall in Hall. apply Hall. apply elem_of_seqZ. lia.
Qed.

Lemma parse_minutes_step (m : Z) :
  0 < m < 60 ->
  Cron.parse ("0 */" +:+ pretty m +:+ " * * * *")
  = Some [Cron.Exactly 0; Cron.Step m; Cron.Any; Cron.Any; Cron.Any; Cron.Any].
Proof.
  intros Hm.
  assert (Forall (fun m => Cron.parse ("0 */" +:+ pretty m +:+ " * * * *")
                           = Some [Cron.Exactly 0; Cron.Step m; Cron.Any;
                                   Cron.Any; Cron.Any; Cron.Any])
            (seqZ 1 59)) as Hall.
  { apply (bool_decide_unpack _). vm_compute. exact I. }
  rewrite Forall_forall in Hall. apply Hall. apply elem_of_seqZ. lia.
Qed.

Lemma minute_multiple (m t : Z) :
  0 < m -> (t mod 60 = 0 /\ (t / 60) mod m = 0) <-> t mod (60 * m) = 0.
Proof.
  intros Hm. rewrite !Z.mod_divide by lia. split.
  - intros [[q ->] Hq]. rewrite Z.div_mul in Hq by lia.
    destruct Hq as [k ->]. exists k. lia.
  - intros [k ->]. split.
    + exists (k * m). lia.
    + replace (k * (60 * m)) with ((k * m) * 60) by lia.
      rewrite Z.div_mul by lia. exists k. lia.
Qed.

(** X30: when the interval in whole seconds is below a minute and
    divides 60, the job of [intervalToCron] fires exactly at the seconds
    that are multiples of it; when the interval is below an hour and its
    whole minutes divide 60, the job fires exactly at the seconds that are
    multiples of that many minutes. *)
Theorem intervalToCron_exact_when_step_divides (intervalMs t : Z) :
  let seconds := intervalMs / 1000 in
  (0 < seconds < 60 -> (seconds | 60) ->
   (Cron.fires (intervalToCron intervalMs) t = true <-> t mod seconds = 0))
  /\ (60 <= seconds < 3600 -> (seconds / 60 | 60) ->
      (Cron.fires (intervalToCron intervalMs) t = true
       <-> t mod (60 * (seconds / 60)) = 0)).
Proof.
  intros seconds.
  destruct (intervalToCron_cases intervalMs) as (_ & Hsec & Hmin & _).
  fold seconds in Hsec, Hmin. split.
  - intros Hs Hdiv. rewrite (Hsec Hs). unfold Cron.fires.
    rewrite parse_seconds_step by done. cbn [Cron.matches].
    rewrite !andb_true_r, andb_true_iff, Z.ltb_lt, Z.eqb_eq.
    rewrite (Z.mod_mod_divide t 60 seconds) by done. intuition lia.
  - intros Hs Hdiv.
    assert (0 < seconds / 60 < 60) as Hm.
    { split; [apply Z.div_str_pos; lia|apply Z.div_lt_upper_bound; lia]. }
    rewrite (Hmin Hs). unfold Cron.fires.
    rewrite parse_minutes_step by done. cbn [Cron.matches].
    rewrite !andb_true_r, !andb_true_iff, Z.ltb_lt, !Z.eqb_eq.
    rewrite (Z.mod_mod_divide (t / 60) 60 (seconds / 60)) by done.
    rewrite <- minute_multiple by lia. intuition lia.
Qed.

Lemma intervalToCron_exact_when_step_divides_witness :
  Cron.fires (intervalToCron 30000) 90 = true
  /\ Cron.fires (intervalToCron 30000) 100 = false
  /\ Cron.fires (intervalToCron 120000) 240 = true.
Proof.
  split; [|split; [reflexivity|]].
  - apply (proj1 (intervalToCron_exact_when_step_divides 30000 90));
      [vm_compute; split; reflexivity|by exists 2|reflexivity].
  - apply (proj2 (intervalToCron_exact_when_step_divides 120000 240));
      [vm_compute; split; [discriminate|reflexivity]|by exists 30|reflexivity].
Defined.

End CronFacts.
